(** * The slangpy path-tracer example: scene construction and frame loop

    A shallow embedding of [examples/pathtracer/pathtracer.py].  Python
    classes become modules, attributes become record fields, and methods
    become functions in a state-and-exception monad whose state survives a
    raised exception (as the mutations of a Python object do).  Calls into
    the GPU device are recorded, in program order, in the device log. *)

From Stdlib Require Import String.
From Stdlib Require Import ZArith QArith Qabs List Lia Bool.
From Stdlib.Strings Require Import Byte.
Import ListNotations.
Local Open Scope Z_scope.

Set Implicit Arguments.

(** ** Exceptions and the monad *)

Inductive exn : Type :=
| ValueError          (* np.concatenate / np.stack of an empty list *)
| StructError         (* struct.pack: argument out of range *)
| AssertionError
| IndexError          (* list index out of range *)
| ZeroDivisionError   (* float division by zero *)
| AttributeError.     (* attribute access on None *)

Inductive result (A : Type) : Type :=
| Ok (a : A)
| Raise (e : exn).
Arguments Raise {A} e.

Definition M (S A : Type) : Type := S -> result A * S.

Definition ret {S A} (a : A) : M S A := fun s => (Ok a, s).

Definition bind {S A B} (m : M S A) (k : A -> M S B) : M S B :=
  fun s => match m s with
           | (Ok a, s') => k a s'
           | (Raise e, s') => (Raise e, s')
           end.

Definition raise {S A} (e : exn) : M S A := fun s => (Raise e, s).

Definition get {S} : M S S := fun s => (Ok s, s).

Definition modify {S} (f : S -> S) : M S unit := fun s => (Ok tt, f s).

(** A pure computation that may raise, run inside the monad. *)
Definition lift_result {S A} (r : result A) : M S A := fun s => (r, s).

Declare Scope monad_scope.
Delimit Scope monad_scope with monad.
Notation "x <- c1 ;; c2" := (bind c1 (fun x => c2))
  (at level 61, c1 at next level, right associativity) : monad_scope.
Notation "c1 ;;; c2" := (bind c1 (fun _ => c2))
  (at level 61, right associativity) : monad_scope.
Local Open Scope monad_scope.

(** [for x in xs: body], threading a loop-carried value. *)
Fixpoint for_each {S A B} (xs : list A) (body : B -> A -> M S B) (acc : B)
  : M S B :=
  match xs with
  | [] => ret acc
  | x :: xs' => acc' <- body acc x ;; for_each xs' body acc'
  end.

(** [[f(x) for x in xs]]. *)
Fixpoint list_comp {S A B} (f : A -> M S B) (xs : list A) : M S (list B) :=
  match xs with
  | [] => ret []
  | x :: xs' => y <- f x ;; ys <- list_comp f xs' ;; ret (y :: ys)
  end.

(** ** Python built-ins used by the example *)

(** [xs[i]] on a Python list: negative indices count from the end. *)
Definition py_index {A} (xs : list A) (i : Z) : result A :=
  let n := Z.of_nat (length xs) in
  let j := if i <? 0 then i + n else i in
  if (0 <=? j) && (j <? n)
  then match nth_error xs (Z.to_nat j) with
       | Some a => Ok a
       | None => Raise IndexError
       end
  else Raise IndexError.

(** [enumerate(xs)]. *)
Fixpoint enumerate_from {A} (start : Z) (xs : list A) : list (Z * A) :=
  match xs with
  | [] => []
  | x :: xs' => (start, x) :: enumerate_from (start + 1) xs'
  end.

Definition enumerate {A} (xs : list A) : list (Z * A) := enumerate_from 0 xs.

Definition byte_of_Z (v : Z) : byte :=
  match Byte.of_N (Z.to_N (v mod 256)) with
  | Some b => b
  | None => x00
  end.

(** [struct.pack("I", v)]: four bytes, least significant first; an argument
    outside [0, 2^32) raises [struct.error]. *)
Definition pack_I (v : Z) : result (list byte) :=
  if (0 <=? v) && (v <? 2 ^ 32)
  then Ok [byte_of_Z v; byte_of_Z (v / 2 ^ 8);
           byte_of_Z (v / 2 ^ 16); byte_of_Z (v / 2 ^ 24)]
  else Raise StructError.

(** [b"".join(d.pack() for d in ds)]. *)
Fixpoint join_packed {A} (pack : A -> result (list byte)) (ds : list A)
  : result (list byte) :=
  match ds with
  | [] => Ok []
  | d :: ds' =>
      match pack d with
      | Ok b => match join_packed pack ds' with
                | Ok bs => Ok (b ++ bs)
                | Raise e => Raise e
                end
      | Raise e => Raise e
      end
  end.

(** [np.concatenate(arrays, axis=0)] of arrays with equal row shape, and
    [np.stack]: both raise [ValueError] on an empty list of arrays. *)
Definition np_concatenate {A} (arrays : list (list A)) : result (list A) :=
  match arrays with
  | [] => Raise ValueError
  | _ => Ok (concat arrays)
  end.

Definition np_stack {A} (arrays : list A) : result (list A) :=
  match arrays with
  | [] => Raise ValueError
  | _ => Ok arrays
  end.

(** ** Vector and matrix values of the [spy] module *)

Module float2.
Record t (F : Type) : Type := make { x : F; y : F }.
End float2.

Module float3.
Record t (F : Type) : Type := make { x : F; y : F; z : F }.
End float3.

Module float4.
Record t (F : Type) : Type := make { x : F; y : F; z : F; w : F }.
End float4.

(** Row-major matrices, as rows of [float4]. *)
Module float4x4.
Record t (F : Type) : Type :=
  make { r0 : float4.t F; r1 : float4.t F; r2 : float4.t F; r3 : float4.t F }.
End float4x4.

Module float3x4.
Record t (F : Type) : Type :=
  make { r0 : float4.t F; r1 : float4.t F; r2 : float4.t F }.

(** Modelled from the spec: the constructor [spy.float3x4(m)] applied to a
    4x4 matrix is defined in the library, outside this example.  The spec
    calls its result the 3x4 form of the transform; it keeps the first three
    rows (linear part and translation column) and drops the fourth. *)
Definition of_float4x4 {F} (m : float4x4.t F) : t F :=
  make (float4x4.r0 m) (float4x4.r1 m) (float4x4.r2 m).
End float3x4.

(** ** GPU objects *)

(** One vertex row: position, normal, uv (eight float32, 32 bytes). *)
Record vertex (F : Type) : Type :=
  mk_vertex { px : F; py : F; pz : F; nx : F; ny : F; nz : F; tu : F; tv : F }.

(** One row of the index array: a triangle's three uint32 indices. *)
Definition triangle : Type := (Z * Z * Z)%type.

Module BufferUsage.
Inductive t : Type := shader_resource | unordered_access.
End BufferUsage.

Inductive BufferData (F : Type) : Type :=
| data_vertices (rows : list (vertex F))
| data_indices (rows : list triangle)
| data_bytes (bytes : list byte)
| data_matrices (ms : list (float4x4.t F))
| data_uninitialized (size : Z).
Arguments data_indices {F} rows.
Arguments data_bytes {F} bytes.
Arguments data_uninitialized {F} size.

Module Buffer.
Record t (F : Type) : Type :=
  make { usage : BufferUsage.t; label : string; data : BufferData F }.

(** Size in bytes of the uploaded data. *)
Definition size {F} (b : t F) : Z :=
  match data b with
  | data_vertices rows => Z.of_nat (length rows) * 32
  | data_indices rows => Z.of_nat (length rows) * 12
  | data_bytes bytes => Z.of_nat (length bytes)
  | data_matrices ms => Z.of_nat (length ms) * 64
  | data_uninitialized size => size
  end.
End Buffer.

Module Texture.
Record t : Type := make { label : string; width : Z; height : Z }.
End Texture.

Module AccelerationStructure.
Record t : Type := make { label : string; size : Z; handle : Z }.
End AccelerationStructure.

Module Format.
Inductive t : Type := rgb32_float | rgba32_float.
End Format.

Module IndexFormat.
Inductive t : Type := uint32.
End IndexFormat.

Module AccelerationStructureGeometryFlags.
Inductive t : Type := none | opaque | no_duplicate_any_hit_invocation.
End AccelerationStructureGeometryFlags.

Module AccelerationStructureInstanceFlags.
Inductive t : Type := none.
End AccelerationStructureInstanceFlags.

Module BufferOffsetPair.
Record t (F : Type) : Type := make { buffer : Buffer.t F; offset : Z }.
End BufferOffsetPair.

Module AccelerationStructureBuildInputTriangles.
Record t (F : Type) : Type := make {
  vertex_buffers : list (BufferOffsetPair.t F);
  vertex_format : Format.t;
  vertex_count : Z;
  vertex_stride : Z;
  index_buffer : BufferOffsetPair.t F;
  index_format : IndexFormat.t;
  index_count : Z;
  flags : AccelerationStructureGeometryFlags.t }.
End AccelerationStructureBuildInputTriangles.

(** One record of the top-level instance list. *)
Module AccelerationStructureInstanceDesc.
Record t (F : Type) : Type := make {
  transform : float3x4.t F;
  instance_id : Z;
  instance_mask : Z;
  instance_contribution_to_hit_group_index : Z;
  flags : AccelerationStructureInstanceFlags.t;
  acceleration_structure : Z }.
End AccelerationStructureInstanceDesc.

(** The host-side instance list: [size] slots, each written or not. *)
Module AccelerationStructureInstanceList.
Definition t (F : Type) : Type :=
  list (option (AccelerationStructureInstanceDesc.t F)).

Definition create {F} (size : Z) : t F := repeat None (Z.to_nat size).

Fixpoint set_nth {A} (xs : list A) (n : nat) (a : A) : list A :=
  match xs, n with
  | [], _ => []
  | _ :: xs', O => a :: xs'
  | x :: xs', S n' => x :: set_nth xs' n' a
  end.

Definition write {F} (l : t F) (index : Z)
  (desc : AccelerationStructureInstanceDesc.t F) : t F :=
  set_nth l (Z.to_nat index) (Some desc).
End AccelerationStructureInstanceList.

Inductive AccelerationStructureBuildInput (F : Type) : Type :=
| input_triangles (i : AccelerationStructureBuildInputTriangles.t F)
| input_instances (l : AccelerationStructureInstanceList.t F).

Module AccelerationStructureBuildDesc.
Record t (F : Type) : Type :=
  make { inputs : list (AccelerationStructureBuildInput F) }.
End AccelerationStructureBuildDesc.

Module AccelerationStructureSizes.
Record t : Type := make { acceleration_structure_size : Z; scratch_size : Z }.
End AccelerationStructureSizes.

(** ** Commands, device calls and the device log *)

Module CameraBinding.
Record t (F : Type) : Type := make {
  position : float3.t F;
  image_u : float3.t F;
  image_v : float3.t F;
  image_w : float3.t F }.
End CameraBinding.

(** What [Scene.bind] writes under the cursor. *)
Module SceneBinding.
Record t (F : Type) : Type := make {
  tlas : AccelerationStructure.t;
  material_descs : Buffer.t F;
  mesh_descs : Buffer.t F;
  instance_descs : Buffer.t F;
  vertices : Buffer.t F;
  indices : Buffer.t F;
  transforms : Buffer.t F;
  inverse_transpose_transforms : Buffer.t F;
  camera : CameraBinding.t F }.
End SceneBinding.

(** Commands recorded by a command encoder. *)
Inductive Command (F : Type) : Type :=
| build_acceleration_structure
    (desc : AccelerationStructureBuildDesc.t F)
    (dst : AccelerationStructure.t) (scratch_buffer : Buffer.t F)
| dispatch_rays
    (g_output : Texture.t) (g_frame : Z) (g_scene : SceneBinding.t F)
    (dimensions : Z * Z * Z)
| dispatch_path_tracer
    (g_output : Texture.t) (g_frame : Z) (g_scene : SceneBinding.t F)
    (thread_count : Z * Z * Z)
| dispatch_accumulator
    (thread_count : Z * Z * Z)
    (input : Texture.t) (output : Texture.t) (accumulator : Texture.t)
    (reset : bool)
| dispatch_tone_mapper
    (thread_count : Z * Z * Z) (input : Texture.t) (output : Texture.t)
| blit (dst : Texture.t) (src : Texture.t).
Arguments dispatch_accumulator {F} thread_count input output accumulator reset.
Arguments dispatch_tone_mapper {F} thread_count input output.
Arguments blit {F} dst src.

(** Calls that reach the device, the surface or the window. *)
Inductive Event (F : Type) : Type :=
| create_buffer (b : Buffer.t F)
| create_texture (t : Texture.t)
| create_acceleration_structure (a : AccelerationStructure.t)
| create_acceleration_structure_instance_list (size : Z)
| instance_list_write (index : Z) (desc : AccelerationStructureInstanceDesc.t F)
| submit_command_buffer (commands : list (Command F))
| wait
| surface_configure (width : Z) (height : Z)
| surface_unconfigure
| surface_present
| window_close
| tev_show_async (t : Texture.t)
| write_screenshot (t : Texture.t).
Arguments create_texture {F} t.
Arguments create_acceleration_structure {F} a.
Arguments create_acceleration_structure_instance_list {F} size.
Arguments wait {F}.
Arguments surface_configure {F} width height.
Arguments surface_unconfigure {F}.
Arguments surface_present {F}.
Arguments window_close {F}.
Arguments tev_show_async {F} t.
Arguments write_screenshot {F} t.

(** The operations of the [spy] library and of numpy that the example calls
    and that compute with floating-point values, or that query the driver.
    The example never inspects their results beyond the comparisons listed
    here, so they are an interface; the development holds for every
    implementation of it. *)
Class Spy (F : Type) : Type := {
  f_of_Z : Z -> F;                       (* float(n), int -> float32 *)
  f_of_Q : Q -> F;                       (* a decimal literal *)
  fadd : F -> F -> F;
  fsub : F -> F -> F;
  fmul : F -> F -> F;
  fdiv : F -> F -> F;
  fgt : F -> F -> bool;
  math_normalize : float3.t F -> float3.t F;
  math_cross : float3.t F -> float3.t F -> float3.t F;
  math_length3 : float3.t F -> F;
  math_length2 : float2.t F -> F;
  math_tan : F -> F;
  math_radians : F -> F;
  math_atan2 : F -> F -> F;
  math_asin : F -> F;
  math_cos : F -> F;
  math_sin : F -> F;
  math_matrix_from_translation : float3.t F -> float4x4.t F;
  math_matrix_from_scaling : float3.t F -> float4x4.t F;
  math_matrix_from_rotation_xyz : float3.t F -> float4x4.t F;
  math_mul : float4x4.t F -> float4x4.t F -> float4x4.t F;
  math_inverse : float4x4.t F -> float4x4.t F;
  math_transpose : float4x4.t F -> float4x4.t F;
  pack_f : F -> list byte;               (* struct.pack("f", v) *)
  get_acceleration_structure_sizes :
    AccelerationStructureBuildDesc.t F -> AccelerationStructureSizes.t
}.

Module Device.
Record t (F : Type) : Type := make { log : list (Event F); next_handle : Z }.

Definition emit {F} (e : Event F) : M (t F) unit :=
  modify (fun d => make (log d ++ [e]) (next_handle d)).

Definition create_buffer {F} (usage : BufferUsage.t) (label : string)
  (data : BufferData F) : M (t F) (Buffer.t F) :=
  let b := Buffer.make usage label data in
  emit (create_buffer b) ;;; ret b.

Definition create_texture {F} (label : string) (width height : Z)
  : M (t F) Texture.t :=
  let t := Texture.make label width height in
  emit (create_texture t) ;;; ret t.

Definition create_acceleration_structure {F} (size : Z) (label : string)
  : M (t F) AccelerationStructure.t :=
  d <- get ;;
  let a := AccelerationStructure.make label size (next_handle d) in
  modify (fun d => make (log d) (next_handle d + 1)) ;;;
  emit (create_acceleration_structure a) ;;; ret a.

Definition create_acceleration_structure_instance_list {F} (size : Z)
  : M (t F) (AccelerationStructureInstanceList.t F) :=
  emit (create_acceleration_structure_instance_list size) ;;;
  ret (AccelerationStructureInstanceList.create size).

Definition submit_command_buffer {F} (commands : list (Command F))
  : M (t F) unit :=
  emit (submit_command_buffer commands).

Definition wait {F} : M (t F) unit := emit wait.
End Device.

(** ** Vector arithmetic on [spy.float3] *)

Definition vadd {F} `{Spy F} (a b : float3.t F) : float3.t F :=
  float3.make (fadd (float3.x a) (float3.x b))
              (fadd (float3.y a) (float3.y b))
              (fadd (float3.z a) (float3.z b)).

Definition vsub {F} `{Spy F} (a b : float3.t F) : float3.t F :=
  float3.make (fsub (float3.x a) (float3.x b))
              (fsub (float3.y a) (float3.y b))
              (fsub (float3.z a) (float3.z b)).

Definition vscale {F} `{Spy F} (a : float3.t F) (k : F) : float3.t F :=
  float3.make (fmul (float3.x a) k) (fmul (float3.y a) k) (fmul (float3.z a) k).

Definition float3_of_Z {F} `{Spy F} (a b c : Z) : float3.t F :=
  float3.make (f_of_Z a) (f_of_Z b) (f_of_Z c).

Definition float2_zero {F} `{Spy F} : float2.t F :=
  float2.make (f_of_Z 0) (f_of_Z 0).

Definition float2_sub {F} `{Spy F} (a b : float2.t F) : float2.t F :=
  float2.make (fsub (float2.x a) (float2.x b)) (fsub (float2.y a) (float2.y b)).

Definition float4x4_identity {F} `{Spy F} : float4x4.t F :=
  let o := f_of_Z 0 in
  let i := f_of_Z 1 in
  float4x4.make (float4.make i o o o) (float4.make o i o o)
                (float4.make o o i o) (float4.make o o o i).

Definition USE_RAYTRACING_PIPELINE : bool := true.

(** ** class Camera *)

Module Camera.
Record t (F : Type) : Type := make {
  width : Z;
  height : Z;
  aspect_ratio : F;
  position : float3.t F;
  target : float3.t F;
  up : float3.t F;
  fov : F;
  fwd : float3.t F;
  right : float3.t F;
  image_u : float3.t F;
  image_v : float3.t F;
  image_w : float3.t F }.

Definition set_size {F} (c : t F) (w h : Z) : t F :=
  make w h (aspect_ratio c) (position c) (target c) (up c) (fov c)
       (fwd c) (right c) (image_u c) (image_v c) (image_w c).

Definition set_pose {F} (c : t F) (position' target' up' : float3.t F) : t F :=
  make (width c) (height c) (aspect_ratio c) position' target' up' (fov c)
       (fwd c) (right c) (image_u c) (image_v c) (image_w c).

(** The assignments of [recompute], once the division has succeeded. *)
Definition recompute_fields {F} `{Spy F} (c : t F) : t F :=
  let aspect_ratio' := fdiv (f_of_Z (width c)) (f_of_Z (height c)) in
  let fwd' := math_normalize (vsub (target c) (position c)) in
  let right' := math_normalize (math_cross fwd' (up c)) in
  let up' := math_normalize (math_cross right' fwd') in
  let fov_rad := math_radians (fov c) in
  let image_u' :=
    vscale (vscale right' (math_tan (fmul fov_rad (f_of_Q (1 # 2)))))
           aspect_ratio' in
  let image_v' := vscale up' (math_tan (fmul fov_rad (f_of_Q (1 # 2)))) in
  let image_w' := fwd' in
  make (width c) (height c) aspect_ratio' (position c) (target c) up' (fov c)
       fwd' right' image_u' image_v' image_w'.

(** [float(self.width) / float(self.height)] raises when the height is 0,
    before any attribute has been assigned. *)
Definition recompute {F} `{Spy F} (c : t F) : result (t F) :=
  if height c =? 0 then Raise ZeroDivisionError else Ok (recompute_fields c).

(** [__init__]: the default camera; the attributes that [recompute] assigns
    do not exist before the call and start here as zero vectors. *)
Definition init {F} `{Spy F} : t F :=
  let zero := float3_of_Z 0 0 0 in
  recompute_fields
    (make 100 100 (f_of_Q 1) (float3_of_Z 1 1 1) (float3_of_Z 0 0 0)
          (float3_of_Z 0 1 0) (f_of_Q 70) zero zero zero zero zero).

Definition bind {F} (c : t F) : CameraBinding.t F :=
  CameraBinding.make (position c) (image_u c) (image_v c) (image_w c).
End Camera.

(** ** class Material, class Mesh, class Transform *)

Module Material.
Record t (F : Type) : Type := make { base_color : float3.t F }.
End Material.

Module Mesh.
Record t (F : Type) : Type :=
  make { vertices : list (vertex F); indices : list triangle }.

Definition vertex_count {F} (m : t F) : Z := Z.of_nat (length (vertices m)).
Definition triangle_count {F} (m : t F) : Z := Z.of_nat (length (indices m)).
Definition index_count {F} (m : t F) : Z := triangle_count m * 3.

(** A literal vertex row. *)
Definition row {F} `{Spy F} (a b c d e f g h : Q) : vertex F :=
  mk_vertex (f_of_Q a) (f_of_Q b) (f_of_Q c) (f_of_Q d)
            (f_of_Q e) (f_of_Q f) (f_of_Q g) (f_of_Q h).

(** [vertices[:, (0, 2)] *= [size[0], size[1]]] *)
Definition scale_xz {F} `{Spy F} (size : float2.t F) (v : vertex F) : vertex F :=
  mk_vertex (fmul (px v) (float2.x size)) (py v) (fmul (pz v) (float2.y size))
            (nx v) (ny v) (nz v) (tu v) (tv v).

(** [vertices[:, 0:3] *= [size[0], size[1], size[2]]] *)
Definition scale_xyz {F} `{Spy F} (size : float3.t F) (v : vertex F) : vertex F :=
  mk_vertex (fmul (px v) (float3.x size)) (fmul (py v) (float3.y size))
            (fmul (pz v) (float3.z size))
            (nx v) (ny v) (nz v) (tu v) (tv v).

Definition create_quad {F} `{Spy F} (size : float2.t F) : t F :=
  let h := (1 # 2)%Q in
  let vertices :=
    [ row (- h) 0 (- h) 0 1 0 0 0;
      row h 0 (- h) 0 1 0 1 0;
      row (- h) 0 h 0 1 0 0 1;
      row h 0 h 0 1 0 1 1 ] in
  let vertices := map (scale_xz size) vertices in
  let indices := [ (2, 1, 0); (1, 2, 3) ] in
  make vertices indices.

Definition create_cube {F} `{Spy F} (size : float3.t F) : t F :=
  let h := (1 # 2)%Q in
  let vertices :=
    [ (* left *)
      row (- h) (- h) (- h) 0 (- (1)) 0 0 0;
      row (- h) (- h) h 0 (- (1)) 0 1 0;
      row h (- h) h 0 (- (1)) 0 1 1;
      row h (- h) (- h) 0 (- (1)) 0 0 1;
      (* right *)
      row (- h) h h 0 1 0 0 0;
      row (- h) h (- h) 0 1 0 1 0;
      row h h (- h) 0 1 0 1 1;
      row h h h 0 1 0 0 1;
      (* back *)
      row (- h) h (- h) 0 0 (- (1)) 0 0;
      row (- h) (- h) (- h) 0 0 (- (1)) 1 0;
      row h (- h) (- h) 0 0 (- (1)) 1 1;
      row h h (- h) 0 0 (- (1)) 0 1;
      (* front *)
      row h h h 0 0 1 0 0;
      row h (- h) h 0 0 1 1 0;
      row (- h) (- h) h 0 0 1 1 1;
      row (- h) h h 0 0 1 0 1;
      (* bottom *)
      row (- h) h h (- (1)) 0 0 0 0;
      row (- h) (- h) h (- (1)) 0 0 1 0;
      row (- h) (- h) (- h) (- (1)) 0 0 1 1;
      row (- h) h (- h) (- (1)) 0 0 0 1;
      (* top *)
      row h h (- h) 1 0 0 0 0;
      row h (- h) (- h) 1 0 0 1 0;
      row h (- h) h 1 0 0 1 1;
      row h h h 1 0 0 0 1 ] in
  let vertices := map (scale_xyz size) vertices in
  let indices :=
    [ (0, 2, 1); (0, 3, 2); (4, 6, 5); (4, 7, 6);
      (8, 10, 9); (8, 11, 10); (12, 14, 13); (12, 15, 14);
      (16, 18, 17); (16, 19, 18); (20, 22, 21); (20, 23, 22) ] in
  make vertices indices.
End Mesh.

Module Transform.
Record t (F : Type) : Type := make {
  translation : float3.t F;
  scaling : float3.t F;
  rotation : float3.t F;
  matrix : float4x4.t F }.

Definition init {F} `{Spy F} : t F :=
  make (float3_of_Z 0 0 0) (float3_of_Z 1 1 1) (float3_of_Z 0 0 0)
       float4x4_identity.

Definition update_matrix {F} `{Spy F} (self : t F) : t F :=
  let T := math_matrix_from_translation (translation self) in
  let S := math_matrix_from_scaling (scaling self) in
  let R := math_matrix_from_rotation_xyz (rotation self) in
  make (translation self) (scaling self) (rotation self)
       (math_mul (math_mul T R) S).
End Transform.

(** ** class Stage

    The stage's camera is the one [Camera] object that the scene and the
    camera controller also hold; it lives in the application state below,
    not in this record. *)

Module Stage.
Record t (F : Type) : Type := make {
  materials : list (Material.t F);
  meshes : list (Mesh.t F);
  transforms : list (Transform.t F);
  instances : list (Z * Z * Z) }.

Definition init {F} : t F := make [] [] [] [].

Definition add_material {F} (stage : t F) (material : Material.t F) : Z * t F :=
  let material_id := Z.of_nat (length (materials stage)) in
  (material_id,
   make (materials stage ++ [material]) (meshes stage) (transforms stage)
        (instances stage)).

Definition add_mesh {F} (stage : t F) (mesh : Mesh.t F) : Z * t F :=
  let mesh_id := Z.of_nat (length (meshes stage)) in
  (mesh_id,
   make (materials stage) (meshes stage ++ [mesh]) (transforms stage)
        (instances stage)).

Definition add_transform {F} (stage : t F) (transform : Transform.t F)
  : Z * t F :=
  let transform_id := Z.of_nat (length (transforms stage)) in
  (transform_id,
   make (materials stage) (meshes stage) (transforms stage ++ [transform])
        (instances stage)).

Definition add_instance {F} (stage : t F) (mesh_id material_id transform_id : Z)
  : Z * t F :=
  let instance_id := Z.of_nat (length (instances stage)) in
  (instance_id,
   make (materials stage) (meshes stage) (transforms stage)
        (instances stage ++ [(mesh_id, material_id, transform_id)])).
End Stage.

(** ** class Scene *)

Module Scene.

Module MaterialDesc.
Record t (F : Type) : Type := make { base_color : float3.t F }.

Definition pack {F} `{Spy F} (self : t F) : result (list byte) :=
  Ok (pack_f (float3.x (base_color self)) ++
      pack_f (float3.y (base_color self)) ++
      pack_f (float3.z (base_color self))).
End MaterialDesc.

Module MeshDesc.
Record t : Type := make {
  vertex_count : Z;
  index_count : Z;
  vertex_offset : Z;
  index_offset : Z }.

Definition pack (self : t) : result (list byte) :=
  match pack_I (vertex_count self), pack_I (index_count self),
        pack_I (vertex_offset self), pack_I (index_offset self) with
  | Ok a, Ok b, Ok c, Ok d => Ok (a ++ b ++ c ++ d)
  | _, _, _, _ => Raise StructError
  end.
End MeshDesc.

Module InstanceDesc.
Record t : Type := make { mesh_id : Z; material_id : Z; transform_id : Z }.

Definition pack (self : t) : result (list byte) :=
  match pack_I (mesh_id self), pack_I (material_id self),
        pack_I (transform_id self) with
  | Ok a, Ok b, Ok c => Ok (a ++ b ++ c)
  | _, _, _ => Raise StructError
  end.
End InstanceDesc.

Record t (F : Type) : Type := make {
  material_descs : list (MaterialDesc.t F);
  material_descs_buffer : Buffer.t F;
  mesh_descs : list MeshDesc.t;
  instance_descs : list InstanceDesc.t;
  vertex_buffer : Buffer.t F;
  index_buffer : Buffer.t F;
  mesh_descs_buffer : Buffer.t F;
  instance_descs_buffer : Buffer.t F;
  transforms : list (float4x4.t F);
  inverse_transpose_transforms : list (float4x4.t F);
  transform_buffer : Buffer.t F;
  inverse_transpose_transforms_buffer : Buffer.t F;
  blases : list AccelerationStructure.t;
  tlas : AccelerationStructure.t }.

(** One turn of the loop [for mesh in stage.meshes]; the loop state is the
    two running counts and the descriptor list built so far. *)
Definition mesh_descs_step {F} (st : Z * Z * list MeshDesc.t) (mesh : Mesh.t F)
  : Z * Z * list MeshDesc.t :=
  let '(vertex_count, index_count, mesh_descs) := st in
  (vertex_count + Mesh.vertex_count mesh,
   index_count + Mesh.index_count mesh,
   mesh_descs ++
     [MeshDesc.make (Mesh.vertex_count mesh) (Mesh.index_count mesh)
                    vertex_count index_count]).

Definition prepare_mesh_descs {F} (meshes : list (Mesh.t F))
  : Z * Z * list MeshDesc.t :=
  fold_left mesh_descs_step meshes (0, 0, []).

Definition prepare_instance_descs (instances : list (Z * Z * Z))
  : list InstanceDesc.t :=
  map (fun i => let '(mesh_id, material_id, transform_id) := i in
                InstanceDesc.make mesh_id material_id transform_id)
      instances.

Definition assert_ {S} (b : bool) : M S unit :=
  if b then ret tt else raise AssertionError.

(** The build input that [build_blas] assembles for one mesh descriptor. *)
Definition blas_build_input {F} (vertex_buffer index_buffer : Buffer.t F)
  (mesh_desc : MeshDesc.t) : AccelerationStructureBuildInputTriangles.t F :=
  AccelerationStructureBuildInputTriangles.make
    [BufferOffsetPair.make vertex_buffer (MeshDesc.vertex_offset mesh_desc * 32)]
    Format.rgb32_float
    (MeshDesc.vertex_count mesh_desc)
    32
    (BufferOffsetPair.make index_buffer (MeshDesc.index_offset mesh_desc * 4))
    IndexFormat.uint32
    (MeshDesc.index_count mesh_desc)
    AccelerationStructureGeometryFlags.opaque.

(** [build_blas]; [self.vertex_buffer] and [self.index_buffer] are passed in. *)
Definition build_blas {F} `{Spy F} (vertex_buffer index_buffer : Buffer.t F)
  (mesh_desc : MeshDesc.t) : M (Device.t F) AccelerationStructure.t :=
  let build_input := blas_build_input vertex_buffer index_buffer mesh_desc in
  let build_desc :=
    AccelerationStructureBuildDesc.make [input_triangles build_input] in
  let sizes := get_acceleration_structure_sizes build_desc in
  blas_scratch_buffer <-
    Device.create_buffer BufferUsage.unordered_access "blas_scratch_buffer"
      (data_uninitialized (AccelerationStructureSizes.scratch_size sizes)) ;;
  blas <-
    Device.create_acceleration_structure
      (AccelerationStructureSizes.acceleration_structure_size sizes) "blas" ;;
  let command_encoder :=
    [build_acceleration_structure build_desc blas blas_scratch_buffer] in
  Device.submit_command_buffer command_encoder ;;;
  ret blas.

(** The record written for one instance, once both list look-ups succeeded. *)
Definition tlas_instance_desc {F} (transform : float4x4.t F) (instance_id : Z)
  (blas : AccelerationStructure.t) : AccelerationStructureInstanceDesc.t F :=
  AccelerationStructureInstanceDesc.make
    (float3x4.of_float4x4 transform)
    instance_id
    255
    0
    AccelerationStructureInstanceFlags.none
    (AccelerationStructure.handle blas).

(** One turn of [for instance_id, instance_desc in enumerate(...)]. *)
Definition build_tlas_step {F} (transforms : list (float4x4.t F))
  (blases : list AccelerationStructure.t)
  (instance_list : AccelerationStructureInstanceList.t F)
  (it : Z * InstanceDesc.t)
  : M (Device.t F) (AccelerationStructureInstanceList.t F) :=
  let '(instance_id, instance_desc) := it in
  transform <-
    lift_result (py_index transforms (InstanceDesc.transform_id instance_desc)) ;;
  blas <- lift_result (py_index blases (InstanceDesc.mesh_id instance_desc)) ;;
  let desc := tlas_instance_desc transform instance_id blas in
  Device.emit (instance_list_write instance_id desc) ;;;
  ret (AccelerationStructureInstanceList.write instance_list instance_id desc).

(** [build_tlas]; [self.instance_descs], [self.transforms] and
    [self.blases] are passed in. *)
Definition build_tlas {F} `{Spy F} (instance_descs : list InstanceDesc.t)
  (transforms : list (float4x4.t F)) (blases : list AccelerationStructure.t)
  : M (Device.t F) AccelerationStructure.t :=
  instance_list <-
    Device.create_acceleration_structure_instance_list
      (Z.of_nat (length instance_descs)) ;;
  instance_list <-
    for_each (enumerate instance_descs) (build_tlas_step transforms blases)
             instance_list ;;
  let build_desc :=
    AccelerationStructureBuildDesc.make [input_instances instance_list] in
  let sizes := get_acceleration_structure_sizes build_desc in
  tlas_scratch_buffer <-
    Device.create_buffer BufferUsage.unordered_access "tlas_scratch_buffer"
      (data_uninitialized (AccelerationStructureSizes.scratch_size sizes)) ;;
  tlas <-
    Device.create_acceleration_structure
      (AccelerationStructureSizes.acceleration_structure_size sizes) "tlas" ;;
  let command_encoder :=
    [build_acceleration_structure build_desc tlas tlas_scratch_buffer] in
  Device.submit_command_buffer command_encoder ;;;
  ret tlas.

(** [Scene.__init__(device, stage)]. *)
Definition init {F} `{Spy F} (stage : Stage.t F) : M (Device.t F) (t F) :=
  (* Prepare material descriptors *)
  let material_descs :=
    map (fun m => MaterialDesc.make (Material.base_color m))
        (Stage.materials stage) in
  material_descs_data <-
    lift_result (join_packed MaterialDesc.pack material_descs) ;;
  material_descs_buffer <-
    Device.create_buffer BufferUsage.shader_resource "material_descs_buffer"
      (data_bytes material_descs_data) ;;
  (* Prepare mesh descriptors *)
  let '(vertex_count, index_count, mesh_descs) :=
    prepare_mesh_descs (Stage.meshes stage) in
  (* Prepare instance descriptors *)
  let instance_descs := prepare_instance_descs (Stage.instances stage) in
  (* Create vertex and index buffers *)
  vertices <-
    lift_result (np_concatenate (map (@Mesh.vertices F) (Stage.meshes stage))) ;;
  indices <-
    lift_result (np_concatenate (map (@Mesh.indices F) (Stage.meshes stage))) ;;
  assert_ (Z.of_nat (length vertices) =? vertex_count) ;;;
  assert_ (Z.of_nat (length indices) =? index_count / 3) ;;;
  vertex_buffer <-
    Device.create_buffer BufferUsage.shader_resource "vertex_buffer"
      (data_vertices vertices) ;;
  index_buffer <-
    Device.create_buffer BufferUsage.shader_resource "index_buffer"
      (data_indices indices) ;;
  mesh_descs_data <- lift_result (join_packed MeshDesc.pack mesh_descs) ;;
  mesh_descs_buffer <-
    Device.create_buffer BufferUsage.shader_resource "mesh_descs_buffer"
      (data_bytes mesh_descs_data) ;;
  instance_descs_data <-
    lift_result (join_packed InstanceDesc.pack instance_descs) ;;
  instance_descs_buffer <-
    Device.create_buffer BufferUsage.shader_resource "instance_descs_buffer"
      (data_bytes instance_descs_data) ;;
  (* Prepare transforms *)
  let transforms := map (@Transform.matrix F) (Stage.transforms stage) in
  let inverse_transpose_transforms :=
    map (fun t => math_transpose (math_inverse t)) transforms in
  transform_data <- lift_result (np_stack transforms) ;;
  transform_buffer <-
    Device.create_buffer BufferUsage.shader_resource "transform_buffer"
      (data_matrices transform_data) ;;
  inverse_transpose_data <- lift_result (np_stack inverse_transpose_transforms) ;;
  inverse_transpose_transforms_buffer <-
    Device.create_buffer BufferUsage.shader_resource
      "inverse_transpose_transforms_buffer"
      (data_matrices inverse_transpose_data) ;;
  (* Build BLASes *)
  blases <- list_comp (build_blas vertex_buffer index_buffer) mesh_descs ;;
  (* Build TLAS *)
  tlas <- build_tlas instance_descs transforms blases ;;
  ret (make material_descs material_descs_buffer mesh_descs instance_descs
            vertex_buffer index_buffer mesh_descs_buffer instance_descs_buffer
            transforms inverse_transpose_transforms transform_buffer
            inverse_transpose_transforms_buffer blases tlas).

(** [Scene.bind(cursor)]; [self.camera] is the shared camera object. *)
Definition bind {F} (self : t F) (camera : Camera.t F) : SceneBinding.t F :=
  SceneBinding.make (tlas self) (material_descs_buffer self)
    (mesh_descs_buffer self) (instance_descs_buffer self)
    (vertex_buffer self) (index_buffer self) (transform_buffer self)
    (inverse_transpose_transforms_buffer self) (Camera.bind camera).
End Scene.

(** ** Window events *)

Module KeyCode.
Inductive t : Type := a | d | e | q | w | s | left_shift | escape | f1 | f2 | other.

Definition eqb (k1 k2 : t) : bool :=
  match k1, k2 with
  | a, a | d, d | e, e | q, q | w, w | s, s
  | left_shift, left_shift | escape, escape | f1, f1 | f2, f2
  | other, other => true
  | _, _ => false
  end.
End KeyCode.

Module KeyboardEventType.
Inductive t : Type := key_press | key_release | key_repeat | input.
End KeyboardEventType.

Module KeyboardEvent.
Record t : Type := make { type : KeyboardEventType.t; key : KeyCode.t }.

Definition is_key_press (ev : t) : bool :=
  match type ev with KeyboardEventType.key_press => true | _ => false end.

Definition is_key_release (ev : t) : bool :=
  match type ev with KeyboardEventType.key_release => true | _ => false end.
End KeyboardEvent.

Module MouseButton.
Inductive t : Type := left | middle | right | unknown.
End MouseButton.

Module MouseEventType.
Inductive t : Type := button_down | button_up | move | scroll.
End MouseEventType.

Module MouseEvent.
Record t (F : Type) : Type :=
  make { type : MouseEventType.t; pos : float2.t F; button : MouseButton.t }.

Definition is_left {F} (ev : t F) : bool :=
  match button ev with MouseButton.left => true | _ => false end.

Definition is_button_down {F} (ev : t F) : bool :=
  match type ev with MouseEventType.button_down => true | _ => false end.

Definition is_button_up {F} (ev : t F) : bool :=
  match type ev with MouseEventType.button_up => true | _ => false end.

Definition is_move {F} (ev : t F) : bool :=
  match type ev with MouseEventType.move => true | _ => false end.
End MouseEvent.

(** The events the window hands to the three callbacks of the example.  A
    close request of the window system itself reaches no callback and is
    not among them: [should_close] below is the flag as the example sets
    it. *)
Inductive WindowEvent (F : Type) : Type :=
| keyboard_event (ev : KeyboardEvent.t)
| mouse_event (ev : MouseEvent.t F)
| resize_event (width : Z) (height : Z).
Arguments keyboard_event {F} ev.
Arguments resize_event {F} width height.

(** ** class CameraController

    The controller's methods act on the controller and on the camera it
    holds, so their state is the pair of both. *)

Module CameraController.
Record t (F : Type) : Type := make {
  mouse_down : bool;
  mouse_pos : float2.t F;
  key_state : list (KeyCode.t * bool);
  shift_down : bool;
  move_delta : float3.t F;
  rotate_delta : float2.t F;
  move_speed : F;
  rotate_speed : F }.

(** The class attribute [MOVE_KEYS], in insertion order. *)
Definition MOVE_KEYS : list (KeyCode.t * (Z * Z * Z)) :=
  [ (KeyCode.a, (-1, 0, 0)); (KeyCode.d, (1, 0, 0));
    (KeyCode.e, (0, 1, 0)); (KeyCode.q, (0, -1, 0));
    (KeyCode.w, (0, 0, 1)); (KeyCode.s, (0, 0, -1)) ].

Definition MOVE_SHIFT_FACTOR : Q := 10.

Fixpoint lookup {A} (k : KeyCode.t) (kvs : list (KeyCode.t * A)) : option A :=
  match kvs with
  | [] => None
  | (k', v) :: kvs' => if KeyCode.eqb k k' then Some v else lookup k kvs'
  end.

Fixpoint assign {A} (k : KeyCode.t) (v : A) (kvs : list (KeyCode.t * A))
  : list (KeyCode.t * A) :=
  match kvs with
  | [] => [(k, v)]
  | (k', v') :: kvs' =>
      if KeyCode.eqb k k' then (k', v) :: kvs' else (k', v') :: assign k v kvs'
  end.

Definition init {F} `{Spy F} : t F :=
  make false float2_zero (map (fun kv => (fst kv, false)) MOVE_KEYS) false
       (float3_of_Z 0 0 0) float2_zero (f_of_Q 1) (f_of_Q (2 # 1000)).

Definition set_rotate_delta {F} (self : t F) (v : float2.t F) : t F :=
  make (mouse_down self) (mouse_pos self) (key_state self) (shift_down self)
       (move_delta self) v (move_speed self) (rotate_speed self).

(** The position after the "Move" block of [update]. *)
Definition moved_position {F} `{Spy F} (camera : Camera.t F) (self : t F)
  (dt : F) : float3.t F :=
  let offset := vscale (Camera.right camera) (float3.x (move_delta self)) in
  let offset := vadd offset (vscale (Camera.up camera) (float3.y (move_delta self))) in
  let offset := vadd offset (vscale (Camera.fwd camera) (float3.z (move_delta self))) in
  let factor := if shift_down self then f_of_Q MOVE_SHIFT_FACTOR else f_of_Q 1 in
  let offset := vscale offset (fmul (fmul (move_speed self) factor) dt) in
  vadd (Camera.position camera) offset.

(** The forward vector after the "Rotate" block of [update]. *)
Definition rotated_fwd {F} `{Spy F} (camera : Camera.t F) (self : t F)
  : float3.t F :=
  let fwd := Camera.fwd camera in
  let yaw := math_atan2 (float3.z fwd) (float3.x fwd) in
  let pitch := math_asin (float3.y fwd) in
  let yaw := fadd yaw (fmul (rotate_speed self) (float2.x (rotate_delta self))) in
  let pitch := fsub pitch (fmul (rotate_speed self) (float2.y (rotate_delta self))) in
  float3.make (fmul (math_cos yaw) (math_cos pitch))
              (math_sin pitch)
              (fmul (math_sin yaw) (math_cos pitch)).

Definition moving {F} `{Spy F} (self : t F) : bool :=
  fgt (math_length3 (move_delta self)) (f_of_Z 0).

Definition rotating {F} `{Spy F} (self : t F) : bool :=
  fgt (math_length2 (rotate_delta self)) (f_of_Z 0).

Definition update {F} `{Spy F} (dt : F) : M (Camera.t F * t F) bool :=
  st <- get ;;
  let '(camera, self) := st in
  let changed := false in
  let position := Camera.position camera in
  let fwd := Camera.fwd camera in
  (* Move *)
  let '(position, changed) :=
    if moving self then (moved_position camera self dt, true)
    else (position, changed) in
  (* Rotate *)
  let '(fwd, changed) :=
    if rotating self then (rotated_fwd camera self, true) else (fwd, changed) in
  (if rotating self
   then modify (fun st => (fst st, set_rotate_delta (snd st) float2_zero))
   else ret tt) ;;;
  (if changed
   then
     modify (fun st =>
               (Camera.set_pose (fst st) position (vadd position fwd)
                                (float3_of_Z 0 1 0), snd st)) ;;;
     st <- get ;;
     camera' <- lift_result (Camera.recompute (fst st)) ;;
     modify (fun st => (camera', snd st))
   else ret tt) ;;;
  ret changed.

Definition sum_move_keys {F} `{Spy F} (key_state : list (KeyCode.t * bool))
  : float3.t F :=
  fold_left
    (fun (move_delta : float3.t F) (ks : KeyCode.t * bool) =>
       if snd ks
       then match lookup (fst ks) MOVE_KEYS with
            | Some (x, y, z) => vadd move_delta (float3_of_Z x y z)
            | None => move_delta
            end
       else move_delta)
    key_state (float3_of_Z 0 0 0).

Definition on_keyboard_event {F} `{Spy F} (self : t F) (event : KeyboardEvent.t)
  : t F :=
  let down := KeyboardEvent.is_key_press event in
  let pressed_or_released :=
    KeyboardEvent.is_key_press event || KeyboardEvent.is_key_release event in
  let in_move_keys :=
    match lookup (KeyboardEvent.key event) MOVE_KEYS with
    | Some _ => true
    | None => false
    end in
  let key_state' :=
    if pressed_or_released && in_move_keys
    then assign (KeyboardEvent.key event) down (key_state self)
    else key_state self in
  let shift_down' :=
    if pressed_or_released && negb in_move_keys
       && KeyCode.eqb (KeyboardEvent.key event) KeyCode.left_shift
    then down else shift_down self in
  make (mouse_down self) (mouse_pos self) key_state' shift_down'
       (sum_move_keys key_state') (rotate_delta self)
       (move_speed self) (rotate_speed self).

Definition on_mouse_event {F} `{Spy F} (self : t F) (event : MouseEvent.t F)
  : t F :=
  let rotate_delta' := float2_zero in
  let mouse_down' :=
    if MouseEvent.is_button_down event && MouseEvent.is_left event
    then true else mouse_down self in
  let mouse_down' :=
    if MouseEvent.is_button_up event && MouseEvent.is_left event
    then false else mouse_down' in
  if MouseEvent.is_move event
  then
    let mouse_delta := float2_sub (MouseEvent.pos event) (mouse_pos self) in
    make mouse_down' (MouseEvent.pos event) (key_state self) (shift_down self)
         (move_delta self)
         (if mouse_down' then mouse_delta else rotate_delta')
         (move_speed self) (rotate_speed self)
  else
    make mouse_down' (mouse_pos self) (key_state self) (shift_down self)
         (move_delta self) rotate_delta' (move_speed self) (rotate_speed self).
End CameraController.

(** ** The application state

    Everything reachable from the [App] instance.  [camera] is the single
    [Camera] object shared by [stage.camera], [scene.camera] and
    [camera_controller.camera]; [accumulator] is the texture held by the
    [Accumulator] pass. *)

Module World.
Record t (F : Type) : Type := make {
  device : Device.t F;
  should_close : bool;
  surface_config : option (Z * Z);
  camera : Camera.t F;
  camera_controller : CameraController.t F;
  scene : Scene.t F;
  accumulator : option Texture.t;
  render_texture : option Texture.t;
  accum_texture : option Texture.t;
  output_texture : option Texture.t }.

Definition set_device {F} (w : t F) (v : Device.t F) : t F :=
  make v (should_close w) (surface_config w) (camera w) (camera_controller w)
       (scene w) (accumulator w) (render_texture w) (accum_texture w)
       (output_texture w).

Definition set_should_close {F} (w : t F) (v : bool) : t F :=
  make (device w) v (surface_config w) (camera w) (camera_controller w)
       (scene w) (accumulator w) (render_texture w) (accum_texture w)
       (output_texture w).

Definition set_surface_config {F} (w : t F) (v : option (Z * Z)) : t F :=
  make (device w) (should_close w) v (camera w) (camera_controller w)
       (scene w) (accumulator w) (render_texture w) (accum_texture w)
       (output_texture w).

Definition set_camera {F} (w : t F) (v : Camera.t F) : t F :=
  make (device w) (should_close w) (surface_config w) v (camera_controller w)
       (scene w) (accumulator w) (render_texture w) (accum_texture w)
       (output_texture w).

Definition set_camera_controller {F} (w : t F) (v : CameraController.t F) : t F :=
  make (device w) (should_close w) (surface_config w) (camera w) v
       (scene w) (accumulator w) (render_texture w) (accum_texture w)
       (output_texture w).

Definition set_accumulator {F} (w : t F) (v : option Texture.t) : t F :=
  make (device w) (should_close w) (surface_config w) (camera w)
       (camera_controller w) (scene w) v (render_texture w) (accum_texture w)
       (output_texture w).

Definition set_render_texture {F} (w : t F) (v : option Texture.t) : t F :=
  make (device w) (should_close w) (surface_config w) (camera w)
       (camera_controller w) (scene w) (accumulator w) v (accum_texture w)
       (output_texture w).

Definition set_accum_texture {F} (w : t F) (v : option Texture.t) : t F :=
  make (device w) (should_close w) (surface_config w) (camera w)
       (camera_controller w) (scene w) (accumulator w) (render_texture w) v
       (output_texture w).

Definition set_output_texture {F} (w : t F) (v : option Texture.t) : t F :=
  make (device w) (should_close w) (surface_config w) (camera w)
       (camera_controller w) (scene w) (accumulator w) (render_texture w)
       (accum_texture w) v.

(** Run a device call on the application's device. *)
Definition on_device {F A} (m : M (Device.t F) A) : M (t F) A :=
  fun w => let '(r, dev) := m (device w) in (r, set_device w dev).

(** Run a controller method on the controller and the shared camera. *)
Definition on_controller {F A}
  (m : M (Camera.t F * CameraController.t F) A) : M (t F) A :=
  fun w =>
    let '(r, st) := m (camera w, camera_controller w) in
    (r, set_camera_controller (set_camera w (fst st)) (snd st)).

(** Dereference an attribute that may still be [None]. *)
Definition the {F A} (field : t F -> option A) : M (t F) A :=
  w <- get ;;
  match field w with
  | Some v => ret v
  | None => raise AttributeError
  end.
End World.

(** ** The three passes *)

Module PathTracer.
Definition execute {F} `{Spy F} (command_encoder : list (Command F))
  (output : Texture.t) (frame : Z) : M (World.t F) (list (Command F)) :=
  let w := Texture.width output in
  let h := Texture.height output in
  modify (fun s => World.set_camera s (Camera.set_size (World.camera s) w h)) ;;;
  s <- get ;;
  camera' <- lift_result (Camera.recompute (World.camera s)) ;;
  modify (fun s => World.set_camera s camera') ;;;
  s <- get ;;
  let g_scene := Scene.bind (World.scene s) (World.camera s) in
  if USE_RAYTRACING_PIPELINE
  then ret (command_encoder ++ [dispatch_rays output frame g_scene (w, h, 1)])
  else ret (command_encoder ++
              [dispatch_path_tracer output frame g_scene (w, h, 1)]).
End PathTracer.

Module Accumulator.
Definition needs_texture (accumulator : option Texture.t) (input : Texture.t)
  : bool :=
  match accumulator with
  | None => true
  | Some a =>
      negb (Texture.width a =? Texture.width input)
      || negb (Texture.height a =? Texture.height input)
  end.

Definition execute {F} (command_encoder : list (Command F))
  (input output : Texture.t) (reset : bool)
  : M (World.t F) (list (Command F)) :=
  s <- get ;;
  (if needs_texture (World.accumulator s) input
   then
     t <- World.on_device
            (Device.create_texture "accumulator" (Texture.width input)
                                   (Texture.height input)) ;;
     modify (fun s => World.set_accumulator s (Some t))
   else ret tt) ;;;
  accumulator <- World.the (@World.accumulator F) ;;
  ret (command_encoder ++
         [dispatch_accumulator (Texture.width input, Texture.height input, 1)
                               input output accumulator reset]).
End Accumulator.

Module ToneMapper.
Definition execute {F} (command_encoder : list (Command F))
  (input output : Texture.t) : M (World.t F) (list (Command F)) :=
  ret (command_encoder ++
         [dispatch_tone_mapper (Texture.width input, Texture.height input, 1)
                               input output]).
End ToneMapper.

(** ** class App *)

(** What one turn of the main loop receives from outside: the elapsed time,
    the window events delivered by [process_events], and the image that
    [acquire_next_image] returns if it is called ([None] when it returns
    nothing). *)
Module FrameInput.
Record t (F : Type) : Type := make {
  dt : F;
  events : list (WindowEvent F);
  next_image : option (Z * Z) }.
End FrameInput.

Module App.

Definition on_keyboard_event {F} `{Spy F} (event : KeyboardEvent.t)
  : M (World.t F) unit :=
  (if KeyboardEvent.is_key_press event
   then
     match KeyboardEvent.key event with
     | KeyCode.escape =>
         World.on_device (Device.emit window_close) ;;;
         modify (fun s => World.set_should_close s true)
     | KeyCode.f1 =>
         s <- get ;;
         match World.output_texture s with
         | Some t => World.on_device (Device.emit (tev_show_async t))
         | None => ret tt
         end
     | KeyCode.f2 =>
         s <- get ;;
         match World.output_texture s with
         | Some t => World.on_device (Device.emit (write_screenshot t))
         | None => ret tt
         end
     | _ => ret tt
     end
   else ret tt) ;;;
  modify (fun s =>
            World.set_camera_controller s
              (CameraController.on_keyboard_event
                 (World.camera_controller s) event)).

Definition on_mouse_event {F} `{Spy F} (event : MouseEvent.t F)
  : M (World.t F) unit :=
  modify (fun s =>
            World.set_camera_controller s
              (CameraController.on_mouse_event (World.camera_controller s) event)).

Definition on_resize {F} (width height : Z) : M (World.t F) unit :=
  World.on_device Device.wait ;;;
  if (0 <? width) && (0 <? height)
  then
    World.on_device (Device.emit (surface_configure width height)) ;;;
    modify (fun s => World.set_surface_config s (Some (width, height)))
  else
    World.on_device (Device.emit surface_unconfigure) ;;;
    modify (fun s => World.set_surface_config s None).

(** [self.window.process_events()]: the callbacks, in delivery order. *)
Definition process_events {F} `{Spy F} (events : list (WindowEvent F))
  : M (World.t F) unit :=
  for_each events
    (fun _ ev =>
       match ev with
       | keyboard_event e => on_keyboard_event e
       | mouse_event e => on_mouse_event e
       | resize_event w h => on_resize w h
       end) tt.

Definition textures_stale (output_texture : option Texture.t)
  (surface_texture : Texture.t) : bool :=
  match output_texture with
  | None => true
  | Some t =>
      negb (Texture.width t =? Texture.width surface_texture)
      || negb (Texture.height t =? Texture.height surface_texture)
  end.

(** The three [create_texture] calls of the reallocation block. *)
Definition reallocate_textures {F} (surface_texture : Texture.t)
  : M (World.t F) unit :=
  let w := Texture.width surface_texture in
  let h := Texture.height surface_texture in
  t <- World.on_device (Device.create_texture "output_texture" w h) ;;
  modify (fun s => World.set_output_texture s (Some t)) ;;;
  t <- World.on_device (Device.create_texture "render_texture" w h) ;;
  modify (fun s => World.set_render_texture s (Some t)) ;;;
  t <- World.on_device (Device.create_texture "accum_texture" w h) ;;
  modify (fun s => World.set_accum_texture s (Some t)).

(** The part of the loop body after a surface image has been acquired. *)
Definition render_frame {F} `{Spy F} (surface_texture : Texture.t) (frame : Z)
  : M (World.t F) unit :=
  s <- get ;;
  (if textures_stale (World.output_texture s) surface_texture
   then reallocate_textures surface_texture
   else ret tt) ;;;
  let command_encoder := [] in
  render_texture <- World.the (@World.render_texture F) ;;
  command_encoder <- PathTracer.execute command_encoder render_texture frame ;;
  render_texture <- World.the (@World.render_texture F) ;;
  accum_texture <- World.the (@World.accum_texture F) ;;
  command_encoder <-
    Accumulator.execute command_encoder render_texture accum_texture
                        (frame =? 0) ;;
  accum_texture <- World.the (@World.accum_texture F) ;;
  output_texture <- World.the (@World.output_texture F) ;;
  command_encoder <-
    ToneMapper.execute command_encoder accum_texture output_texture ;;
  output_texture <- World.the (@World.output_texture F) ;;
  let command_encoder := command_encoder ++ [blit surface_texture output_texture] in
  World.on_device (Device.submit_command_buffer command_encoder) ;;;
  World.on_device (Device.emit surface_present).

(** The head of the loop body: [process_events()] followed by
    [self.camera_controller.update(dt)], whose result it returns. *)
Definition camera_step {F} `{Spy F} (input : FrameInput.t F)
  : M (World.t F) bool :=
  process_events (FrameInput.events input) ;;;
  World.on_controller (CameraController.update (FrameInput.dt input)).

(** One turn of [while not self.window.should_close()]; the result is the
    value of the local variable [frame] at the end of the turn. *)
Definition main_loop_body {F} `{Spy F} (input : FrameInput.t F) (frame : Z)
  : M (World.t F) Z :=
  changed <- camera_step input ;;
  let frame := if changed then 0 else frame in
  s <- get ;;
  match World.surface_config s with
  | None => ret frame                                    (* continue *)
  | Some _ =>
      match FrameInput.next_image input with
      | None => ret frame                                (* continue *)
      | Some (width, height) =>
          let surface_texture := Texture.make "surface" width height in
          render_frame surface_texture frame ;;;
          ret (frame + 1)
      end
  end.

(** The loop, over the inputs of as many turns as are observed. *)
Fixpoint main_loop_from {F} `{Spy F} (inputs : list (FrameInput.t F))
  (frame : Z) : M (World.t F) Z :=
  match inputs with
  | [] => ret frame
  | input :: inputs' =>
      s <- get ;;
      if World.should_close s
      then World.on_device Device.wait ;;; ret frame
      else
        frame' <- main_loop_body input frame ;;
        main_loop_from inputs' frame'
  end.

Definition main_loop {F} `{Spy F} (inputs : list (FrameInput.t F))
  : M (World.t F) Z :=
  main_loop_from inputs 0.

(** [App.__init__], given the stage and the stage's camera (the demo stage
    is random): the surface is configured to the window size, the textures
    start as [None], and the scene is built on the device. *)
Definition init {F} `{Spy F} (camera : Camera.t F) (stage : Stage.t F)
  : M (Device.t F) (World.t F) :=
  Device.emit (surface_configure 1920 1080) ;;;
  scene <- Scene.init stage ;;
  dev <- get ;;
  ret (World.make dev false (Some (1920, 1080)) camera CameraController.init
                  scene None None None None).
End App.

(** ** Observations on the device log *)

(** The command buffers submitted, in order. *)
Fixpoint submitted {F} (log : list (Event F)) : list (list (Command F)) :=
  match log with
  | [] => []
  | submit_command_buffer commands :: log' => commands :: submitted log'
  | _ :: log' => submitted log'
  end.

Definition is_build {F} (c : Command F) : bool :=
  match c with
  | build_acceleration_structure _ _ _ => true
  | _ => false
  end.

Definition is_instances_input {F} (i : AccelerationStructureBuildInput F) : bool :=
  match i with
  | input_instances _ => true
  | input_triangles _ => false
  end.

(** A build command whose input is an instance list: a top-level build. *)
Definition is_tlas_build {F} (c : Command F) : bool :=
  match c with
  | build_acceleration_structure desc _ _ =>
      existsb is_instances_input (AccelerationStructureBuildDesc.inputs desc)
  | _ => false
  end.

(** All acceleration-structure build commands submitted, in order. *)
Definition builds {F} (log : list (Event F)) : list (Command F) :=
  filter is_build (concat (submitted log)).

Definition tlas_builds {F} (log : list (Event F)) : list (Command F) :=
  filter is_tlas_build (concat (submitted log)).

(** The [reset] flags of the Accumulate dispatches submitted, in order. *)
Definition resets_of {F} (commands : list (Command F)) : list bool :=
  flat_map (fun c => match c with
                     | dispatch_accumulator _ _ _ _ reset => [reset]
                     | _ => []
                     end) commands.

Definition accumulate_resets {F} (log : list (Event F)) : list bool :=
  resets_of (concat (submitted log)).

Definition is_wait {F} (e : Event F) : bool :=
  match e with wait => true | _ => false end.

Definition is_create_texture {F} (e : Event F) : bool :=
  match e with create_texture _ => true | _ => false end.

(** The events a computation appends to the device log of a state. *)
Definition emitted {F A} (m : M (Device.t F) A) (dev : Device.t F)
  : list (Event F) :=
  skipn (length (Device.log dev)) (Device.log (snd (m dev))).

Definition emitted_in {F A} (m : M (World.t F) A) (w : World.t F)
  : list (Event F) :=
  skipn (length (Device.log (World.device w)))
        (Device.log (World.device (snd (m w)))).

(** The host-side scan that a blocking-wait discipline would pass: once a
    build has been submitted, nothing that depends on a finished build (the
    writing of an instance record, the top-level build) may follow before a
    [wait].  [pending] tells whether a build was submitted since the last
    [wait]. *)
Fixpoint builds_awaited_from {F} (pending : bool) (log : list (Event F)) : bool :=
  match log with
  | [] => true
  | wait :: log' => builds_awaited_from false log'
  | submit_command_buffer commands :: log' =>
      if existsb is_tlas_build commands
      then negb pending && builds_awaited_from true log'
      else if existsb is_build commands
           then builds_awaited_from true log'
           else builds_awaited_from pending log'
  | instance_list_write _ _ :: log' =>
      negb pending && builds_awaited_from pending log'
  | _ :: log' => builds_awaited_from pending log'
  end.

Definition builds_awaited {F} (log : list (Event F)) : bool :=
  builds_awaited_from false log.

Definition is_ok {A} (r : result A) : bool :=
  match r with Ok _ => true | Raise _ => false end.

Definition sum_Z (xs : list Z) : Z := fold_right Z.add 0 xs.

(** Number of vertex records, and of scalar indices, held by a buffer. *)
Definition vertex_buffer_length {F} (b : Buffer.t F) : Z :=
  match Buffer.data b with
  | data_vertices rows => Z.of_nat (length rows)
  | _ => 0
  end.

Definition index_buffer_length {F} (b : Buffer.t F) : Z :=
  match Buffer.data b with
  | data_indices rows => Z.of_nat (length rows) * 3
  | _ => 0
  end.

(** The end-to-end scenario, assembled through the [Stage] interface the
    way [Stage.demo] assembles its stage: one material, a quad, a cube, and
    one instance of each mesh at a fresh (identity) transform. *)
Definition quad_cube_demo {F} `{Spy F} (quad_size : float2.t F)
  (cube_size : float3.t F) (base_color : float3.t F) : Stage.t F :=
  let stage := Stage.init in
  let '(material, stage) := Stage.add_material stage (Material.make base_color) in
  let '(quad, stage) := Stage.add_mesh stage (Mesh.create_quad quad_size) in
  let '(cube, stage) := Stage.add_mesh stage (Mesh.create_cube cube_size) in
  let '(transform, stage) := Stage.add_transform stage Transform.init in
  let '(_, stage) := Stage.add_instance stage quad material transform in
  let '(_, stage) := Stage.add_instance stage cube material transform in
  stage.

(** ** An exact-arithmetic instance for evaluating examples

    Rationals stand in for float32: arithmetic and comparisons are exact,
    the vector length is the 1-norm (positive exactly when the vector is
    non-zero), and the transcendental and matrix functions are placeholders.
    The examples evaluated with it read only counts, identifiers, texture
    sizes and flags, none of which depends on these values. *)

Module QSpy.
Definition translation (v : float3.t Q) : float4x4.t Q :=
  (float4x4.make (float4.make 1 0 0 (float3.x v)) (float4.make 0 1 0 (float3.y v))
                 (float4.make 0 0 1 (float3.z v)) (float4.make 0 0 0 1))%Q.

Definition scaling (v : float3.t Q) : float4x4.t Q :=
  (float4x4.make (float4.make (float3.x v) 0 0 0) (float4.make 0 (float3.y v) 0 0)
                 (float4.make 0 0 (float3.z v) 0) (float4.make 0 0 0 1))%Q.

Definition cross (a b : float3.t Q) : float3.t Q :=
  float3.make
    (float3.y a * float3.z b - float3.z a * float3.y b)%Q
    (float3.z a * float3.x b - float3.x a * float3.z b)%Q
    (float3.x a * float3.y b - float3.y a * float3.x b)%Q.

#[global] Instance spy : Spy Q := {|
  f_of_Z := inject_Z;
  f_of_Q := fun q => q;
  fadd := Qplus;
  fsub := Qminus;
  fmul := Qmult;
  fdiv := Qdiv;
  fgt := fun a b => negb (Qle_bool a b);
  math_normalize := fun v => v;
  math_cross := cross;
  math_length3 :=
    fun v => (Qabs (float3.x v) + Qabs (float3.y v) + Qabs (float3.z v))%Q;
  math_length2 := fun v => (Qabs (float2.x v) + Qabs (float2.y v))%Q;
  math_tan := fun a => a;
  math_radians := fun a => a;
  math_atan2 := fun a _ => a;
  math_asin := fun a => a;
  math_cos := fun a => a;
  math_sin := fun a => a;
  math_matrix_from_translation := translation;
  math_matrix_from_scaling := scaling;
  math_matrix_from_rotation_xyz := fun _ => translation (float3.make 0 0 0)%Q;
  math_mul := fun a _ => a;
  math_inverse := fun a => a;
  math_transpose := fun a => a;
  pack_f := fun _ => [x00; x00; x00; x00];
  get_acceleration_structure_sizes :=
    fun _ => AccelerationStructureSizes.make 256 128
|}.

Definition device0 : Device.t Q := Device.make [] 0.

Definition quad_cube_stage : Stage.t Q :=
  quad_cube_demo (float2.make 1 1)%Q (float3.make 1 1 1)%Q
                 (float3.make (1 # 2) (1 # 2) (1 # 2))%Q.

(** The same stage with material id 7 on its second instance, where there
    is one material. *)
Definition bad_material_stage : Stage.t Q :=
  Stage.make (Stage.materials quad_cube_stage) (Stage.meshes quad_cube_stage)
             (Stage.transforms quad_cube_stage) [(0, 0, 0); (1, 7, 0)].

(** The same stage with mesh id 5 on its second instance, where there are
    two meshes. *)
Definition bad_mesh_stage : Stage.t Q :=
  Stage.make (Stage.materials quad_cube_stage) (Stage.meshes quad_cube_stage)
             (Stage.transforms quad_cube_stage) [(0, 0, 0); (5, 0, 0)].
(** The application state after [App.__init__] on the quad-and-cube stage
    with the default camera (evaluated; the alternative of the match is
    never taken, see [world0_is_initial]). *)
Definition empty_buffer : Buffer.t Q :=
  Buffer.make BufferUsage.shader_resource "" (data_bytes []).

Definition world0 : World.t Q :=
  Eval vm_compute in
    match fst (App.init Camera.init quad_cube_stage device0) with
    | Ok w => w
    | Raise _ =>
        World.make device0 false None Camera.init CameraController.init
          (Scene.make [] empty_buffer [] [] empty_buffer empty_buffer
             empty_buffer empty_buffer [] [] empty_buffer empty_buffer []
             (AccelerationStructure.make "" 0 0))
          None None None None
    end.

(** A first turn at the initial surface size, without any window event. *)
Definition input_first : FrameInput.t Q :=
  FrameInput.make (1 # 60)%Q [] (Some (1920, 1080)).

(** A turn in which the window is resized and nothing else happens. *)
Definition input_resized : FrameInput.t Q :=
  FrameInput.make (1 # 60)%Q [resize_event 1280 720] (Some (1280, 720)).

(** A turn in which the key [w] is pressed. *)
Definition input_move : FrameInput.t Q :=
  FrameInput.make (1 # 60)%Q
    [keyboard_event
       (KeyboardEvent.make KeyboardEventType.key_press KeyCode.w)]
    (Some (1920, 1080)).

(** A turn with a key press while the window is minimised. *)
Definition input_move_minimised : FrameInput.t Q :=
  FrameInput.make (1 # 60)%Q
    [resize_event 0 0;
     keyboard_event
       (KeyboardEvent.make KeyboardEventType.key_press KeyCode.w)]
    None.

(** The state after the first turn. *)
Definition world1 : World.t Q :=
  Eval vm_compute in snd (App.main_loop_body input_first 0 world0).
End QSpy.

(** ** Exact matrix products, for examples that read a transform

    The same stand-in with the product of 4x4 matrices computed exactly.
    The rotation matrix is still the identity, which is exact for the zero
    rotation, the only one used with it. *)

Module QExact.
Definition dot4 (a b : float4.t Q) : Q :=
  (float4.x a * float4.x b + float4.y a * float4.y b
   + float4.z a * float4.z b + float4.w a * float4.w b)%Q.

Definition column (m : float4x4.t Q) (pick : float4.t Q -> Q) : float4.t Q :=
  float4.make (pick (float4x4.r0 m)) (pick (float4x4.r1 m))
              (pick (float4x4.r2 m)) (pick (float4x4.r3 m)).

Definition mul_row (r : float4.t Q) (m : float4x4.t Q) : float4.t Q :=
  float4.make (dot4 r (column m (@float4.x Q))) (dot4 r (column m (@float4.y Q)))
              (dot4 r (column m (@float4.z Q))) (dot4 r (column m (@float4.w Q))).

Definition mul (a b : float4x4.t Q) : float4x4.t Q :=
  float4x4.make (mul_row (float4x4.r0 a) b) (mul_row (float4x4.r1 a) b)
                (mul_row (float4x4.r2 a) b) (mul_row (float4x4.r3 a) b).

Definition spy : Spy Q := {|
  f_of_Z := @f_of_Z Q QSpy.spy;
  f_of_Q := @f_of_Q Q QSpy.spy;
  fadd := @fadd Q QSpy.spy;
  fsub := @fsub Q QSpy.spy;
  fmul := @fmul Q QSpy.spy;
  fdiv := @fdiv Q QSpy.spy;
  fgt := @fgt Q QSpy.spy;
  math_normalize := @math_normalize Q QSpy.spy;
  math_cross := @math_cross Q QSpy.spy;
  math_length3 := @math_length3 Q QSpy.spy;
  math_length2 := @math_length2 Q QSpy.spy;
  math_tan := @math_tan Q QSpy.spy;
  math_radians := @math_radians Q QSpy.spy;
  math_atan2 := @math_atan2 Q QSpy.spy;
  math_asin := @math_asin Q QSpy.spy;
  math_cos := @math_cos Q QSpy.spy;
  math_sin := @math_sin Q QSpy.spy;
  math_matrix_from_translation := QSpy.translation;
  math_matrix_from_scaling := QSpy.scaling;
  math_matrix_from_rotation_xyz := @math_matrix_from_rotation_xyz Q QSpy.spy;
  math_mul := mul;
  math_inverse := @math_inverse Q QSpy.spy;
  math_transpose := @math_transpose Q QSpy.spy;
  pack_f := @pack_f Q QSpy.spy;
  get_acceleration_structure_sizes :=
    @get_acceleration_structure_sizes Q QSpy.spy
|}.

Definition dot3 (a b : float4.t Q) : Q :=
  (float4.x a * float4.x b + float4.y a * float4.y b
   + float4.z a * float4.z b)%Q.

(** A 3x4 matrix that rotates and translates and does nothing else: the
    rows of its linear part are orthonormal. *)
Definition rotation_translation_only (m : float3x4.t Q) : bool :=
  Qeq_bool (dot3 (float3x4.r0 m) (float3x4.r0 m)) 1
  && Qeq_bool (dot3 (float3x4.r1 m) (float3x4.r1 m)) 1
  && Qeq_bool (dot3 (float3x4.r2 m) (float3x4.r2 m)) 1
  && Qeq_bool (dot3 (float3x4.r0 m) (float3x4.r1 m)) 0
  && Qeq_bool (dot3 (float3x4.r0 m) (float3x4.r2 m)) 0
  && Qeq_bool (dot3 (float3x4.r1 m) (float3x4.r2 m)) 0.

(** A transform set up the way [Stage.demo] sets up the transform of a
    cube: the attributes are assigned, then [update_matrix] is called.
    Here: one unit up, no rotation, scaled by 2, 4 and 8. *)
Definition scaled_transform : Transform.t Q :=
  let transform := @Transform.init Q spy in
  let transform :=
    Transform.make (float3.make 0 1 0)%Q (float3.make 2 4 8)%Q
                   (Transform.rotation transform) (Transform.matrix transform) in
  @Transform.update_matrix Q spy transform.

(** One cube at that transform. *)
Definition scaled_stage : Stage.t Q :=
  let stage := Stage.init in
  let '(material, stage) :=
    Stage.add_material stage
      (Material.make (float3.make (1 # 2) (1 # 2) (1 # 2))%Q) in
  let '(cube, stage) :=
    Stage.add_mesh stage
      (@Mesh.create_cube Q spy (float3.make (1 # 10) (1 # 10) (1 # 10))%Q) in
  let '(transform, stage) := Stage.add_transform stage scaled_transform in
  let '(_, stage) := Stage.add_instance stage cube material transform in
  stage.
End QExact.

(** ** What the build loops emit, in closed form *)

Definition blas_build_desc {F} (vertex_buffer index_buffer : Buffer.t F)
  (mesh_desc : Scene.MeshDesc.t) : AccelerationStructureBuildDesc.t F :=
  AccelerationStructureBuildDesc.make
    [input_triangles (Scene.blas_build_input vertex_buffer index_buffer mesh_desc)].

Definition blas_scratch {F} `{Spy F} (vertex_buffer index_buffer : Buffer.t F)
  (mesh_desc : Scene.MeshDesc.t) : Buffer.t F :=
  Buffer.make BufferUsage.unordered_access "blas_scratch_buffer"
    (data_uninitialized
       (AccelerationStructureSizes.scratch_size
          (get_acceleration_structure_sizes
             (blas_build_desc vertex_buffer index_buffer mesh_desc)))).

(** The structure [build_blas] returns when the next free handle is [h]. *)
Definition blas_of {F} `{Spy F} (vertex_buffer index_buffer : Buffer.t F)
  (mesh_desc : Scene.MeshDesc.t) (h : Z) : AccelerationStructure.t :=
  AccelerationStructure.make "blas"
    (AccelerationStructureSizes.acceleration_structure_size
       (get_acceleration_structure_sizes
          (blas_build_desc vertex_buffer index_buffer mesh_desc)))
    h.

Definition blas_build_command {F} `{Spy F} (vertex_buffer index_buffer : Buffer.t F)
  (mesh_desc : Scene.MeshDesc.t) (h : Z) : Command F :=
  build_acceleration_structure
    (blas_build_desc vertex_buffer index_buffer mesh_desc)
    (blas_of vertex_buffer index_buffer mesh_desc h)
    (blas_scratch vertex_buffer index_buffer mesh_desc).

Definition blas_events {F} `{Spy F} (vertex_buffer index_buffer : Buffer.t F)
  (mesh_desc : Scene.MeshDesc.t) (h : Z) : list (Event F) :=
  [ create_buffer (blas_scratch vertex_buffer index_buffer mesh_desc);
    create_acceleration_structure (blas_of vertex_buffer index_buffer mesh_desc h);
    submit_command_buffer
      [blas_build_command vertex_buffer index_buffer mesh_desc h] ].

Fixpoint blases_from {F} `{Spy F} (vertex_buffer index_buffer : Buffer.t F)
  (h : Z) (mesh_descs : list Scene.MeshDesc.t) : list AccelerationStructure.t :=
  match mesh_descs with
  | [] => []
  | m :: ms =>
      blas_of vertex_buffer index_buffer m h
        :: blases_from vertex_buffer index_buffer (h + 1) ms
  end.

Fixpoint blases_events_from {F} `{Spy F} (vertex_buffer index_buffer : Buffer.t F)
  (h : Z) (mesh_descs : list Scene.MeshDesc.t) : list (Event F) :=
  match mesh_descs with
  | [] => []
  | m :: ms =>
      blas_events vertex_buffer index_buffer m h
        ++ blases_events_from vertex_buffer index_buffer (h + 1) ms
  end.

(** The records the loop of [build_tlas] writes before it stops, with their
    indices, and whether it reached the end of the instance list. *)
Fixpoint tlas_writes {F} (transforms : list (float4x4.t F))
  (blases : list AccelerationStructure.t) (instance_id : Z)
  (instance_descs : list Scene.InstanceDesc.t)
  : list (Z * AccelerationStructureInstanceDesc.t F) * bool :=
  match instance_descs with
  | [] => ([], true)
  | d :: ds =>
      match py_index transforms (Scene.InstanceDesc.transform_id d),
            py_index blases (Scene.InstanceDesc.mesh_id d) with
      | Ok t, Ok b =>
          let '(ws, complete) :=
            tlas_writes transforms blases (instance_id + 1) ds in
          ((instance_id, Scene.tlas_instance_desc t instance_id b) :: ws,
           complete)
      | _, _ => ([], false)
      end
  end.

Definition write_events {F}
  (ws : list (Z * AccelerationStructureInstanceDesc.t F)) : list (Event F) :=
  map (fun w => instance_list_write (fst w) (snd w)) ws.

Definition apply_writes {F}
  (ws : list (Z * AccelerationStructureInstanceDesc.t F))
  (l : AccelerationStructureInstanceList.t F)
  : AccelerationStructureInstanceList.t F :=
  fold_left (fun l w => AccelerationStructureInstanceList.write l (fst w) (snd w))
            ws l.

(** An id is usable as an index into a list of [n] entries. *)
Definition in_range (n : nat) (id : Z) : Prop := 0 <= id < Z.of_nat n.

(** An id can be packed as an unsigned 32-bit integer. *)
Definition fits_uint32 (id : Z) : Prop := 0 <= id < 2 ^ 32.

(** The three textures of the frame loop are all absent or all present with
    the size of the output texture. *)
Definition textures_ok {F} (w : World.t F) : Prop :=
  match World.output_texture w with
  | None => True
  | Some o =>
      World.render_texture w
        = Some (Texture.make "render_texture" (Texture.width o) (Texture.height o))
      /\ World.accum_texture w
        = Some (Texture.make "accum_texture" (Texture.width o) (Texture.height o))
  end.

Definition tlas_build_desc {F} (l : AccelerationStructureInstanceList.t F)
  : AccelerationStructureBuildDesc.t F :=
  AccelerationStructureBuildDesc.make [input_instances l].

Definition tlas_scratch {F} `{Spy F} (l : AccelerationStructureInstanceList.t F)
  : Buffer.t F :=
  Buffer.make BufferUsage.unordered_access "tlas_scratch_buffer"
    (data_uninitialized
       (AccelerationStructureSizes.scratch_size
          (get_acceleration_structure_sizes (tlas_build_desc l)))).

(** The structure [build_tlas] returns when the next free handle is [h]. *)
Definition tlas_of {F} `{Spy F} (l : AccelerationStructureInstanceList.t F)
  (h : Z) : AccelerationStructure.t :=
  AccelerationStructure.make "tlas"
    (AccelerationStructureSizes.acceleration_structure_size
       (get_acceleration_structure_sizes (tlas_build_desc l)))
    h.

Definition tlas_build_command {F} `{Spy F}
  (l : AccelerationStructureInstanceList.t F) (h : Z) : Command F :=
  build_acceleration_structure (tlas_build_desc l) (tlas_of l h) (tlas_scratch l).

(** What [build_tlas] emits after its loop has completed. *)
Definition tlas_tail_events {F} `{Spy F}
  (l : AccelerationStructureInstanceList.t F) (h : Z) : list (Event F) :=
  [ create_buffer (tlas_scratch l);
    create_acceleration_structure (tlas_of l h);
    submit_command_buffer [tlas_build_command l h] ].

Definition is_create_buffer {F} (e : Event F) : bool :=
  match e with create_buffer _ => true | _ => false end.

(** Bookkeeping for stepping through [Scene.init]. *)
Ltac step_device H :=
  cbn [Device.create_buffer Device.emit modify bind ret
       Device.log Device.next_handle] in H.

Ltac stop_with H :=
  cbn [map np_concatenate np_stack] in H;
  left; do 2 eexists; split;
  [ rewrite H; cbn [Device.log Device.next_handle];
    rewrite <- ?app_assoc; reflexivity
  | repeat constructor ].


(** The instance lists handed to the top-level builds submitted. *)
Definition tlas_instance_lists {F} (log : list (Event F))
  : list (AccelerationStructureInstanceList.t F) :=
  flat_map
    (fun c => match c with
              | build_acceleration_structure desc _ _ =>
                  flat_map (fun i => match i with
                                     | input_instances l => [l]
                                     | input_triangles _ => []
                                     end)
                           (AccelerationStructureBuildDesc.inputs desc)
              | _ => []
              end)
    (concat (submitted log)).

Definition is_instance_write {F} (e : Event F) : bool :=
  match e with instance_list_write _ _ => true | _ => false end.

(** The frame numbers handed to the trace dispatches submitted, in order. *)
Definition trace_frames {F} (log : list (Event F)) : list Z :=
  flat_map (fun c => match c with
                     | dispatch_rays _ g_frame _ _ => [g_frame]
                     | dispatch_path_tracer _ g_frame _ _ => [g_frame]
                     | _ => []
                     end) (concat (submitted log)).

(** The camera after [PathTracer.execute] on an output of the given size. *)
Definition traced_camera {F} `{Spy F} (camera : Camera.t F) (width height : Z)
  : Camera.t F :=
  Camera.recompute_fields (Camera.set_size camera width height).

(** The commands one rendered frame submits. *)
Definition frame_commands {F} `{Spy F} (s : World.t F)
  (surface_texture output accumulator : Texture.t) (frame : Z)
  : list (Command F) :=
  let w := Texture.width surface_texture in
  let h := Texture.height surface_texture in
  let render := Texture.make "render_texture" w h in
  let accum := Texture.make "accum_texture" w h in
  [ dispatch_rays render frame
      (Scene.bind (World.scene s) (traced_camera (World.camera s) w h))
      (w, h, 1);
    dispatch_accumulator (w, h, 1) render accum accumulator (frame =? 0);
    dispatch_tone_mapper (w, h, 1) accum output;
    blit surface_texture output ].

(** A step of the loop that leaves the frame resources alone: the textures,
    the accumulator and the scene are kept, and whatever it appends to the
    device log submits no command buffer. *)
Definition frame_resources_kept {F} (s s' : World.t F) : Prop :=
  World.output_texture s' = World.output_texture s
  /\ World.render_texture s' = World.render_texture s
  /\ World.accum_texture s' = World.accum_texture s
  /\ World.accumulator s' = World.accumulator s
  /\ World.scene s' = World.scene s
  /\ exists evs,
      Device.log (World.device s') = Device.log (World.device s) ++ evs
      /\ submitted evs = [].

(** Bookkeeping for stepping through the passes of a frame. *)
Ltac world_cbn :=
  cbn [bind get ret modify raise lift_result
       World.on_device World.on_controller World.the
       Device.create_texture Device.emit Device.submit_command_buffer
       Device.wait
       World.set_output_texture World.set_render_texture
       World.set_accum_texture World.set_device World.set_camera
       World.set_accumulator World.set_should_close World.set_surface_config
       World.set_camera_controller
       World.output_texture World.render_texture World.accum_texture
       World.accumulator World.device World.camera World.scene
       World.should_close World.surface_config World.camera_controller
       Device.log Device.next_handle Texture.width Texture.height
       Camera.set_size Camera.height Camera.width fst snd].

(** ** The outcome of scene construction, in closed form *)

Definition material_descs_of {F} (stage : Stage.t F)
  : list (Scene.MaterialDesc.t F) :=
  map (fun m => Scene.MaterialDesc.make (Material.base_color m))
      (Stage.materials stage).

(** The bytes of the packed material descriptors (packing floats cannot
    fail). *)
Definition material_bytes {F} `{Spy F} (stage : Stage.t F) : list byte :=
  concat (map (fun d => pack_f (float3.x (Scene.MaterialDesc.base_color d))
                        ++ pack_f (float3.y (Scene.MaterialDesc.base_color d))
                        ++ pack_f (float3.z (Scene.MaterialDesc.base_color d)))
              (material_descs_of stage)).

Definition bytes_buffer {F} (label : string) (bytes : list byte) : Buffer.t F :=
  Buffer.make BufferUsage.shader_resource label (data_bytes bytes).

Definition vertex_buffer_of {F} (stage : Stage.t F) : Buffer.t F :=
  Buffer.make BufferUsage.shader_resource "vertex_buffer"
    (data_vertices (concat (map (@Mesh.vertices F) (Stage.meshes stage)))).

Definition index_buffer_of {F} (stage : Stage.t F) : Buffer.t F :=
  Buffer.make BufferUsage.shader_resource "index_buffer"
    (data_indices (concat (map (@Mesh.indices F) (Stage.meshes stage)))).

Definition transforms_of {F} (stage : Stage.t F) : list (float4x4.t F) :=
  map (@Transform.matrix F) (Stage.transforms stage).

Definition inverse_transposes_of {F} `{Spy F} (stage : Stage.t F)
  : list (float4x4.t F) :=
  map (fun t => math_transpose (math_inverse t)) (transforms_of stage).

Definition transform_buffer_of {F} (stage : Stage.t F) : Buffer.t F :=
  Buffer.make BufferUsage.shader_resource "transform_buffer"
    (data_matrices (transforms_of stage)).

Definition inverse_transpose_buffer_of {F} `{Spy F} (stage : Stage.t F)
  : Buffer.t F :=
  Buffer.make BufferUsage.shader_resource "inverse_transpose_transforms_buffer"
    (data_matrices (inverse_transposes_of stage)).

Definition logged {F} (dev : Device.t F) (evs : list (Event F)) : Device.t F :=
  Device.make (Device.log dev ++ evs) (Device.next_handle dev).

(** The result of [Scene.init] and the device it leaves, by the first step
    that stops it. *)
Definition scene_init_outcome {F} `{Spy F} (stage : Stage.t F)
  (dev : Device.t F) : result (Scene.t F) * Device.t F :=
  let mds := snd (Scene.prepare_mesh_descs (Stage.meshes stage)) in
  let ids := Scene.prepare_instance_descs (Stage.instances stage) in
  let mat := bytes_buffer "material_descs_buffer" (material_bytes stage) in
  let vb := vertex_buffer_of stage in
  let ib := index_buffer_of stage in
  match Stage.meshes stage with
  | [] => (Raise ValueError, logged dev [create_buffer mat])
  | _ :: _ =>
      match join_packed Scene.MeshDesc.pack mds with
      | Raise e =>
          (Raise e,
           logged dev [create_buffer mat; create_buffer vb; create_buffer ib])
      | Ok dbytes =>
          let md := bytes_buffer "mesh_descs_buffer" dbytes in
          match join_packed Scene.InstanceDesc.pack ids with
          | Raise e =>
              (Raise e,
               logged dev [create_buffer mat; create_buffer vb;
                           create_buffer ib; create_buffer md])
          | Ok ibytes =>
              let inst := bytes_buffer "instance_descs_buffer" ibytes in
              match Stage.transforms stage with
              | [] =>
                  (Raise ValueError,
                   logged dev [create_buffer mat; create_buffer vb;
                               create_buffer ib; create_buffer md;
                               create_buffer inst])
              | _ :: _ =>
                  let h := Device.next_handle dev in
                  let blases := blases_from vb ib h mds in
                  let ws := tlas_writes (transforms_of stage) blases 0 ids in
                  let l :=
                    apply_writes (fst ws)
                      (AccelerationStructureInstanceList.create
                         (Z.of_nat (length ids))) in
                  let h' := h + Z.of_nat (length mds) in
                  let evs :=
                    [create_buffer mat; create_buffer vb; create_buffer ib;
                     create_buffer md; create_buffer inst;
                     create_buffer (transform_buffer_of stage);
                     create_buffer (inverse_transpose_buffer_of stage)]
                    ++ blases_events_from vb ib h mds
                    ++ create_acceleration_structure_instance_list
                         (Z.of_nat (length ids))
                    :: write_events (fst ws) in
                  if snd ws
                  then
                    (Ok (Scene.make (material_descs_of stage) mat mds ids vb ib
                           md inst (transforms_of stage)
                           (inverse_transposes_of stage)
                           (transform_buffer_of stage)
                           (inverse_transpose_buffer_of stage)
                           blases (tlas_of l h')),
                     Device.make (Device.log dev ++ evs ++ tlas_tail_events l h')
                                 (h' + 1))
                  else
                    (Raise IndexError,
                     Device.make (Device.log dev ++ evs) h')
              end
          end
      end
  end.

(** An instance whose ids the construction can use. *)
Definition instance_usable {F} (stage : Stage.t F) (inst : Z * Z * Z) : Prop :=
  let '(mesh_id, material_id, transform_id) := inst in
  fits_uint32 mesh_id /\ fits_uint32 material_id /\ fits_uint32 transform_id
  /\ in_range (length (Stage.meshes stage)) mesh_id
  /\ in_range (length (Stage.transforms stage)) transform_id.

(** A mesh descriptor whose four fields can be packed. *)
Definition mesh_desc_packable (d : Scene.MeshDesc.t) : Prop :=
  fits_uint32 (Scene.MeshDesc.vertex_count d)
  /\ fits_uint32 (Scene.MeshDesc.index_count d)
  /\ fits_uint32 (Scene.MeshDesc.vertex_offset d)
  /\ fits_uint32 (Scene.MeshDesc.index_offset d).

(** ** Steps of the frame loop, by what they respect *)

(** Every run of [m] takes a state to a state related to it by [K],
    whether it returns or raises, and what it returns satisfies [Q]. *)
Definition respects {S A} (K : S -> S -> Prop) (Q : A -> Prop) (m : M S A)
  : Prop :=
  forall s, K s (snd (m s)) /\ forall a, fst (m s) = Ok a -> Q a.

(** An event of rendering: no buffer, acceleration structure or instance
    list is created, no instance record written, no build submitted. *)
Definition is_frame_event {F} (e : Event F) : bool :=
  match e with
  | create_buffer _ => false
  | create_acceleration_structure _ => false
  | create_acceleration_structure_instance_list _ => false
  | instance_list_write _ _ => false
  | submit_command_buffer commands => negb (existsb is_build commands)
  | _ => true
  end.

(** The scene and the handle counter are kept, and the device log grows by
    events of rendering only. *)
Definition scene_kept {F} (s s' : World.t F) : Prop :=
  World.scene s' = World.scene s
  /\ Device.next_handle (World.device s') = Device.next_handle (World.device s)
  /\ exists evs,
      Device.log (World.device s') = Device.log (World.device s) ++ evs
      /\ forallb is_frame_event evs = true.

Definition no_build {F} (commands : list (Command F)) : Prop :=
  existsb is_build commands = false.

(** ** States in which the loop can render *)

(** The textures are consistent and the camera has a height to divide by. *)
Definition loop_ready {F} (s : World.t F) : Prop :=
  textures_ok s /\ Camera.height (World.camera s) <> 0.

(** Every image the surface hands out has a non-zero height. *)
Definition images_have_height {F} (inputs : list (FrameInput.t F)) : Prop :=
  Forall (fun input =>
            forall width height,
              FrameInput.next_image input = Some (width, height) ->
              height <> 0) inputs.

(** A turn in which the window delivers no event and the surface hands out
    an image of non-zero height. *)
Definition quiet_input {F} (input : FrameInput.t F) : Prop :=
  FrameInput.events input = []
  /\ exists width height,
      FrameInput.next_image input = Some (width, height) /\ height <> 0.

(** No move and no rotation is pending: [update] has nothing to do. *)
Definition idle {F} `{Spy F} (ctl : CameraController.t F) : Prop :=
  CameraController.moving ctl || CameraController.rotating ctl = false.

(** The frame numbers [frame], [frame + 1], ... of [n] frames. *)
Definition frames_from (frame : Z) (n : nat) : list Z :=
  map (fun k => frame + Z.of_nat k) (seq 0 n).

(** The loop is running, its surface is configured, nothing moves the
    camera, and it can render. *)
Definition still_ready {F} `{Spy F} (s : World.t F) : Prop :=
  World.should_close s = false
  /\ World.surface_config s <> None
  /\ idle (World.camera_controller s)
  /\ loop_ready s.

(** ** The window, as the loop sees it *)

(** What rendering a frame leaves alone on the side of the window. *)
Definition window_kept {F} (s s' : World.t F) : Prop :=
  World.should_close s' = World.should_close s
  /\ World.surface_config s' = World.surface_config s
  /\ World.camera_controller s' = World.camera_controller s.

(** A call on the window, the surface configuration or the host, as opposed
    to one that creates a resource, submits work or presents an image. *)
Definition is_window_call {F} (e : Event F) : bool :=
  match e with
  | wait => true
  | surface_configure _ _ => true
  | surface_unconfigure => true
  | window_close => true
  | tev_show_async _ => true
  | write_screenshot _ => true
  | _ => false
  end.

Definition is_resize {F} (ev : WindowEvent F) : bool :=
  match ev with resize_event _ _ => true | _ => false end.

(** The Escape key going down. *)
Definition escape_pressed {F} : WindowEvent F :=
  keyboard_event
    (KeyboardEvent.make KeyboardEventType.key_press KeyCode.escape).

(** The state after the [device.wait()] that follows the loop. *)
Definition waited {F} (s : World.t F) : World.t F :=
  World.set_device s
    (Device.make (Device.log (World.device s) ++ [wait])
                 (Device.next_handle (World.device s))).

(** ** The controller's key table *)

(** A key of [MOVE_KEYS]. *)
Definition is_move_key (k : KeyCode.t) : bool :=
  match CameraController.lookup k CameraController.MOVE_KEYS with
  | Some _ => true
  | None => false
  end.

(** The key table has the keys of [MOVE_KEYS], in their order. *)
Definition tracks_move_keys {F} (ctl : CameraController.t F) : Prop :=
  map fst (CameraController.key_state ctl)
  = map fst CameraController.MOVE_KEYS.

Definition key_press (k : KeyCode.t) : KeyboardEvent.t :=
  KeyboardEvent.make KeyboardEventType.key_press k.

Definition key_release (k : KeyCode.t) : KeyboardEvent.t :=
  KeyboardEvent.make KeyboardEventType.key_release k.

Definition mouse_move {F} (pos : float2.t F) : MouseEvent.t F :=
  MouseEvent.make MouseEventType.move pos MouseButton.unknown.

(** ** Further observations *)

Definition is_escape_press {F} (ev : WindowEvent F) : bool :=
  match ev with
  | keyboard_event e =>
      KeyboardEvent.is_key_press e
      && KeyCode.eqb (KeyboardEvent.key e) KeyCode.escape
  | _ => false
  end.

Definition has_size (width height : Z) (t : Texture.t) : Prop :=
  Texture.width t = width /\ Texture.height t = height.

(** The three indices of a triangle name vertices of a mesh of [n]
    vertices. *)
Definition triangle_in_range (n : Z) (t : triangle) : Prop :=
  let '(a, b, c) := t in 0 <= a < n /\ 0 <= b < n /\ 0 <= c < n.

Definition mesh_well_formed {F} (mesh : Mesh.t F) : Prop :=
  Forall (triangle_in_range (Mesh.vertex_count mesh)) (Mesh.indices mesh).

(** The three ids of an instance fit unsigned 32-bit fields. *)
Definition ids_fit_uint32 (inst : Z * Z * Z) : Prop :=
  let '(mesh_id, material_id, transform_id) := inst in
  fits_uint32 mesh_id /\ fits_uint32 material_id /\ fits_uint32 transform_id.

(** The instance records written so far, as the device log shows them. *)
Definition instance_writes {F} (log : list (Event F)) : list (Event F) :=
  filter is_instance_write log.

Definition is_window_close {F} (e : Event F) : bool :=
  match e with window_close => true | _ => false end.

(** How many times [window.close()] is called in a stretch of the log. *)
Definition close_calls {F} (log : list (Event F)) : nat :=
  length (filter is_window_close log).

(** The device log grows, by events none of which is [window.close()]. *)
Definition no_close_call {F} (s s' : World.t F) : Prop :=
  exists evs,
    Device.log (World.device s') = Device.log (World.device s) ++ evs
    /\ close_calls evs = 0%nat.

(** * Properties *)

(** ** The monad and the Python built-ins *)

Lemma py_index_raise {A} (xs : list A) (i : Z) (e : exn) :
  py_index xs i = Raise e -> e = IndexError.
Proof.
  unfold py_index. destruct (_ && _).
  - destruct (nth_error _ _); congruence.
  - congruence.
Qed.

Lemma py_index_ok {A} (xs : list A) (i : Z) :
  in_range (length xs) i ->
  exists a, py_index xs i = Ok a /\ nth_error xs (Z.to_nat i) = Some a.
Proof.
  unfold in_range, py_index. intros Hi.
  replace (i <? 0) with false by (symmetry; apply Z.ltb_ge; lia).
  replace ((0 <=? i) && (i <? Z.of_nat (length xs))) with true
    by (symmetry; apply andb_true_iff; split;
        [apply Z.leb_le | apply Z.ltb_lt]; lia).
  destruct (nth_error xs (Z.to_nat i)) eqn:E.
  - eauto.
  - apply nth_error_None in E. lia.
Qed.

Lemma py_index_nonneg_ok {A} (xs : list A) (i : Z) (a : A) :
  0 <= i -> py_index xs i = Ok a ->
  in_range (length xs) i /\ nth_error xs (Z.to_nat i) = Some a.
Proof.
  unfold in_range, py_index. intros Hi.
  replace (i <? 0) with false by (symmetry; apply Z.ltb_ge; lia).
  destruct ((0 <=? i) && (i <? Z.of_nat (length xs))) eqn:E; [|discriminate].
  apply andb_true_iff in E. destruct E as [_ E]. apply Z.ltb_lt in E.
  destruct (nth_error xs (Z.to_nat i)); [|discriminate].
  intros [= ->]. split; [lia | reflexivity].
Qed.

Lemma pack_I_ok (v : Z) (b : list byte) : pack_I v = Ok b -> fits_uint32 v.
Proof.
  unfold pack_I, fits_uint32.
  destruct ((0 <=? v) && (v <? 2 ^ 32)) eqn:E; [|discriminate].
  apply andb_true_iff in E. destruct E as [E1 E2].
  apply Z.leb_le in E1. apply Z.ltb_lt in E2. intros _. lia.
Qed.

Lemma join_packed_ok {A} (pack : A -> result (list byte)) (ds : list A)
  (bs : list byte) :
  join_packed pack ds = Ok bs -> forall d, In d ds -> is_ok (pack d) = true.
Proof.
  revert bs. induction ds as [|d0 ds IH]; simpl; intros bs Hj d Hd.
  - contradiction.
  - destruct (pack d0) eqn:E0; [|discriminate].
    destruct (join_packed pack ds) eqn:E1; [|discriminate].
    destruct Hd as [<-|Hd].
    + rewrite E0. reflexivity.
    + eapply IH; eauto.
Qed.

Lemma instance_pack_ok (d : Scene.InstanceDesc.t) :
  is_ok (Scene.InstanceDesc.pack d) = true ->
  fits_uint32 (Scene.InstanceDesc.mesh_id d)
  /\ fits_uint32 (Scene.InstanceDesc.material_id d)
  /\ fits_uint32 (Scene.InstanceDesc.transform_id d).
Proof.
  unfold Scene.InstanceDesc.pack.
  destruct (pack_I (Scene.InstanceDesc.mesh_id d)) eqn:E1;
    destruct (pack_I (Scene.InstanceDesc.material_id d)) eqn:E2;
    destruct (pack_I (Scene.InstanceDesc.transform_id d)) eqn:E3;
    simpl; try discriminate.
  intros _. repeat split; eapply pack_I_ok; eassumption.
Qed.

(** ** The forward scan over the meshes *)

Lemma sum_Z_app (xs ys : list Z) : sum_Z (xs ++ ys) = sum_Z xs + sum_Z ys.
Proof.
  unfold sum_Z. induction xs as [|x xs IH]; simpl; [reflexivity | lia].
Qed.

Lemma prepare_mesh_descs_snoc {F} (meshes : list (Mesh.t F)) (mesh : Mesh.t F) :
  Scene.prepare_mesh_descs (meshes ++ [mesh])
  = Scene.mesh_descs_step (Scene.prepare_mesh_descs meshes) mesh.
Proof.
  unfold Scene.prepare_mesh_descs. rewrite fold_left_app. reflexivity.
Qed.

(** The loop invariant of the scan, read off after the last mesh. *)
Lemma prepare_mesh_descs_spec {F} (meshes : list (Mesh.t F)) :
  forall vertex_count index_count mesh_descs,
    Scene.prepare_mesh_descs meshes = (vertex_count, index_count, mesh_descs) ->
    vertex_count = sum_Z (map (@Mesh.vertex_count F) meshes)
    /\ index_count = sum_Z (map (@Mesh.index_count F) meshes)
    /\ length mesh_descs = length meshes
    /\ forall k d,
        nth_error mesh_descs k = Some d ->
        exists mesh,
          nth_error meshes k = Some mesh
          /\ Scene.MeshDesc.vertex_count d = Mesh.vertex_count mesh
          /\ Scene.MeshDesc.index_count d = Mesh.index_count mesh
          /\ Scene.MeshDesc.vertex_offset d
             = sum_Z (map (@Mesh.vertex_count F) (firstn k meshes))
          /\ Scene.MeshDesc.index_offset d
             = sum_Z (map (@Mesh.index_count F) (firstn k meshes)).
Proof.
  induction meshes as [|mesh meshes IH] using rev_ind;
    intros vc ic ds Hp.
  - injection Hp as <- <- <-. repeat split; try reflexivity.
    intros [|k] d Hd; discriminate.
  - rewrite prepare_mesh_descs_snoc in Hp.
    destruct (Scene.prepare_mesh_descs meshes) as [[vc0 ic0] ds0].
    specialize (IH _ _ _ eq_refl) as (Hv & Hi & Hl & Hn).
    simpl in Hp. injection Hp as <- <- <-.
    rewrite !map_app, !sum_Z_app. simpl.
    repeat split; try lia.
    + rewrite !length_app. simpl. lia.
    + intros k d Hd.
      destruct (Nat.lt_ge_cases k (length ds0)) as [Hk|Hk].
      * rewrite nth_error_app1 in Hd by assumption.
        destruct (Hn _ _ Hd) as (m & Hm & H1 & H2 & H3 & H4).
        exists m. rewrite nth_error_app1 by lia.
        rewrite firstn_app.
        replace (k - length meshes)%nat with 0%nat by lia.
        simpl. rewrite app_nil_r. auto.
      * rewrite nth_error_app2 in Hd by assumption.
        destruct (k - length ds0)%nat as [|j] eqn:Ej; simpl in Hd;
          [|destruct j; discriminate].
        injection Hd as <-.
        assert (k = length meshes) as -> by lia.
        exists mesh. rewrite nth_error_app2 by lia.
        rewrite Nat.sub_diag. simpl.
        rewrite firstn_app, Nat.sub_diag, firstn_all. simpl.
        rewrite app_nil_r. auto.
Qed.

Lemma length_concat_sum {A} (ls : list (list A)) :
  Z.of_nat (length (concat ls))
  = sum_Z (map (fun l => Z.of_nat (length l)) ls).
Proof.
  induction ls as [|l ls IH]; simpl; [reflexivity|].
  rewrite length_app, Nat2Z.inj_add, IH. reflexivity.
Qed.

Lemma sum_Z_scale (k : Z) (xs : list Z) :
  sum_Z (map (fun x => x * k) xs) = sum_Z xs * k.
Proof.
  induction xs as [|x xs IH]; simpl; [reflexivity|].
  unfold sum_Z in *. simpl. rewrite IH. lia.
Qed.

Lemma sum_vertex_counts {F} (meshes : list (Mesh.t F)) :
  sum_Z (map (@Mesh.vertex_count F) meshes)
  = Z.of_nat (length (concat (map (@Mesh.vertices F) meshes))).
Proof.
  rewrite length_concat_sum, map_map. reflexivity.
Qed.

Lemma sum_index_counts {F} (meshes : list (Mesh.t F)) :
  sum_Z (map (@Mesh.index_count F) meshes)
  = Z.of_nat (length (concat (map (@Mesh.indices F) meshes))) * 3.
Proof.
  rewrite length_concat_sum, map_map, <- sum_Z_scale, map_map. reflexivity.
Qed.

(** ** The build loops *)

Lemma build_blas_run {F} `{Spy F} (vb ib : Buffer.t F) (m : Scene.MeshDesc.t)
  (dev : Device.t F) :
  Scene.build_blas vb ib m dev
  = (Ok (blas_of vb ib m (Device.next_handle dev)),
     Device.make (Device.log dev ++ blas_events vb ib m (Device.next_handle dev))
                 (Device.next_handle dev + 1)).
Proof.
  unfold Scene.build_blas, blas_events. cbn.
  rewrite <- !app_assoc. reflexivity.
Qed.

Lemma build_blases_run {F} `{Spy F} (vb ib : Buffer.t F)
  (ms : list Scene.MeshDesc.t) :
  forall dev : Device.t F,
    list_comp (Scene.build_blas vb ib) ms dev
    = (Ok (blases_from vb ib (Device.next_handle dev) ms),
       Device.make
         (Device.log dev ++ blases_events_from vb ib (Device.next_handle dev) ms)
         (Device.next_handle dev + Z.of_nat (length ms))).
Proof.
  induction ms as [|m ms IH]; intros dev.
  - cbn. rewrite app_nil_r, Z.add_0_r. destruct dev; reflexivity.
  - cbn [list_comp]. unfold bind at 1. rewrite build_blas_run.
    unfold bind at 1. rewrite IH. cbn [Device.log Device.next_handle].
    unfold ret. cbn [blases_from blases_events_from length].
    rewrite <- app_assoc. do 2 f_equal. lia.
Qed.

Lemma blases_from_length {F} `{Spy F} (vb ib : Buffer.t F)
  (ms : list Scene.MeshDesc.t) (h : Z) :
  length (blases_from vb ib h ms) = length ms.
Proof.
  revert h. induction ms as [|m ms IH]; intros h; simpl; [|rewrite IH];
    reflexivity.
Qed.

Lemma blases_from_nth {F} `{Spy F} (vb ib : Buffer.t F)
  (ms : list Scene.MeshDesc.t) :
  forall (h : Z) (k : nat) (m : Scene.MeshDesc.t),
    nth_error ms k = Some m ->
    nth_error (blases_from vb ib h ms) k
    = Some (blas_of vb ib m (h + Z.of_nat k)).
Proof.
  induction ms as [|m0 ms IH]; intros h [|k] m Hk; try discriminate.
  - injection Hk as ->. simpl. rewrite Z.add_0_r. reflexivity.
  - simpl in Hk. cbn [blases_from nth_error]. rewrite (IH _ _ _ Hk).
    do 2 f_equal. lia.
Qed.

Lemma blases_events_nth {F} `{Spy F} (vb ib : Buffer.t F)
  (ms : list Scene.MeshDesc.t) :
  forall (h : Z) (k : nat) (m : Scene.MeshDesc.t),
    nth_error ms k = Some m ->
    exists before after,
      blases_events_from vb ib h ms
      = before
          ++ submit_command_buffer
               [blas_build_command vb ib m (h + Z.of_nat k)]
          :: after.
Proof.
  induction ms as [|m0 ms IH]; intros h [|k] m Hk; try discriminate.
  - injection Hk as ->. rewrite Z.add_0_r. cbn [blases_events_from blas_events].
    exists [create_buffer (blas_scratch vb ib m);
            create_acceleration_structure (blas_of vb ib m h)].
    eexists. reflexivity.
  - simpl in Hk. destruct (IH (h + 1) _ _ Hk) as (b & a & E).
    exists (blas_events vb ib m0 h ++ b), a.
    cbn [blases_events_from]. rewrite E, <- app_assoc.
    replace (h + Z.of_nat (S k)) with (h + 1 + Z.of_nat k) by lia.
    reflexivity.
Qed.

(** The loop of [build_tlas], from any position in the instance list. *)
Lemma build_tlas_loop_run {F} (transforms : list (float4x4.t F))
  (blases : list AccelerationStructure.t) (ds : list Scene.InstanceDesc.t) :
  forall (start : Z) (l : AccelerationStructureInstanceList.t F)
         (dev : Device.t F),
    for_each (enumerate_from start ds)
             (Scene.build_tlas_step transforms blases) l dev
    = (let ws := tlas_writes transforms blases start ds in
       if snd ws then Ok (apply_writes (fst ws) l) else Raise IndexError,
       Device.make
         (Device.log dev
            ++ write_events (fst (tlas_writes transforms blases start ds)))
         (Device.next_handle dev)).
Proof.
  induction ds as [|d ds IH]; intros start l dev.
  - cbn. rewrite app_nil_r. destruct dev; reflexivity.
  - cbn [enumerate_from for_each tlas_writes].
    unfold bind at 1. unfold Scene.build_tlas_step at 1.
    unfold bind at 1. unfold lift_result at 1.
    destruct (py_index transforms (Scene.InstanceDesc.transform_id d))
      as [t|e] eqn:Et.
    + unfold bind at 1. unfold lift_result at 1.
      destruct (py_index blases (Scene.InstanceDesc.mesh_id d)) as [b|e] eqn:Eb.
      * cbn [Device.emit modify bind ret]. rewrite IH.
        cbn [Device.log Device.next_handle].
        destruct (tlas_writes transforms blases (start + 1) ds) as [ws c].
        cbn [fst snd write_events map apply_writes fold_left].
        rewrite <- app_assoc. reflexivity.
      * apply py_index_raise in Eb as ->. cbn.
        rewrite app_nil_r. destruct dev; reflexivity.
    + apply py_index_raise in Et as ->. cbn.
      rewrite app_nil_r. destruct dev; reflexivity.
Qed.

Lemma build_tlas_run {F} `{Spy F} (ds : list Scene.InstanceDesc.t)
  (transforms : list (float4x4.t F)) (blases : list AccelerationStructure.t)
  (dev : Device.t F) :
  Scene.build_tlas ds transforms blases dev
  = (let ws := tlas_writes transforms blases 0 ds in
     let l := apply_writes (fst ws)
                (AccelerationStructureInstanceList.create (Z.of_nat (length ds))) in
     let h := Device.next_handle dev in
     if snd ws
     then
       (Ok (tlas_of l h),
        Device.make
          (Device.log dev
             ++ create_acceleration_structure_instance_list (Z.of_nat (length ds))
             :: write_events (fst ws) ++ tlas_tail_events l h)
          (h + 1))
     else
       (Raise IndexError,
        Device.make
          (Device.log dev
             ++ create_acceleration_structure_instance_list (Z.of_nat (length ds))
             :: write_events (fst ws))
          h)).
Proof.
  unfold Scene.build_tlas.
  unfold bind at 1.
  unfold Device.create_acceleration_structure_instance_list at 1.
  cbn [Device.emit modify bind ret].
  unfold bind at 1. unfold enumerate. rewrite build_tlas_loop_run.
  cbn [Device.log Device.next_handle].
  destruct (tlas_writes transforms blases 0 ds) as [ws complete].
  cbn [fst snd]. destruct complete.
  - cbn. unfold tlas_tail_events, tlas_build_command, tlas_of, tlas_scratch,
      tlas_build_desc.
    rewrite <- !app_assoc. reflexivity.
  - rewrite <- app_assoc. reflexivity.
Qed.

Lemma np_concatenate_map {A B} (f : A -> list B) (xs : list A) :
  xs <> [] -> np_concatenate (map f xs) = Ok (concat (map f xs)).
Proof. destruct xs; [congruence | reflexivity]. Qed.

Lemma np_stack_map {A B} (f : A -> B) (xs : list A) :
  xs <> [] -> np_stack (map f xs) = Ok (map f xs).
Proof. destruct xs; [congruence | reflexivity]. Qed.

Lemma scene_init_cases {F} `{Spy F} (stage : Stage.t F) (dev : Device.t F) :
  let meshes := Stage.meshes stage in
  let vb := Buffer.make BufferUsage.shader_resource "vertex_buffer"
              (data_vertices (concat (map (@Mesh.vertices F) meshes))) in
  let ib := Buffer.make BufferUsage.shader_resource "index_buffer"
              (data_indices (F:=F) (concat (map (@Mesh.indices F) meshes))) in
  let mds := snd (Scene.prepare_mesh_descs meshes) in
  let ids := Scene.prepare_instance_descs (Stage.instances stage) in
  let transforms := map (@Transform.matrix F) (Stage.transforms stage) in
  let h := Device.next_handle dev in
  let blases := blases_from vb ib h mds in
  let ws := tlas_writes transforms blases 0 ids in
  let l := apply_writes (fst ws)
             (AccelerationStructureInstanceList.create (Z.of_nat (length ids))) in
  let h' := h + Z.of_nat (length mds) in
  (exists e evs,
      Scene.init stage dev
      = (Raise e, Device.make (Device.log dev ++ evs) h)
      /\ Forall (fun ev => is_create_buffer ev = true) evs)
  \/
  (exists evs ibytes scene,
      Forall (fun ev => is_create_buffer ev = true) evs
      /\ join_packed Scene.InstanceDesc.pack ids = Ok ibytes
      /\ meshes <> [] /\ Stage.transforms stage <> []
      /\ Scene.vertex_buffer scene = vb
      /\ Scene.index_buffer scene = ib
      /\ Scene.mesh_descs scene = mds
      /\ Scene.instance_descs scene = ids
      /\ Scene.transforms scene = transforms
      /\ Scene.blases scene = blases
      /\ Scene.tlas scene = tlas_of l h'
      /\ Scene.init stage dev
         = (if snd ws then Ok scene else Raise IndexError,
            Device.make
              (Device.log dev ++ evs ++ blases_events_from vb ib h mds
                 ++ create_acceleration_structure_instance_list
                      (Z.of_nat (length ids))
                 :: write_events (fst ws)
                 ++ (if snd ws then tlas_tail_events l h' else []))
              (if snd ws then h' + 1 else h'))).
Proof.
  cbv zeta.
  remember (Scene.init stage dev) as R eqn:ER.
  unfold Scene.init in ER.
  unfold bind at 1 in ER. unfold lift_result at 1 in ER.
  destruct (join_packed Scene.MaterialDesc.pack _) as [mbytes|e] eqn:Em.
  2:{ left. exists e, []. rewrite app_nil_r. subst R.
      destruct dev. split; [reflexivity | constructor]. }
  unfold bind at 1 in ER. step_device ER.
  destruct (Scene.prepare_mesh_descs (Stage.meshes stage))
    as [[vc ic] mds] eqn:Ep.
  destruct (prepare_mesh_descs_spec _ Ep) as (Hvc & Hic & Hlen & _).
  cbn [snd].
  unfold bind at 1 in ER. unfold lift_result at 1 in ER.
  destruct (Stage.meshes stage) as [|m0 ms] eqn:Emeshes.
  { stop_with ER. }
  assert (Hne : m0 :: ms <> []) by discriminate.
  revert ER Hne Hvc Hic Hlen. rewrite <- Emeshes. clear Emeshes. intros.
  rewrite !np_concatenate_map in ER by assumption.
  unfold bind at 1 in ER. unfold lift_result at 1 in ER.
  rewrite sum_vertex_counts in Hvc. rewrite sum_index_counts in Hic.
  unfold bind at 1 in ER. unfold Scene.assert_ at 1 in ER.
  rewrite <- Hvc, Z.eqb_refl in ER. unfold ret at 1 in ER.
  unfold bind at 1 in ER. unfold Scene.assert_ at 1 in ER.
  rewrite Hic, Z.div_mul, Z.eqb_refl in ER by lia. unfold ret at 1 in ER.
  unfold bind at 1 in ER. step_device ER.
  unfold bind at 1 in ER. unfold lift_result at 1 in ER.
  destruct (join_packed Scene.MeshDesc.pack mds) as [dbytes|e] eqn:Ed.
  2:{ stop_with ER. }
  unfold bind at 1 in ER. step_device ER.
  unfold lift_result at 1 in ER.
  destruct (join_packed Scene.InstanceDesc.pack _) as [ibytes|e] eqn:Ei.
  2:{ stop_with ER. }
  step_device ER.
  unfold lift_result at 1 in ER.
  destruct (Stage.transforms stage) as [|t0 ts] eqn:Etr.
  { stop_with ER. }
  assert (Hnt : t0 :: ts <> []) by discriminate.
  revert ER Hnt. rewrite <- Etr. clear Etr. intros.
  rewrite np_stack_map in ER by assumption.
  step_device ER.
  unfold lift_result at 1 in ER.
  rewrite np_stack_map in ER
    by (intros E; apply map_eq_nil in E; contradiction).
  step_device ER.
  unfold bind at 1 in ER. rewrite build_blases_run in ER.
  cbn [Device.log Device.next_handle] in ER.
  unfold bind at 1 in ER. rewrite build_tlas_run in ER.
  cbn [Device.log Device.next_handle] in ER. cbv zeta in ER.
  right.
  exists [ create_buffer
             (Buffer.make BufferUsage.shader_resource "material_descs_buffer"
                          (data_bytes mbytes));
           create_buffer
             (Buffer.make BufferUsage.shader_resource "vertex_buffer"
                (data_vertices
                   (concat (map (@Mesh.vertices F) (Stage.meshes stage)))));
           create_buffer
             (Buffer.make BufferUsage.shader_resource "index_buffer"
                (data_indices
                   (concat (map (@Mesh.indices F) (Stage.meshes stage)))));
           create_buffer
             (Buffer.make BufferUsage.shader_resource "mesh_descs_buffer"
                          (data_bytes dbytes));
           create_buffer
             (Buffer.make BufferUsage.shader_resource "instance_descs_buffer"
                          (data_bytes ibytes));
           create_buffer
             (Buffer.make BufferUsage.shader_resource "transform_buffer"
                (data_matrices
                   (map (@Transform.matrix F) (Stage.transforms stage))));
           create_buffer
             (Buffer.make BufferUsage.shader_resource
                "inverse_transpose_transforms_buffer"
                (data_matrices
                   (map (fun t => math_transpose (math_inverse t))
                        (map (@Transform.matrix F) (Stage.transforms stage))))) ].
  exists ibytes.
  eexists (Scene.make _ _ _ _ _ _ _ _ _ _ _ _ _ _).
  cbn [Scene.vertex_buffer Scene.index_buffer Scene.mesh_descs
       Scene.instance_descs Scene.transforms Scene.blases Scene.tlas].
  split; [repeat constructor|].
  split; [reflexivity|].
  do 2 (split; [assumption|]).
  do 6 (split; [reflexivity|]).
  split; [reflexivity|].
  rewrite ER. clear ER.
  rewrite <- ?app_assoc. cbn [app].
  destruct (snd (tlas_writes _ _ 0 _)).
  - cbn [ret]. rewrite <- ?app_assoc. cbn [app]. reflexivity.
  - rewrite app_nil_r. reflexivity.
Qed.

(** What a successful construction tells about the scene and the log. *)
Lemma scene_init_ok {F} `{Spy F} (stage : Stage.t F) (dev dev' : Device.t F)
  (scene : Scene.t F) :
  Scene.init stage dev = (Ok scene, dev') ->
  let meshes := Stage.meshes stage in
  let vb := Buffer.make BufferUsage.shader_resource "vertex_buffer"
              (data_vertices (concat (map (@Mesh.vertices F) meshes))) in
  let ib := Buffer.make BufferUsage.shader_resource "index_buffer"
              (data_indices (F:=F) (concat (map (@Mesh.indices F) meshes))) in
  let mds := snd (Scene.prepare_mesh_descs meshes) in
  let ids := Scene.prepare_instance_descs (Stage.instances stage) in
  let transforms := map (@Transform.matrix F) (Stage.transforms stage) in
  let h := Device.next_handle dev in
  let blases := blases_from vb ib h mds in
  let ws := tlas_writes transforms blases 0 ids in
  let l := apply_writes (fst ws)
             (AccelerationStructureInstanceList.create (Z.of_nat (length ids))) in
  let h' := h + Z.of_nat (length mds) in
  snd ws = true
  /\ (exists ibytes, join_packed Scene.InstanceDesc.pack ids = Ok ibytes)
  /\ Scene.vertex_buffer scene = vb
  /\ Scene.index_buffer scene = ib
  /\ Scene.mesh_descs scene = mds
  /\ Scene.instance_descs scene = ids
  /\ Scene.transforms scene = transforms
  /\ Scene.blases scene = blases
  /\ Scene.tlas scene = tlas_of l h'
  /\ exists evs,
      Forall (fun ev => is_create_buffer ev = true) evs
      /\ Device.log dev'
         = Device.log dev ++ evs ++ blases_events_from vb ib h mds
             ++ create_acceleration_structure_instance_list
                  (Z.of_nat (length ids))
             :: write_events (fst ws) ++ tlas_tail_events l h'.
Proof.
  intros Hinit. cbv zeta.
  destruct (scene_init_cases stage dev)
    as [(e & evs & E & _)
       |(evs & ibytes & scene0 & Hevs & Hpack & _ & _ & Hvb & Hib & Hmd & Hid
         & Htr & Hbl & Htl & E)];
    rewrite E in Hinit; [discriminate|].
  destruct (snd (tlas_writes _ _ 0 _)); [|discriminate].
  injection Hinit as <- <-.
  cbn [Device.log].
  repeat (split; [solve [eauto] |]).
  exists evs. split; [assumption | reflexivity].
Qed.

(** ** The loop that writes the instance records *)

Lemma tlas_writes_complete {F} (transforms : list (float4x4.t F))
  (blases : list AccelerationStructure.t) (ds : list Scene.InstanceDesc.t) :
  forall start,
    snd (tlas_writes transforms blases start ds) = true ->
    length (fst (tlas_writes transforms blases start ds)) = length ds
    /\ forall k d,
        nth_error ds k = Some d ->
        exists t b,
          py_index transforms (Scene.InstanceDesc.transform_id d) = Ok t
          /\ py_index blases (Scene.InstanceDesc.mesh_id d) = Ok b
          /\ nth_error (fst (tlas_writes transforms blases start ds)) k
             = Some (start + Z.of_nat k,
                     Scene.tlas_instance_desc t (start + Z.of_nat k) b).
Proof.
  induction ds as [|d0 ds IH]; intros start Hc.
  - split; [reflexivity|]. intros [|k] d Hd; discriminate.
  - cbn [tlas_writes] in *.
    destruct (py_index transforms (Scene.InstanceDesc.transform_id d0))
      as [t0|] eqn:Et; [|discriminate].
    destruct (py_index blases (Scene.InstanceDesc.mesh_id d0))
      as [b0|] eqn:Eb; [|discriminate].
    specialize (IH (start + 1)).
    destruct (tlas_writes transforms blases (start + 1) ds) as [ws c].
    cbn [fst snd] in *. destruct (IH Hc) as [Hl Hn].
    split; [simpl; congruence|].
    intros [|k] d Hd.
    + injection Hd as <-. exists t0, b0.
      rewrite Z.add_0_r. auto.
    + simpl in Hd. destruct (Hn _ _ Hd) as (t & b & H1 & H2 & H3).
      exists t, b. repeat split; try assumption.
      cbn [nth_error]. rewrite H3.
      replace (start + 1 + Z.of_nat k) with (start + Z.of_nat (S k)) by lia.
      reflexivity.
Qed.

Lemma tlas_writes_incomplete {F} (transforms : list (float4x4.t F))
  (blases : list AccelerationStructure.t) (ds : list Scene.InstanceDesc.t) :
  forall start d,
    In d ds ->
    (is_ok (py_index transforms (Scene.InstanceDesc.transform_id d)) = false
     \/ is_ok (py_index blases (Scene.InstanceDesc.mesh_id d)) = false) ->
    snd (tlas_writes transforms blases start ds) = false.
Proof.
  induction ds as [|d0 ds IH]; intros start d Hin Hbad; [contradiction|].
  cbn [tlas_writes].
  destruct (py_index transforms (Scene.InstanceDesc.transform_id d0))
    as [t0|] eqn:Et; [|reflexivity].
  destruct (py_index blases (Scene.InstanceDesc.mesh_id d0))
    as [b0|] eqn:Eb; [|reflexivity].
  destruct Hin as [<-|Hin].
  - rewrite Et, Eb in Hbad. destruct Hbad; discriminate.
  - specialize (IH (start + 1) d Hin Hbad).
    destruct (tlas_writes transforms blases (start + 1) ds) as [ws c].
    exact IH.
Qed.

Lemma set_nth_middle {A} (pre post : list A) (a b : A) :
  AccelerationStructureInstanceList.set_nth (pre ++ a :: post) (length pre) b
  = pre ++ b :: post.
Proof.
  induction pre as [|p pre IH]; simpl; [reflexivity | rewrite IH; reflexivity].
Qed.

(** Writing the records of a completed loop, in order, fills the slots
    from the first index on. *)
Lemma apply_writes_fills {F} (transforms : list (float4x4.t F))
  (blases : list AccelerationStructure.t) (ds : list Scene.InstanceDesc.t) :
  forall (pre : AccelerationStructureInstanceList.t F) (rest : nat),
    snd (tlas_writes transforms blases (Z.of_nat (length pre)) ds) = true ->
    apply_writes
      (fst (tlas_writes transforms blases (Z.of_nat (length pre)) ds))
      (pre ++ repeat None (length ds + rest))
    = pre
        ++ map (fun w => Some (snd w))
               (fst (tlas_writes transforms blases (Z.of_nat (length pre)) ds))
        ++ repeat None rest.
Proof.
  induction ds as [|d0 ds IH]; intros pre rest Hc.
  - reflexivity.
  - cbn [tlas_writes] in *.
    destruct (py_index transforms (Scene.InstanceDesc.transform_id d0))
      as [t0|] eqn:Et; [|discriminate].
    destruct (py_index blases (Scene.InstanceDesc.mesh_id d0))
      as [b0|] eqn:Eb; [|discriminate].
    set (r := Scene.tlas_instance_desc t0 (Z.of_nat (length pre)) b0) in *.
    specialize (IH (pre ++ [Some r]) rest).
    rewrite length_app in IH. cbn [length] in IH.
    replace (Z.of_nat (length pre + 1)) with (Z.of_nat (length pre) + 1)
      in IH by lia.
    destruct (tlas_writes transforms blases (Z.of_nat (length pre) + 1) ds)
      as [ws c].
    cbn [fst snd] in *. specialize (IH Hc).
    cbn [apply_writes fold_left fst snd length Nat.add repeat map].
    unfold apply_writes, AccelerationStructureInstanceList.write in IH |- *.
    rewrite Nat2Z.id, set_nth_middle.
    rewrite <- app_assoc in IH. cbn [app] in IH.
    rewrite IH, <- app_assoc. reflexivity.
Qed.

Lemma tlas_instance_list {F} (transforms : list (float4x4.t F))
  (blases : list AccelerationStructure.t) (ds : list Scene.InstanceDesc.t) :
  snd (tlas_writes transforms blases 0 ds) = true ->
  apply_writes (fst (tlas_writes transforms blases 0 ds))
    (AccelerationStructureInstanceList.create (Z.of_nat (length ds)))
  = map (fun w => Some (snd w)) (fst (tlas_writes transforms blases 0 ds)).
Proof.
  intros Hc.
  pose proof (apply_writes_fills transforms blases ds [] 0) as E.
  cbn [length app Z.of_nat repeat] in E.
  rewrite Nat.add_0_r, app_nil_r in E.
  unfold AccelerationStructureInstanceList.create. rewrite Nat2Z.id.
  exact (E Hc).
Qed.

(** ** Reading the log *)

Lemma submitted_app {F} (l1 l2 : list (Event F)) :
  submitted (l1 ++ l2) = submitted l1 ++ submitted l2.
Proof.
  induction l1 as [|e l1 IH]; [reflexivity|].
  destruct e; simpl; rewrite IH; reflexivity.
Qed.

Lemma submitted_create_buffers {F} (evs : list (Event F)) :
  Forall (fun ev => is_create_buffer ev = true) evs -> submitted evs = [].
Proof.
  induction 1 as [|e evs He _ IH]; [reflexivity|].
  destruct e; try discriminate. exact IH.
Qed.

Lemma submitted_write_events {F}
  (ws : list (Z * AccelerationStructureInstanceDesc.t F)) :
  submitted (write_events ws) = [].
Proof. induction ws as [|w ws IH]; [reflexivity | exact IH]. Qed.

Lemma builds_app {F} (l1 l2 : list (Event F)) :
  builds (l1 ++ l2) = builds l1 ++ builds l2.
Proof.
  unfold builds. rewrite submitted_app, concat_app, filter_app. reflexivity.
Qed.

Lemma tlas_builds_app {F} (l1 l2 : list (Event F)) :
  tlas_builds (l1 ++ l2) = tlas_builds l1 ++ tlas_builds l2.
Proof.
  unfold tlas_builds. rewrite submitted_app, concat_app, filter_app.
  reflexivity.
Qed.

Lemma submitted_blases_events {F} `{Spy F} (vb ib : Buffer.t F)
  (ms : list Scene.MeshDesc.t) :
  forall h,
    tlas_builds (blases_events_from vb ib h ms) = []
    /\ length (builds (blases_events_from vb ib h ms)) = length ms.
Proof.
  induction ms as [|m ms IH]; intros h; [split; reflexivity|].
  cbn [blases_events_from]. rewrite tlas_builds_app, builds_app.
  destruct (IH (h + 1)) as [E1 E2]. rewrite E1, length_app, E2.
  split; reflexivity.
Qed.

Lemma py_index_out_of_range {A} (xs : list A) (i : Z) :
  0 <= i -> ~ in_range (length xs) i -> is_ok (py_index xs i) = false.
Proof.
  unfold in_range, py_index. intros Hi Hn.
  replace (i <? 0) with false by (symmetry; apply Z.ltb_ge; lia).
  replace (i <? Z.of_nat (length xs)) with false
    by (symmetry; apply Z.ltb_ge; lia).
  rewrite andb_false_r. reflexivity.
Qed.

Lemma prepare_mesh_descs_length {F} (meshes : list (Mesh.t F)) :
  length (snd (Scene.prepare_mesh_descs meshes)) = length meshes.
Proof.
  destruct (Scene.prepare_mesh_descs meshes) as [[vc ic] ds] eqn:E.
  apply prepare_mesh_descs_spec in E. tauto.
Qed.

(** ** Claims about scene construction *)

(** C4.  For every ordered list of meshes, the descriptor at each mesh's
    position carries that mesh's counts, its vertex offset is the sum of
    the vertex counts of the meshes before it and its index offset the sum
    of their index counts; the scan is a function of the list, and
    extending the list leaves the descriptors already produced unchanged. *)
Theorem mesh_desc_offsets_are_prefix_sums {F} (meshes : list (Mesh.t F))
  (k : nat) (mesh : Mesh.t F) :
  nth_error meshes k = Some mesh ->
  (exists d,
      nth_error (snd (Scene.prepare_mesh_descs meshes)) k = Some d
      /\ Scene.MeshDesc.vertex_count d = Mesh.vertex_count mesh
      /\ Scene.MeshDesc.index_count d = Mesh.index_count mesh
      /\ Scene.MeshDesc.vertex_offset d
         = sum_Z (map (@Mesh.vertex_count F) (firstn k meshes))
      /\ Scene.MeshDesc.index_offset d
         = sum_Z (map (@Mesh.index_count F) (firstn k meshes)))
  /\ forall more,
      firstn (length meshes) (snd (Scene.prepare_mesh_descs (meshes ++ more)))
      = snd (Scene.prepare_mesh_descs meshes).
Proof.
  intros Hk. split.
  - destruct (Scene.prepare_mesh_descs meshes) as [[vc ic] ds] eqn:E.
    destruct (prepare_mesh_descs_spec _ E) as (_ & _ & Hl & Hn). cbn [snd].
    destruct (nth_error ds k) as [d|] eqn:Ed.
    + exists d. destruct (Hn _ _ Ed) as (m & Hm & H1 & H2 & H3 & H4).
      rewrite Hk in Hm. injection Hm as <-. auto.
    + apply nth_error_None in Ed.
      assert (k < length meshes)%nat by (apply nth_error_Some; congruence).
      lia.
  - intros more. clear Hk. induction more as [|m more IH] using rev_ind.
    + rewrite app_nil_r, <- (prepare_mesh_descs_length meshes) at 1.
      apply firstn_all.
    + rewrite app_assoc, prepare_mesh_descs_snoc.
      pose proof (prepare_mesh_descs_length (meshes ++ more)) as Hl.
      destruct (Scene.prepare_mesh_descs (meshes ++ more)) as [[vc ic] ds].
      cbn [snd Scene.mesh_descs_step] in *.
      rewrite firstn_app, IH.
      rewrite Hl, length_app.
      replace (length meshes - (length meshes + length more))%nat
        with 0%nat by lia.
      cbn [firstn]. apply app_nil_r.
Qed.

(** C4 at the quad-and-cube stage: the cube is preceded by the quad. *)
Lemma mesh_desc_offsets_are_prefix_sums_witness :
  (exists d,
      nth_error
        (snd (Scene.prepare_mesh_descs (Stage.meshes QSpy.quad_cube_stage))) 1
      = Some d
      /\ Scene.MeshDesc.vertex_count d = 24
      /\ Scene.MeshDesc.index_count d = 36
      /\ Scene.MeshDesc.vertex_offset d = 4
      /\ Scene.MeshDesc.index_offset d = 6)
  /\ forall more,
      firstn 2
        (snd (Scene.prepare_mesh_descs
                (Stage.meshes QSpy.quad_cube_stage ++ more)))
      = snd (Scene.prepare_mesh_descs (Stage.meshes QSpy.quad_cube_stage)).
Proof.
  exact (@mesh_desc_offsets_are_prefix_sums Q
           (Stage.meshes QSpy.quad_cube_stage) 1
           (Mesh.create_cube (float3.make 1 1 1)%Q) eq_refl).
Defined.

Lemma prepare_mesh_descs_counts {F} (meshes : list (Mesh.t F)) :
  map Scene.MeshDesc.vertex_count (snd (Scene.prepare_mesh_descs meshes))
  = map (@Mesh.vertex_count F) meshes
  /\ map Scene.MeshDesc.index_count (snd (Scene.prepare_mesh_descs meshes))
     = map (@Mesh.index_count F) meshes.
Proof.
  induction meshes as [|mesh meshes IH] using rev_ind; [split; reflexivity|].
  rewrite prepare_mesh_descs_snoc.
  destruct (Scene.prepare_mesh_descs meshes) as [[vc ic] ds].
  cbn [snd Scene.mesh_descs_step] in *. destruct IH as [IH1 IH2].
  rewrite !map_app, IH1, IH2. split; reflexivity.
Qed.

(** C5.  In every scene that was built, the vertex counts of the mesh
    descriptors add up to the number of vertex records in the vertex
    buffer, and their index counts to the number of indices in the index
    buffer. *)
Theorem descriptor_counts_sum_to_buffer_lengths {F} `{Spy F}
  (stage : Stage.t F) (dev dev' : Device.t F) (scene : Scene.t F) :
  Scene.init stage dev = (Ok scene, dev') ->
  sum_Z (map Scene.MeshDesc.vertex_count (Scene.mesh_descs scene))
  = vertex_buffer_length (Scene.vertex_buffer scene)
  /\ sum_Z (map Scene.MeshDesc.index_count (Scene.mesh_descs scene))
     = index_buffer_length (Scene.index_buffer scene).
Proof.
  intros Hinit.
  destruct (scene_init_ok _ _ Hinit)
    as (_ & _ & Hvb & Hib & Hmd & _).
  rewrite Hvb, Hib, Hmd.
  destruct (prepare_mesh_descs_counts (Stage.meshes stage)) as [-> ->].
  unfold vertex_buffer_length, index_buffer_length. cbn [Buffer.data].
  rewrite sum_vertex_counts, sum_index_counts. split; reflexivity.
Qed.

(** The quad-and-cube scene is built. *)
Lemma quad_cube_scene_built :
  exists scene dev',
    Scene.init QSpy.quad_cube_stage QSpy.device0 = (Ok scene, dev').
Proof.
  destruct (Scene.init QSpy.quad_cube_stage QSpy.device0) as [r dev'] eqn:E.
  assert (Hok : is_ok r = true).
  { change r with (fst (r, dev')). rewrite <- E. vm_compute. reflexivity. }
  destruct r as [scene|e]; [|discriminate]. eauto.
Defined.

(** C5 at the quad-and-cube scene. *)
Lemma descriptor_counts_sum_to_buffer_lengths_witness :
  exists scene dev',
    Scene.init QSpy.quad_cube_stage QSpy.device0 = (Ok scene, dev')
    /\ sum_Z (map Scene.MeshDesc.vertex_count (Scene.mesh_descs scene))
       = vertex_buffer_length (Scene.vertex_buffer scene)
    /\ sum_Z (map Scene.MeshDesc.index_count (Scene.mesh_descs scene))
       = index_buffer_length (Scene.index_buffer scene).
Proof.
  destruct quad_cube_scene_built as (scene & dev' & E).
  exists scene, dev'. split; [exact E|].
  exact (descriptor_counts_sum_to_buffer_lengths _ _ E).
Defined.

Lemma tlas_instance_lists_app {F} (l1 l2 : list (Event F)) :
  tlas_instance_lists (l1 ++ l2)
  = tlas_instance_lists l1 ++ tlas_instance_lists l2.
Proof.
  unfold tlas_instance_lists.
  rewrite submitted_app, concat_app, flat_map_app. reflexivity.
Qed.

Lemma tlas_instance_lists_blases_events {F} `{Spy F} (vb ib : Buffer.t F)
  (ms : list Scene.MeshDesc.t) :
  forall h, tlas_instance_lists (blases_events_from vb ib h ms) = [].
Proof.
  induction ms as [|m ms IH]; intros h; [reflexivity|].
  cbn [blases_events_from]. rewrite tlas_instance_lists_app, IH.
  reflexivity.
Qed.

(** What the events of a successful construction contribute to the
    observations of the log. *)
Lemma scene_init_ok_observed {F} `{Spy F} (stage : Stage.t F)
  (dev dev' : Device.t F) (scene : Scene.t F) :
  Scene.init stage dev = (Ok scene, dev') ->
  let ws :=
    tlas_writes (Scene.transforms scene) (Scene.blases scene) 0
                (Scene.instance_descs scene) in
  let l := map (fun w => Some (snd w)) (fst ws) in
  snd ws = true
  /\ length (Scene.blases scene) = length (Stage.meshes stage)
  /\ length (builds (Device.log dev'))
     = (length (builds (Device.log dev)) + length (Stage.meshes stage) + 1)%nat
  /\ tlas_instance_lists (Device.log dev')
     = tlas_instance_lists (Device.log dev) ++ [l]
  /\ tlas_builds (Device.log dev')
     = tlas_builds (Device.log dev)
         ++ [tlas_build_command l (AccelerationStructure.handle (Scene.tlas scene))]
  /\ Scene.tlas scene
     = tlas_of l (AccelerationStructure.handle (Scene.tlas scene)).
Proof.
  intros Hinit.
  destruct (scene_init_ok _ _ Hinit)
    as (Hc & _ & Hvb & Hib & Hmd & Hid & Htr & Hbl & Htl & evs & Hevs & Hlog).
  cbv zeta. rewrite Hid, Htr, Hbl. rewrite Hc.
  rewrite (tlas_instance_list _ _ _ Hc) in Htl, Hlog.
  split; [reflexivity|].
  split; [rewrite blases_from_length; apply prepare_mesh_descs_length|].
  rewrite Hlog, Htl. cbn [AccelerationStructure.handle tlas_of].
  rewrite !builds_app, !tlas_instance_lists_app, !tlas_builds_app.
  rewrite !length_app.
  rewrite (proj2 (submitted_blases_events _ _ _ _)).
  rewrite (proj1 (submitted_blases_events _ _ _ _)).
  rewrite tlas_instance_lists_blases_events.
  unfold builds at 2, tlas_instance_lists at 2, tlas_builds at 2.
  rewrite (submitted_create_buffers Hevs).
  unfold builds, tlas_instance_lists, tlas_builds.
  cbn [submitted]. rewrite submitted_app, submitted_write_events.
  cbn. rewrite prepare_mesh_descs_length.
  repeat split; rewrite ?app_nil_r; try reflexivity; lia.
Qed.

(** C3 (as amended).  The scene of one quad and one cube, with one instance
    of each at the identity transform, is built; its vertex buffer has 28
    vertex records, its index buffer 42 indices (14 triangles), two
    bottom-level structures are built, and the one top-level build receives
    an instance list of exactly two records. *)
Theorem quad_cube_scene_counts {F} `{Spy F} (quad_size : float2.t F)
  (cube_size base_color : float3.t F) (dev : Device.t F) :
  exists scene dev' l,
    Scene.init (quad_cube_demo quad_size cube_size base_color) dev
    = (Ok scene, dev')
    /\ vertex_buffer_length (Scene.vertex_buffer scene) = 28
    /\ index_buffer_length (Scene.index_buffer scene) = 42
    /\ length (Scene.blases scene) = 2%nat
    /\ length (builds (Device.log dev')) = (length (builds (Device.log dev)) + 3)%nat
    /\ tlas_instance_lists (Device.log dev')
       = tlas_instance_lists (Device.log dev) ++ [l]
    /\ length l = 2%nat
    /\ Forall (fun r => r <> None) l.
Proof.
  destruct (Scene.init (quad_cube_demo quad_size cube_size base_color) dev)
    as [r dev'] eqn:E.
  assert (Hok : is_ok r = true).
  { change r with (fst (r, dev')). rewrite <- E. vm_compute. reflexivity. }
  destruct r as [scene|e]; [|discriminate]. clear Hok.
  destruct (scene_init_ok _ _ E) as (_ & _ & Hvb & Hib & _ & Hid & _).
  destruct (scene_init_ok_observed _ _ E)
    as (Hc & Hbl & Hbuilds & Hlists & _).
  destruct (tlas_writes_complete _ _ _ _ Hc) as [Hlen _].
  exists scene, dev'. eexists.
  split; [reflexivity|].
  split; [rewrite Hvb; vm_compute; reflexivity|].
  split; [rewrite Hib; vm_compute; reflexivity|].
  split; [rewrite Hbl; reflexivity|].
  split; [rewrite Hbuilds; cbn; lia|].
  split; [exact Hlists|].
  split.
  - rewrite length_map, Hlen, Hid. reflexivity.
  - apply Forall_map. apply Forall_forall. intros w _. discriminate.
Qed.

(** C3 (as stated) fails on the index buffer: the scene is built and its
    index buffer holds 42 indices, so it does not hold 90. *)
Lemma quad_cube_index_buffer_length_is_not_90 :
  (exists scene dev',
      Scene.init QSpy.quad_cube_stage QSpy.device0 = (Ok scene, dev')
      /\ index_buffer_length (Scene.index_buffer scene) = 42)
  /\ ~ (exists scene dev',
           Scene.init QSpy.quad_cube_stage QSpy.device0 = (Ok scene, dev')
           /\ vertex_buffer_length (Scene.vertex_buffer scene) = 28
           /\ index_buffer_length (Scene.index_buffer scene) = 90).
Proof.
  destruct quad_cube_scene_built as (scene & dev' & E).
  assert (H42 : index_buffer_length (Scene.index_buffer scene) = 42).
  { destruct (scene_init_ok _ _ E) as (_ & _ & _ & -> & _).
    vm_compute. reflexivity. }
  split.
  - exists scene, dev'. split; assumption.
  - intros (scene1 & dev1 & E1 & _ & H90).
    rewrite E in E1. injection E1 as <- <-. rewrite H42 in H90. discriminate.
Qed.

Lemma py_index_In {A} (xs : list A) (i : Z) (a : A) :
  py_index xs i = Ok a -> In a xs.
Proof.
  unfold py_index. destruct (_ && _); [|discriminate].
  destruct (nth_error xs _) eqn:E; [|discriminate].
  intros [= <-]. eapply nth_error_In; eassumption.
Qed.

Lemma tlas_writes_In {F} (transforms : list (float4x4.t F))
  (blases : list AccelerationStructure.t) (ds : list Scene.InstanceDesc.t) :
  forall start i r,
    In (i, r) (fst (tlas_writes transforms blases start ds)) ->
    exists t b,
      In b blases /\ r = Scene.tlas_instance_desc t i b.
Proof.
  induction ds as [|d0 ds IH]; intros start i r Hin; [contradiction|].
  cbn [tlas_writes] in Hin.
  destruct (py_index transforms (Scene.InstanceDesc.transform_id d0))
    as [t0|] eqn:Et; [|contradiction].
  destruct (py_index blases (Scene.InstanceDesc.mesh_id d0))
    as [b0|] eqn:Eb; [|contradiction].
  specialize (IH (start + 1) i r).
  destruct (tlas_writes transforms blases (start + 1) ds) as [ws c].
  cbn [fst] in *. destruct Hin as [Hin|Hin].
  - injection Hin as <- <-. exists t0, b0.
    split; [eapply py_index_In; eassumption | reflexivity].
  - auto.
Qed.

Lemma instance_ids_fit {F} `{Spy F} (stage : Stage.t F)
  (dev dev' : Device.t F) (scene : Scene.t F) (i : nat)
  (mesh_id material_id transform_id : Z) :
  Scene.init stage dev = (Ok scene, dev') ->
  nth_error (Stage.instances stage) i = Some (mesh_id, material_id, transform_id) ->
  nth_error (Scene.instance_descs scene) i
  = Some (Scene.InstanceDesc.make mesh_id material_id transform_id)
  /\ fits_uint32 mesh_id /\ fits_uint32 material_id /\ fits_uint32 transform_id.
Proof.
  intros Hinit Hi.
  destruct (scene_init_ok _ _ Hinit) as (_ & (ibytes & Hpack) & _ & _ & _ & Hid & _).
  assert (Hn : nth_error (Scene.prepare_instance_descs (Stage.instances stage)) i
               = Some (Scene.InstanceDesc.make mesh_id material_id transform_id)).
  { unfold Scene.prepare_instance_descs.
    rewrite nth_error_map, Hi. reflexivity. }
  split; [rewrite Hid; exact Hn|].
  apply nth_error_In in Hn.
  exact (instance_pack_ok _ (join_packed_ok _ _ Hpack _ Hn)).
Qed.

(** C7 (as amended).  In a scene that was built, the instance list handed
    to the top-level build holds, at the position of every instance, the
    record made of the 3x4 form of the matrix stored for the transform named
    by the instance's transform id, the instance's position as instance id,
    the mask 0xFF, and the handle of the bottom-level structure that was
    built from the mesh descriptor named by the instance's mesh id.  The
    3x4 form is that of the whole stored matrix: for a transform that
    [update_matrix] has set, the product translation * rotation * scaling,
    scaling included. *)
Theorem tlas_instance_records {F} `{Spy F} (stage : Stage.t F)
  (dev dev' : Device.t F) (scene : Scene.t F) (i : nat)
  (mesh_id material_id transform_id : Z) :
  Scene.init stage dev = (Ok scene, dev') ->
  nth_error (Stage.instances stage) i = Some (mesh_id, material_id, transform_id) ->
  exists l transform blas mesh_desc,
    tlas_builds (Device.log dev')
    = tlas_builds (Device.log dev)
        ++ [tlas_build_command l (AccelerationStructure.handle (Scene.tlas scene))]
    /\ length l = length (Stage.instances stage)
    /\ nth_error (Stage.transforms stage) (Z.to_nat transform_id) = Some transform
    /\ nth_error (Scene.mesh_descs scene) (Z.to_nat mesh_id) = Some mesh_desc
    /\ nth_error (Scene.blases scene) (Z.to_nat mesh_id) = Some blas
    /\ In (submit_command_buffer
             [blas_build_command (Scene.vertex_buffer scene)
                (Scene.index_buffer scene) mesh_desc
                (AccelerationStructure.handle blas)])
          (Device.log dev')
    /\ nth_error l i
       = Some (Some (AccelerationStructureInstanceDesc.make
                       (float3x4.of_float4x4 (Transform.matrix transform))
                       (Z.of_nat i)
                       255
                       0
                       AccelerationStructureInstanceFlags.none
                       (AccelerationStructure.handle blas)))
    /\ forall self,
        transform = Transform.update_matrix self ->
        Transform.matrix transform
        = math_mul
            (math_mul (math_matrix_from_translation (Transform.translation self))
                      (math_matrix_from_rotation_xyz (Transform.rotation self)))
            (math_matrix_from_scaling (Transform.scaling self)).
Proof.
  intros Hinit Hi.
  destruct (instance_ids_fit _ _ _ Hinit Hi) as (Hdesc & Hm & _ & Ht).
  destruct (scene_init_ok_observed _ _ Hinit) as (Hc & _ & _ & _ & Htb & _).
  destruct (scene_init_ok _ _ Hinit)
    as (_ & _ & Hvb & Hib & Hmd & Hid & Htr & Hbl & _ & evs & _ & Hlog).
  cbv zeta in Hc, Htb.
  destruct (tlas_writes_complete _ _ _ _ Hc) as [Hlen Hn].
  destruct (Hn _ _ Hdesc) as (t & b & Hpt & Hpb & Hw).
  cbn [Scene.InstanceDesc.transform_id Scene.InstanceDesc.mesh_id] in Hpt, Hpb.
  unfold fits_uint32 in Hm, Ht.
  destruct (py_index_nonneg_ok _ (proj1 Ht) Hpt) as [_ Hnt].
  destruct (py_index_nonneg_ok _ (proj1 Hm) Hpb) as [Hrange Hnb].
  rewrite Htr, nth_error_map in Hnt.
  destruct (nth_error (Stage.transforms stage) (Z.to_nat transform_id))
    as [transform|] eqn:Etr; [|discriminate].
  injection Hnt as <-.
  assert (Hmdk : exists mesh_desc,
             nth_error (Scene.mesh_descs scene) (Z.to_nat mesh_id)
             = Some mesh_desc).
  { destruct (nth_error (Scene.mesh_descs scene) (Z.to_nat mesh_id)) eqn:E;
      [eauto|].
    apply nth_error_None in E. unfold in_range in Hrange.
    rewrite Hbl, blases_from_length, <- Hmd in Hrange. lia. }
  destruct Hmdk as [mesh_desc Hmdk].
  assert (Hb : b = blas_of (Scene.vertex_buffer scene) (Scene.index_buffer scene)
                 mesh_desc (Device.next_handle dev + Z.of_nat (Z.to_nat mesh_id))).
  { rewrite Hbl in Hnb. rewrite Hmd in Hmdk.
    rewrite (blases_from_nth _ _ _ _ _ Hmdk) in Hnb.
    injection Hnb as <-. rewrite Hvb, Hib. reflexivity. }
  eexists. exists transform, b, mesh_desc.
  split; [exact Htb|].
  split; [rewrite length_map, Hlen, Hid; apply length_map|].
  split; [reflexivity|].
  split; [assumption|].
  split; [assumption|].
  split.
  - rewrite Hlog. rewrite Hmd in Hmdk.
    destruct (blases_events_nth
                (Buffer.make BufferUsage.shader_resource "vertex_buffer"
                   (data_vertices
                      (concat (map (@Mesh.vertices F) (Stage.meshes stage)))))
                (Buffer.make BufferUsage.shader_resource "index_buffer"
                   (data_indices
                      (concat (map (@Mesh.indices F) (Stage.meshes stage)))))
                _ (Device.next_handle dev) _ Hmdk)
      as (before & after & Ev).
    rewrite Ev, Hb, Hvb, Hib. cbn [blas_of AccelerationStructure.handle].
    apply in_or_app. right. apply in_or_app. right.
    apply in_or_app. left. apply in_or_app. right. left. reflexivity.
  - split; [rewrite nth_error_map, Hw; reflexivity|].
    intros self ->. reflexivity.
Qed.

(** C7 at the quad-and-cube scene: the second instance, of the cube. *)
Lemma tlas_instance_records_witness :
  exists scene dev',
    Scene.init QSpy.quad_cube_stage QSpy.device0 = (Ok scene, dev')
    /\ exists l transform blas mesh_desc,
        tlas_builds (Device.log dev')
        = tlas_builds (Device.log QSpy.device0)
            ++ [tlas_build_command l
                  (AccelerationStructure.handle (Scene.tlas scene))]
        /\ length l = length (Stage.instances QSpy.quad_cube_stage)
        /\ nth_error (Stage.transforms QSpy.quad_cube_stage) (Z.to_nat 0)
           = Some transform
        /\ nth_error (Scene.mesh_descs scene) (Z.to_nat 1) = Some mesh_desc
        /\ nth_error (Scene.blases scene) (Z.to_nat 1) = Some blas
        /\ In (submit_command_buffer
                 [blas_build_command (Scene.vertex_buffer scene)
                    (Scene.index_buffer scene) mesh_desc
                    (AccelerationStructure.handle blas)])
              (Device.log dev')
        /\ nth_error l 1
           = Some (Some (AccelerationStructureInstanceDesc.make
                           (float3x4.of_float4x4 (Transform.matrix transform))
                           (Z.of_nat 1)
                           255
                           0
                           AccelerationStructureInstanceFlags.none
                           (AccelerationStructure.handle blas)))
        /\ forall self,
            transform = Transform.update_matrix self ->
            Transform.matrix transform
            = math_mul
                (math_mul
                   (math_matrix_from_translation (Transform.translation self))
                   (math_matrix_from_rotation_xyz (Transform.rotation self)))
                (math_matrix_from_scaling (Transform.scaling self)).
Proof.
  destruct quad_cube_scene_built as (scene & dev' & E).
  exists scene, dev'. split; [exact E|].
  exact (@tlas_instance_records Q _ QSpy.quad_cube_stage QSpy.device0 dev'
           scene 1%nat 1 0 0 E eq_refl).
Defined.

(** C7 (as stated) fails: the record does not hold a form of the transform
    reduced to rotation and translation.  For a cube whose transform was
    set up as [Stage.demo] sets up its transforms (attributes assigned,
    then [update_matrix]), one unit up and scaled by 2, 4 and 8, the
    construction succeeds and the record written for the instance holds
    the rows (2 0 0 0), (0 4 0 1), (0 0 8 0) of the stored matrix: the
    scaling is in it, and its linear part is not a rotation. *)
Lemma tlas_record_keeps_scaling :
  Stage.instances QExact.scaled_stage = [(0, 0, 0)]
  /\ Stage.transforms QExact.scaled_stage = [QExact.scaled_transform]
  /\ Transform.scaling QExact.scaled_transform = (float3.make 2 4 8)%Q
  /\ is_ok (fst (@Scene.init Q QExact.spy QExact.scaled_stage QSpy.device0))
     = true
  /\ exists record : AccelerationStructureInstanceDesc.t Q,
      tlas_instance_lists
        (Device.log
           (snd (@Scene.init Q QExact.spy QExact.scaled_stage QSpy.device0)))
      = [[Some record]]
      /\ AccelerationStructureInstanceDesc.transform record
         = float3x4.of_float4x4 (Transform.matrix QExact.scaled_transform)
      /\ AccelerationStructureInstanceDesc.transform record
         = (float3x4.make (float4.make 2 0 0 0) (float4.make 0 4 0 1)
                          (float4.make 0 0 8 0))%Q
      /\ QExact.rotation_translation_only
           (AccelerationStructureInstanceDesc.transform record)
         = false.
Proof.
  split; [reflexivity|]. split; [reflexivity|]. split; [reflexivity|].
  split; [vm_compute; reflexivity|].
  eexists. split; [vm_compute; reflexivity|].
  split; [vm_compute; reflexivity|].
  split; vm_compute; reflexivity.
Qed.

Lemma sum_Z_nonneg (xs : list Z) :
  Forall (fun x => 0 <= x) xs -> 0 <= sum_Z xs.
Proof.
  induction 1 as [|x xs Hx _ IH]; unfold sum_Z in *; simpl; lia.
Qed.

Lemma sum_Z_prefix_le (xs : list Z) (k : nat) (x : Z) :
  Forall (fun x => 0 <= x) xs ->
  nth_error xs k = Some x ->
  0 <= sum_Z (firstn k xs) /\ sum_Z (firstn k xs) + x <= sum_Z xs.
Proof.
  intros Hnn. revert k.
  induction Hnn as [|y ys Hy Hys IH]; intros [|k] Hk; try discriminate.
  - injection Hk as <-. pose proof (sum_Z_nonneg Hys).
    unfold sum_Z in *. simpl. lia.
  - simpl in Hk. destruct (IH _ Hk). unfold sum_Z in *. simpl. lia.
Qed.

Lemma vertex_counts_nonneg {F} (meshes : list (Mesh.t F)) :
  Forall (fun x => 0 <= x) (map (@Mesh.vertex_count F) meshes)
  /\ Forall (fun x => 0 <= x) (map (@Mesh.index_count F) meshes).
Proof.
  split; apply Forall_map, Forall_forall; intros m _;
    unfold Mesh.vertex_count, Mesh.index_count, Mesh.triangle_count; lia.
Qed.

(** C8.  In a scene that was built, the bottom-level structure of every
    mesh descriptor is built from one triangle input: the shared vertex
    buffer at byte offset vertex_offset * 32 with vertex_count vertices of
    stride 32, the shared index buffer at byte offset index_offset * 4
    with index_count indices, flagged opaque; both sub-ranges lie inside
    their buffers. *)
Theorem blas_build_inputs {F} `{Spy F} (stage : Stage.t F)
  (dev dev' : Device.t F) (scene : Scene.t F) (k : nat)
  (m : Scene.MeshDesc.t) :
  Scene.init stage dev = (Ok scene, dev') ->
  nth_error (Scene.mesh_descs scene) k = Some m ->
  exists blas scratch input,
    nth_error (Scene.blases scene) k = Some blas
    /\ In (submit_command_buffer
             [build_acceleration_structure
                (AccelerationStructureBuildDesc.make [input_triangles input])
                blas scratch])
          (Device.log dev')
    /\ AccelerationStructureBuildInputTriangles.vertex_buffers input
       = [BufferOffsetPair.make (Scene.vertex_buffer scene)
                                (Scene.MeshDesc.vertex_offset m * 32)]
    /\ AccelerationStructureBuildInputTriangles.vertex_count input
       = Scene.MeshDesc.vertex_count m
    /\ AccelerationStructureBuildInputTriangles.vertex_stride input = 32
    /\ AccelerationStructureBuildInputTriangles.index_buffer input
       = BufferOffsetPair.make (Scene.index_buffer scene)
                               (Scene.MeshDesc.index_offset m * 4)
    /\ AccelerationStructureBuildInputTriangles.index_count input
       = Scene.MeshDesc.index_count m
    /\ AccelerationStructureBuildInputTriangles.flags input
       = AccelerationStructureGeometryFlags.opaque
    /\ 0 <= Scene.MeshDesc.vertex_offset m * 32
    /\ Scene.MeshDesc.vertex_offset m * 32 + Scene.MeshDesc.vertex_count m * 32
       <= Buffer.size (Scene.vertex_buffer scene)
    /\ 0 <= Scene.MeshDesc.index_offset m * 4
    /\ Scene.MeshDesc.index_offset m * 4 + Scene.MeshDesc.index_count m * 4
       <= Buffer.size (Scene.index_buffer scene).
Proof.
  intros Hinit Hk.
  destruct (scene_init_ok _ _ Hinit)
    as (_ & _ & Hvb & Hib & Hmd & _ & _ & Hbl & _ & evs & _ & Hlog).
  rewrite Hmd in Hk.
  destruct (Scene.prepare_mesh_descs (Stage.meshes stage))
    as [[vc ic] ds] eqn:Ep.
  destruct (prepare_mesh_descs_spec _ Ep) as (_ & _ & _ & Hn).
  cbn [snd] in *.
  destruct (Hn _ _ Hk) as (mesh & Hmesh & Hvc & Hic & Hvo & Hio).
  destruct (vertex_counts_nonneg (Stage.meshes stage)) as [Hnv Hni].
  assert (Hkv : nth_error (map (@Mesh.vertex_count F) (Stage.meshes stage)) k
                = Some (Mesh.vertex_count mesh))
    by (rewrite nth_error_map, Hmesh; reflexivity).
  assert (Hki : nth_error (map (@Mesh.index_count F) (Stage.meshes stage)) k
                = Some (Mesh.index_count mesh))
    by (rewrite nth_error_map, Hmesh; reflexivity).
  destruct (@sum_Z_prefix_le _ _ _ Hnv Hkv) as [Hv0 Hv1].
  destruct (@sum_Z_prefix_le _ _ _ Hni Hki) as [Hi0 Hi1].
  rewrite <- !firstn_map in Hvo, Hio.
  rewrite sum_vertex_counts in Hv1. rewrite sum_index_counts in Hi1.
  exists (blas_of (Scene.vertex_buffer scene) (Scene.index_buffer scene) m
            (Device.next_handle dev + Z.of_nat k)),
         (blas_scratch (Scene.vertex_buffer scene) (Scene.index_buffer scene) m),
         (Scene.blas_build_input (Scene.vertex_buffer scene)
            (Scene.index_buffer scene) m).
  split.
  { rewrite Hbl, Hvb, Hib. apply blases_from_nth. exact Hk. }
  split.
  { rewrite Hlog, Hvb, Hib.
    destruct (blases_events_nth
                (Buffer.make BufferUsage.shader_resource "vertex_buffer"
                   (data_vertices
                      (concat (map (@Mesh.vertices F) (Stage.meshes stage)))))
                (Buffer.make BufferUsage.shader_resource "index_buffer"
                   (data_indices
                      (concat (map (@Mesh.indices F) (Stage.meshes stage)))))
                _ (Device.next_handle dev) _ Hk)
      as (before & after & Ev).
    rewrite Ev.
    apply in_or_app. right. apply in_or_app. right.
    apply in_or_app. left. apply in_or_app. right. left. reflexivity. }
  do 6 (split; [reflexivity|]).
  rewrite Hvb, Hib. unfold Buffer.size. cbn [Buffer.data].
  rewrite Hvo, Hio, Hvc, Hic. lia.
Qed.

(** C8 at the quad-and-cube scene: the descriptor of the cube. *)
Lemma blas_build_inputs_witness :
  exists scene dev' m,
    Scene.init QSpy.quad_cube_stage QSpy.device0 = (Ok scene, dev')
    /\ nth_error (Scene.mesh_descs scene) 1 = Some m
    /\ exists blas scratch input,
        nth_error (Scene.blases scene) 1 = Some blas
        /\ In (submit_command_buffer
                 [build_acceleration_structure
                    (AccelerationStructureBuildDesc.make [input_triangles input])
                    blas scratch])
              (Device.log dev')
        /\ AccelerationStructureBuildInputTriangles.vertex_buffers input
           = [BufferOffsetPair.make (Scene.vertex_buffer scene)
                                    (Scene.MeshDesc.vertex_offset m * 32)]
        /\ AccelerationStructureBuildInputTriangles.vertex_count input
           = Scene.MeshDesc.vertex_count m
        /\ AccelerationStructureBuildInputTriangles.vertex_stride input = 32
        /\ AccelerationStructureBuildInputTriangles.index_buffer input
           = BufferOffsetPair.make (Scene.index_buffer scene)
                                   (Scene.MeshDesc.index_offset m * 4)
        /\ AccelerationStructureBuildInputTriangles.index_count input
           = Scene.MeshDesc.index_count m
        /\ AccelerationStructureBuildInputTriangles.flags input
           = AccelerationStructureGeometryFlags.opaque
        /\ 0 <= Scene.MeshDesc.vertex_offset m * 32
        /\ Scene.MeshDesc.vertex_offset m * 32
           + Scene.MeshDesc.vertex_count m * 32
           <= Buffer.size (Scene.vertex_buffer scene)
        /\ 0 <= Scene.MeshDesc.index_offset m * 4
        /\ Scene.MeshDesc.index_offset m * 4 + Scene.MeshDesc.index_count m * 4
           <= Buffer.size (Scene.index_buffer scene).
Proof.
  destruct quad_cube_scene_built as (scene & dev' & E).
  assert (Hm : nth_error (Scene.mesh_descs scene) 1
               = Some (Scene.MeshDesc.make 24 36 4 6)).
  { destruct (scene_init_ok _ _ E) as (_ & _ & _ & _ & -> & _).
    vm_compute. reflexivity. }
  exists scene, dev', (Scene.MeshDesc.make 24 36 4 6).
  split; [exact E|]. split; [exact Hm|].
  exact (@blas_build_inputs Q _ QSpy.quad_cube_stage QSpy.device0 dev' scene
           1%nat (Scene.MeshDesc.make 24 36 4 6) E Hm).
Defined.

Lemma blases_from_In {F} `{Spy F} (vb ib : Buffer.t F)
  (ms : list Scene.MeshDesc.t) :
  forall h blas,
    In blas (blases_from vb ib h ms) ->
    exists m h',
      blas = blas_of vb ib m h'
      /\ In (submit_command_buffer [blas_build_command vb ib m h'])
            (blases_events_from vb ib h ms).
Proof.
  induction ms as [|m ms IH]; intros h blas Hin; [contradiction|].
  cbn [blases_from blases_events_from] in *. destruct Hin as [<-|Hin].
  - exists m, h. split; [reflexivity|].
    apply in_or_app. left. right. right. left. reflexivity.
  - destruct (IH _ _ Hin) as (m' & h' & E & Hin').
    exists m', h'. split; [assumption|]. apply in_or_app. right. assumption.
Qed.

Lemma blases_events_quiet {F} `{Spy F} (vb ib : Buffer.t F)
  (ms : list Scene.MeshDesc.t) :
  forall h,
    Forall (fun e => is_wait e = false /\ is_instance_write e = false)
           (blases_events_from vb ib h ms).
Proof.
  induction ms as [|m ms IH]; intros h; [constructor|].
  cbn [blases_events_from]. apply Forall_app. split; [|apply IH].
  repeat constructor.
Qed.

Lemma create_buffers_quiet {F} (evs : list (Event F)) :
  Forall (fun ev => is_create_buffer ev = true) evs ->
  Forall (fun e => is_wait e = false /\ is_instance_write e = false) evs.
Proof.
  apply Forall_impl. intros e He. destruct e; try discriminate.
  split; reflexivity.
Qed.

Lemma write_events_no_wait {F}
  (ws : list (Z * AccelerationStructureInstanceDesc.t F)) :
  Forall (fun e => is_wait e = false) (write_events ws).
Proof.
  unfold write_events. apply Forall_map, Forall_forall. intros w _.
  reflexivity.
Qed.

(** C9 (as amended).  The events of a successful scene construction are:
    first a part that submits the build of every bottom-level structure
    and writes no instance record, then a part that submits nothing and in
    which every instance record written names a bottom-level structure of
    the scene, and last the submission of the top-level build.  None of
    these events is a blocking wait. *)
Theorem scene_builds_submitted_in_dependency_order {F} `{Spy F}
  (stage : Stage.t F) (dev dev' : Device.t F) (scene : Scene.t F) :
  Scene.init stage dev = (Ok scene, dev') ->
  exists pre post l,
    Device.log dev'
    = Device.log dev ++ pre ++ post
        ++ [submit_command_buffer
              [tlas_build_command l
                 (AccelerationStructure.handle (Scene.tlas scene))]]
    /\ Forall (fun e => is_wait e = false) (pre ++ post)
    /\ Forall (fun e => is_instance_write e = false) pre
    /\ submitted post = []
    /\ (forall blas,
          In blas (Scene.blases scene) ->
          exists desc scratch,
            In (submit_command_buffer
                  [build_acceleration_structure desc blas scratch]) pre)
    /\ (forall index desc,
          In (instance_list_write index desc) post ->
          exists blas,
            In blas (Scene.blases scene)
            /\ AccelerationStructureInstanceDesc.acceleration_structure desc
               = AccelerationStructure.handle blas).
Proof.
  intros Hinit.
  destruct (scene_init_ok _ _ Hinit)
    as (Hc & _ & Hvb & Hib & Hmd & Hid & Htr & Hbl & Htl & evs & Hevs & Hlog).
  set (vb := Buffer.make BufferUsage.shader_resource "vertex_buffer"
               (data_vertices
                  (concat (map (@Mesh.vertices F) (Stage.meshes stage))))) in *.
  set (ib := Buffer.make BufferUsage.shader_resource "index_buffer"
               (data_indices
                  (concat (map (@Mesh.indices F) (Stage.meshes stage))))) in *.
  set (mds := snd (Scene.prepare_mesh_descs (Stage.meshes stage))) in *.
  set (ids := Scene.prepare_instance_descs (Stage.instances stage)) in *.
  set (ws := tlas_writes (map (@Transform.matrix F) (Stage.transforms stage))
               (blases_from vb ib (Device.next_handle dev) mds) 0 ids) in *.
  set (l := apply_writes (fst ws)
              (AccelerationStructureInstanceList.create
                 (Z.of_nat (length ids)))) in *.
  set (h' := Device.next_handle dev + Z.of_nat (length mds)) in *.
  exists (evs ++ blases_events_from vb ib (Device.next_handle dev) mds),
         (create_acceleration_structure_instance_list (Z.of_nat (length ids))
            :: write_events (fst ws)
            ++ [create_buffer (tlas_scratch l);
                create_acceleration_structure (tlas_of l h')]),
         l.
  pose proof (create_buffers_quiet Hevs) as Hq1.
  pose proof (blases_events_quiet vb ib mds (Device.next_handle dev)) as Hq2.
  split.
  { rewrite Hlog, Htl. cbn [tlas_of AccelerationStructure.handle].
    unfold tlas_tail_events.
    rewrite <- !app_assoc. cbn [app]. rewrite <- !app_assoc. reflexivity. }
  split.
  { rewrite <- app_assoc. apply Forall_app. split.
    - eapply Forall_impl; [|exact Hq1]. intros e [He1 He2]; assumption.
    - apply Forall_app. split.
      + eapply Forall_impl; [|exact Hq2]. intros e [He1 He2]; assumption.
      + constructor; [reflexivity|]. apply Forall_app. split.
        * apply write_events_no_wait.
        * repeat constructor. }
  split.
  { apply Forall_app. split.
    - eapply Forall_impl; [|exact Hq1]. intros e [He1 He2]; assumption.
    - eapply Forall_impl; [|exact Hq2]. intros e [He1 He2]; assumption. }
  split.
  { cbn [submitted]. rewrite submitted_app, submitted_write_events.
    reflexivity. }
  split.
  { intros blas Hin. rewrite Hbl in Hin.
    destruct (blases_from_In _ _ _ _ _ Hin) as (m & hb & -> & Hin').
    do 2 eexists. apply in_or_app. right. exact Hin'. }
  intros index desc Hin.
  destruct Hin as [Hin|Hin]; [discriminate|].
  apply in_app_or in Hin. destruct Hin as [Hin|Hin].
  - unfold write_events in Hin. apply in_map_iff in Hin.
    destruct Hin as ([i r] & E & Hin). cbn [fst snd] in E.
    injection E as <- <-.
    destruct (tlas_writes_In _ _ _ _ _ _ Hin) as (t & b & Hb & ->).
    exists b. rewrite Hbl. split; [assumption | reflexivity].
  - destruct Hin as [Hin|[Hin|[]]]; discriminate.
Qed.

(** C9 (as amended) at the quad-and-cube scene. *)
Lemma scene_builds_submitted_in_dependency_order_witness :
  exists scene dev',
    Scene.init QSpy.quad_cube_stage QSpy.device0 = (Ok scene, dev')
    /\ exists pre post l,
        Device.log dev'
        = Device.log QSpy.device0 ++ pre ++ post
            ++ [submit_command_buffer
                  [tlas_build_command l
                     (AccelerationStructure.handle (Scene.tlas scene))]]
        /\ Forall (fun e => is_wait e = false) (pre ++ post)
        /\ Forall (fun e => is_instance_write e = false) pre
        /\ submitted post = []
        /\ (forall blas,
              In blas (Scene.blases scene) ->
              exists desc scratch,
                In (submit_command_buffer
                      [build_acceleration_structure desc blas scratch]) pre)
        /\ (forall index desc,
              In (instance_list_write index desc) post ->
              exists blas,
                In blas (Scene.blases scene)
                /\ AccelerationStructureInstanceDesc.acceleration_structure desc
                   = AccelerationStructure.handle blas).
Proof.
  destruct quad_cube_scene_built as (scene & dev' & E).
  exists scene, dev'. split; [exact E|].
  exact (@scene_builds_submitted_in_dependency_order Q _
           QSpy.quad_cube_stage QSpy.device0 dev' scene E).
Defined.

(** C9 (as stated) fails: the quad-and-cube scene is built, its log holds
    no blocking wait, and the instance records and the top-level build
    follow the bottom-level build submissions without one. *)
Lemma scene_builds_are_not_awaited :
  exists scene dev',
    Scene.init QSpy.quad_cube_stage QSpy.device0 = (Ok scene, dev')
    /\ existsb (@is_wait Q) (Device.log dev') = false
    /\ length (builds (Device.log dev')) = 3%nat
    /\ builds_awaited (Device.log dev') = false.
Proof.
  destruct quad_cube_scene_built as (scene & dev' & E).
  exists scene, dev'. split; [exact E|].
  replace dev' with (snd (Scene.init QSpy.quad_cube_stage QSpy.device0))
    by (rewrite E; reflexivity).
  repeat split; vm_compute; reflexivity.
Qed.

(** ** The frame loop *)

Lemma path_tracer_execute_run {F} `{Spy F} (s : World.t F)
  (command_encoder : list (Command F)) (output : Texture.t) (frame : Z) :
  Texture.height output <> 0 ->
  let w := Texture.width output in
  let h := Texture.height output in
  let camera := traced_camera (World.camera s) w h in
  PathTracer.execute command_encoder output frame s
  = (Ok (command_encoder
           ++ [dispatch_rays output frame (Scene.bind (World.scene s) camera)
                             (w, h, 1)]),
     World.set_camera s camera).
Proof.
  intros Hh. apply Z.eqb_neq in Hh.
  destruct s as [dev sc cfg cam ctl scn acc rt at_ ot].
  unfold PathTracer.execute, traced_camera, Camera.recompute.
  world_cbn. rewrite Hh. world_cbn. reflexivity.
Qed.

Lemma accumulator_execute_run {F} (s : World.t F)
  (command_encoder : list (Command F)) (input output : Texture.t)
  (reset : bool) :
  let w := Texture.width input in
  let h := Texture.height input in
  let fresh := Accumulator.needs_texture (World.accumulator s) input in
  let accumulator :=
    if fresh then Texture.make "accumulator" w h
    else match World.accumulator s with
         | Some a => a
         | None => Texture.make "accumulator" w h
         end in
  Accumulator.execute command_encoder input output reset s
  = (Ok (command_encoder
           ++ [dispatch_accumulator (w, h, 1) input output accumulator reset]),
     if fresh
     then World.set_accumulator
            (World.set_device s
               (Device.make
                  (Device.log (World.device s) ++ [create_texture accumulator])
                  (Device.next_handle (World.device s))))
            (Some accumulator)
     else s).
Proof.
  destruct s as [[log nh] sc cfg cam ctl scn acc rt at_ ot].
  unfold Accumulator.execute. cbv zeta. world_cbn.
  destruct (Accumulator.needs_texture acc input) eqn:E.
  - world_cbn. reflexivity.
  - destruct acc as [a|]; [|discriminate]. world_cbn. reflexivity.
Qed.

(** One rendered frame, in closed form. *)
Lemma render_frame_run {F} `{Spy F} (s : World.t F)
  (surface_texture : Texture.t) (frame : Z) :
  textures_ok s ->
  Texture.height surface_texture <> 0 ->
  let w := Texture.width surface_texture in
  let h := Texture.height surface_texture in
  let stale := App.textures_stale (World.output_texture s) surface_texture in
  let render := Texture.make "render_texture" w h in
  let accum := Texture.make "accum_texture" w h in
  let output :=
    if stale then Texture.make "output_texture" w h
    else match World.output_texture s with
         | Some o => o
         | None => Texture.make "output_texture" w h
         end in
  let fresh := Accumulator.needs_texture (World.accumulator s) render in
  let accumulator :=
    if fresh then Texture.make "accumulator" w h
    else match World.accumulator s with
         | Some a => a
         | None => Texture.make "accumulator" w h
         end in
  let events :=
    (if stale
     then [create_texture output; create_texture render; create_texture accum]
     else [])
    ++ (if fresh then [create_texture accumulator] else [])
    ++ [submit_command_buffer
          (frame_commands s surface_texture output accumulator frame);
        surface_present] in
  App.render_frame surface_texture frame s
  = (Ok tt,
     World.make
       (Device.make (Device.log (World.device s) ++ events)
                    (Device.next_handle (World.device s)))
       (World.should_close s) (World.surface_config s)
       (traced_camera (World.camera s) w h)
       (World.camera_controller s) (World.scene s)
       (Some accumulator) (Some render) (Some accum) (Some output)).
Proof.
  intros Hok Hh.
  destruct s as [[log nh] sc cfg cam ctl scn acc rt at_ ot].
  destruct surface_texture as [sl sw sh].
  unfold textures_ok in Hok. world_cbn. cbn [World.output_texture] in Hok.
  cbv zeta. unfold frame_commands. world_cbn.
  unfold App.render_frame. world_cbn.
  assert (Hshape :
    exists s1 : World.t F,
      (if App.textures_stale ot (Texture.make sl sw sh)
       then App.reallocate_textures (Texture.make sl sw sh)
       else ret tt)
        (World.make (Device.make log nh) sc cfg cam ctl scn acc rt at_ ot)
      = (Ok tt, s1)
      /\ s1 = World.make
                (Device.make
                   (log ++
                      (if App.textures_stale ot (Texture.make sl sw sh)
                       then [create_texture (Texture.make "output_texture" sw sh);
                             create_texture (Texture.make "render_texture" sw sh);
                             create_texture (Texture.make "accum_texture" sw sh)]
                       else []))
                   nh)
                sc cfg cam ctl scn acc
                (Some (Texture.make "render_texture" sw sh))
                (Some (Texture.make "accum_texture" sw sh))
                (Some (if App.textures_stale ot (Texture.make sl sw sh)
                       then Texture.make "output_texture" sw sh
                       else match ot with
                            | Some o => o
                            | None => Texture.make "output_texture" sw sh
                            end))).
  { destruct (App.textures_stale ot (Texture.make sl sw sh)) eqn:Es.
    - eexists. split; [|reflexivity].
      unfold App.reallocate_textures. world_cbn.
      rewrite <- !app_assoc. reflexivity.
    - destruct ot as [[ol ow oh]|]; [|discriminate].
      cbn [World.render_texture World.accum_texture Texture.width
           Texture.height] in Hok.
      destruct Hok as [-> ->].
      unfold App.textures_stale in Es. world_cbn.
      cbn [Texture.width Texture.height] in Es.
      apply orb_false_iff in Es. destruct Es as [Ew Eh].
      apply negb_false_iff, Z.eqb_eq in Ew, Eh. subst ow oh.
      eexists. split; [reflexivity|]. rewrite app_nil_r. reflexivity. }
  destruct Hshape as (s1 & E1 & Es1).
  unfold bind at 1. rewrite E1. subst s1.
  unfold bind at 1. world_cbn.
  unfold bind at 1.
  rewrite path_tracer_execute_run by exact Hh.
  world_cbn.
  unfold bind at 1.
  rewrite accumulator_execute_run.
  world_cbn.
  destruct (App.textures_stale ot _);
    (destruct (Accumulator.needs_texture acc _) eqn:En;
     [|destruct acc as [a|]; [|discriminate En]]);
    unfold ToneMapper.execute; world_cbn;
    rewrite <- ?app_assoc; cbn [app]; rewrite ?app_nil_r; reflexivity.
Qed.

Lemma frame_resources_kept_refl {F} (s : World.t F) : frame_resources_kept s s.
Proof.
  unfold frame_resources_kept. repeat split.
  exists []. rewrite app_nil_r. split; reflexivity.
Qed.

Lemma frame_resources_kept_trans {F} (s1 s2 s3 : World.t F) :
  frame_resources_kept s1 s2 -> frame_resources_kept s2 s3 ->
  frame_resources_kept s1 s3.
Proof.
  intros (A1 & A2 & A3 & A4 & A5 & e1 & L1 & S1)
         (B1 & B2 & B3 & B4 & B5 & e2 & L2 & S2).
  unfold frame_resources_kept.
  repeat split; try congruence.
  exists (e1 ++ e2). rewrite L2, L1, app_assoc, submitted_app, S1, S2.
  split; reflexivity.
Qed.

Lemma on_keyboard_event_run {F} `{Spy F} (event : KeyboardEvent.t)
  (s : World.t F) :
  exists s',
    App.on_keyboard_event event s = (Ok tt, s') /\ frame_resources_kept s s'.
Proof.
  destruct s as [[log nh] sc cfg cam ctl scn acc rt at_ ot].
  destruct event as [ty key].
  unfold App.on_keyboard_event, KeyboardEvent.is_key_press.
  cbn [KeyboardEvent.type KeyboardEvent.key].
  destruct ty; destruct key; try destruct ot as [o|];
    world_cbn; eexists; (split; [reflexivity|]);
    unfold frame_resources_kept; world_cbn; repeat split;
    first [ exists []; rewrite app_nil_r; split; reflexivity
          | eexists; split; [reflexivity | reflexivity] ].
Qed.

Lemma on_mouse_event_run {F} `{Spy F} (event : MouseEvent.t F)
  (s : World.t F) :
  exists s',
    App.on_mouse_event event s = (Ok tt, s') /\ frame_resources_kept s s'.
Proof.
  destruct s as [[log nh] sc cfg cam ctl scn acc rt at_ ot].
  unfold App.on_mouse_event. world_cbn.
  eexists. split; [reflexivity|].
  unfold frame_resources_kept; world_cbn; repeat split.
  exists []. rewrite app_nil_r. split; reflexivity.
Qed.

Lemma on_resize_run {F} (width height : Z) (s : World.t F) :
  exists s',
    App.on_resize width height s = (Ok tt, s') /\ frame_resources_kept s s'.
Proof.
  destruct s as [[log nh] sc cfg cam ctl scn acc rt at_ ot].
  unfold App.on_resize. world_cbn.
  destruct ((0 <? width) && (0 <? height)); world_cbn;
    (eexists; split; [reflexivity|]);
    unfold frame_resources_kept; world_cbn; repeat split;
    eexists; (split; [rewrite <- app_assoc; reflexivity | reflexivity]).
Qed.

(** [process_events] always returns, and keeps the frame resources. *)
Lemma process_events_run {F} `{Spy F} (events : list (WindowEvent F)) :
  forall s : World.t F,
    exists s',
      App.process_events events s = (Ok tt, s') /\ frame_resources_kept s s'.
Proof.
  unfold App.process_events.
  induction events as [|ev events IH]; intros s.
  - exists s. split; [reflexivity | apply frame_resources_kept_refl].
  - cbn [for_each]. unfold bind at 1.
    assert (Hev : exists s1,
               match ev with
               | keyboard_event e => App.on_keyboard_event e
               | mouse_event e => App.on_mouse_event e
               | resize_event w h => App.on_resize w h
               end s = (Ok tt, s1) /\ frame_resources_kept s s1).
    { destruct ev; [apply on_keyboard_event_run | apply on_mouse_event_run
                    | apply on_resize_run]. }
    destruct Hev as (s1 & E1 & K1). rewrite E1.
    destruct (IH s1) as (s' & E' & K'). exists s'.
    split; [exact E' | eapply frame_resources_kept_trans; eassumption].
Qed.

(** [update] returns whether a move or a rotation was pending; it raises
    only when it has to recompute a camera of height 0. *)
Lemma controller_update_pair {F} `{Spy F} (dt : F) (cam : Camera.t F)
  (ctl : CameraController.t F) :
  let changed := CameraController.moving ctl || CameraController.rotating ctl in
  exists r cam' ctl',
    CameraController.update dt (cam, ctl) = (r, (cam', ctl'))
    /\ (r = Ok changed \/ (r = Raise ZeroDivisionError /\ changed = true)).
Proof.
  cbv zeta. unfold CameraController.update, Camera.recompute.
  unfold bind, get, modify, ret, lift_result.
  cbn [fst snd Camera.height Camera.set_pose].
  destruct (CameraController.moving ctl);
    destruct (CameraController.rotating ctl);
    cbn [fst snd Camera.height Camera.set_pose orb];
    try destruct (Camera.height cam =? 0);
    do 3 eexists; (split; [reflexivity|]); auto.
Qed.

Lemma controller_update_run {F} `{Spy F} (dt : F) (s : World.t F) :
  let changed :=
    CameraController.moving (World.camera_controller s)
    || CameraController.rotating (World.camera_controller s) in
  exists r s',
    World.on_controller (CameraController.update dt) s = (r, s')
    /\ frame_resources_kept s s'
    /\ World.surface_config s' = World.surface_config s
    /\ (r = Ok changed \/ (r = Raise ZeroDivisionError /\ changed = true)).
Proof.
  destruct s as [[log nh] sc cfg cam ctl scn acc rt at_ ot].
  cbv zeta. world_cbn. unfold World.on_controller. world_cbn.
  destruct (controller_update_pair dt cam ctl) as (r & cam' & ctl' & E & Hr).
  rewrite E. world_cbn. do 2 eexists. split; [reflexivity|].
  split; [|split; [reflexivity | exact Hr]].
  unfold frame_resources_kept; world_cbn; repeat split.
  exists []. rewrite app_nil_r. split; reflexivity.
Qed.

Lemma camera_step_run {F} `{Spy F} (input : FrameInput.t F) (s s1 : World.t F)
  (changed : bool) :
  App.camera_step input s = (Ok changed, s1) ->
  frame_resources_kept s s1
  /\ exists s0,
      App.process_events (FrameInput.events input) s = (Ok tt, s0)
      /\ World.surface_config s1 = World.surface_config s0
      /\ changed
         = CameraController.moving (World.camera_controller s0)
           || CameraController.rotating (World.camera_controller s0).
Proof.
  unfold App.camera_step. unfold bind at 1.
  destruct (process_events_run (FrameInput.events input) s) as (s0 & E0 & K0).
  rewrite E0.
  destruct (controller_update_run (FrameInput.dt input) s0)
    as (r & s' & E1 & K1 & C1 & Hr).
  rewrite E1. intros [= -> ->].
  split; [eapply frame_resources_kept_trans; eassumption|].
  exists s0. split; [reflexivity|]. split; [assumption|].
  destruct Hr as [Hr|[Hr _]]; [congruence | discriminate].
Qed.

Lemma frame_resources_kept_textures_ok {F} (s s' : World.t F) :
  frame_resources_kept s s' -> textures_ok s -> textures_ok s'.
Proof.
  intros (A1 & A2 & A3 & _). unfold textures_ok. rewrite A1, A2, A3. auto.
Qed.

Lemma skipn_own_prefix {A} (xs ys : list A) : skipn (length xs) (xs ++ ys) = ys.
Proof. induction xs as [|x xs IH]; [reflexivity | exact IH]. Qed.

(** One turn of the loop, once its head has returned: either the turn is
    skipped, or a frame is rendered on the state the head left. *)
Lemma main_loop_body_run {F} `{Spy F} (input : FrameInput.t F) (frame : Z)
  (s s1 : World.t F) (changed : bool) :
  App.camera_step input s = (Ok changed, s1) ->
  let frame' := if changed then 0 else frame in
  (World.surface_config s1 = None \/ FrameInput.next_image input = None ->
   App.main_loop_body input frame s = (Ok frame', s1))
  /\ forall width height,
      World.surface_config s1 <> None ->
      FrameInput.next_image input = Some (width, height) ->
      App.main_loop_body input frame s
      = let '(r, s') :=
          App.render_frame (Texture.make "surface" width height) frame' s1 in
        (match r with Ok _ => Ok (frame' + 1) | Raise e => Raise e end, s').
Proof.
  intros Hstep. cbv zeta. unfold App.main_loop_body.
  split.
  - intros Hskip.
    unfold bind at 1. rewrite Hstep. unfold bind at 1, get at 1.
    destruct Hskip as [Hc|Hn].
    + rewrite Hc. reflexivity.
    + rewrite Hn. destruct (World.surface_config s1); reflexivity.
  - intros width height Hc Hn.
    unfold bind at 1. rewrite Hstep. unfold bind at 1, get at 1.
    rewrite Hn.
    destruct (World.surface_config s1); [|contradiction].
    unfold bind at 1.
    destruct (App.render_frame _ _ s1) as [[[]|e] s']; reflexivity.
Qed.

(** What a rendered turn submits, and what it leaves. *)
Lemma rendered_turn {F} `{Spy F} (input : FrameInput.t F) (frame : Z)
  (s s1 : World.t F) (changed : bool) (width height : Z) :
  App.camera_step input s = (Ok changed, s1) ->
  World.surface_config s1 <> None ->
  FrameInput.next_image input = Some (width, height) ->
  height <> 0 ->
  textures_ok s1 ->
  let frame' := if changed then 0 else frame in
  let surface := Texture.make "surface" width height in
  let stale := App.textures_stale (World.output_texture s1) surface in
  let render := Texture.make "render_texture" width height in
  let fresh := Accumulator.needs_texture (World.accumulator s1) render in
  exists s' output accumulator,
    App.main_loop_body input frame s = (Ok (frame' + 1), s')
    /\ Device.log (World.device s')
       = Device.log (World.device s1)
           ++ (if stale
               then [create_texture (Texture.make "output_texture" width height);
                     create_texture render;
                     create_texture (Texture.make "accum_texture" width height)]
               else [])
           ++ (if fresh
               then [create_texture (Texture.make "accumulator" width height)]
               else [])
           ++ [submit_command_buffer
                 (frame_commands s1 surface output accumulator frame');
               surface_present]
    /\ World.output_texture s' = Some output
    /\ World.render_texture s' = Some render
    /\ World.accum_texture s'
       = Some (Texture.make "accum_texture" width height)
    /\ World.accumulator s' = Some accumulator
    /\ Texture.width output = width /\ Texture.height output = height
    /\ Texture.width accumulator = width /\ Texture.height accumulator = height
    /\ (stale = true -> output = Texture.make "output_texture" width height)
    /\ (stale = false -> World.output_texture s1 = Some output)
    /\ (fresh = true -> accumulator = Texture.make "accumulator" width height)
    /\ (fresh = false -> World.accumulator s1 = Some accumulator)
    /\ textures_ok s'.
Proof.
  intros Hstep Hc Hn Hh Hok. cbv zeta.
  destruct (@main_loop_body_run _ _ input frame s s1 changed Hstep)
    as [_ Hbody].
  rewrite (Hbody _ _ Hc Hn).
  rewrite render_frame_run by assumption.
  cbn [Texture.width Texture.height].
  eexists.
  exists (if App.textures_stale (World.output_texture s1)
               (Texture.make "surface" width height)
          then Texture.make "output_texture" width height
          else match World.output_texture s1 with
               | Some o => o
               | None => Texture.make "output_texture" width height
               end),
         (if Accumulator.needs_texture (World.accumulator s1)
               (Texture.make "render_texture" width height)
          then Texture.make "accumulator" width height
          else match World.accumulator s1 with
               | Some a => a
               | None => Texture.make "accumulator" width height
               end).
  split; [reflexivity|]. world_cbn.
  destruct (App.textures_stale _ _) eqn:Es;
    destruct (Accumulator.needs_texture _ _) eqn:En;
    cbn [Texture.width Texture.height].
  all: split; [reflexivity|].
  all: do 4 (split; [reflexivity|]).
  all: unfold textures_ok; world_cbn.
  all: try (destruct (World.output_texture s1) as [o|] eqn:Eo;
            [|discriminate Es];
            unfold App.textures_stale in Es;
            cbn [Texture.width Texture.height] in Es;
            apply orb_false_iff in Es; destruct Es as [Ew Eh];
            apply negb_false_iff, Z.eqb_eq in Ew, Eh).
  all: try (destruct (World.accumulator s1) as [a|] eqn:Ea;
            [|discriminate En];
            unfold Accumulator.needs_texture in En;
            cbn [Texture.width Texture.height] in En;
            apply orb_false_iff in En; destruct En as [Ew' Eh'];
            apply negb_false_iff, Z.eqb_eq in Ew', Eh').
  all: repeat split; try reflexivity; try congruence; try discriminate.
Qed.

Lemma world0_is_initial :
  App.init Camera.init QSpy.quad_cube_stage QSpy.device0
  = (Ok QSpy.world0, World.device QSpy.world0).
Proof. vm_compute. reflexivity. Qed.

(** What the events of a rendered turn show of the frame counter. *)
Lemma frame_events_observed {F} `{Spy F} (s : World.t F)
  (surface output accumulator : Texture.t) (frame : Z)
  (before : list (Event F)) :
  submitted before = [] ->
  let evs :=
    before
      ++ [submit_command_buffer
            (frame_commands s surface output accumulator frame);
          surface_present] in
  trace_frames evs = [frame] /\ accumulate_resets evs = [frame =? 0].
Proof.
  intros Hb. cbv zeta. unfold trace_frames, accumulate_resets.
  rewrite submitted_app, Hb. split; reflexivity.
Qed.

Lemma created_textures_submit_nothing {F} (b1 b2 : bool)
  (ts1 ts2 : list Texture.t) :
  submitted ((if b1 then map (@create_texture F) ts1 else [])
             ++ (if b2 then map (@create_texture F) ts2 else [])) = [].
Proof.
  rewrite submitted_app.
  assert (Hn : forall ts, submitted (map (@create_texture F) ts) = []).
  { induction ts as [|t ts IH]; [reflexivity | exact IH]. }
  destruct b1, b2; cbn [app]; rewrite ?Hn; reflexivity.
Qed.

(** C2 (as amended).  In a turn of the loop that renders, if the surface
    image's size differs from the output texture's (or no texture is
    allocated yet) the three intermediate textures are reallocated at the
    surface's size, and otherwise they are kept; the accumulator holds a
    buffer of the trace output's size afterwards, a new one when the old
    one mismatched.  The reset flag passed to Accumulate is true exactly
    when the frame counter is 0 at that point: when the camera controller
    reported a change in this turn, or the counter was still 0. *)
Theorem resize_reallocates_and_reset_follows_frame_counter {F} `{Spy F}
  (input : FrameInput.t F) (frame : Z) (s s1 : World.t F) (changed : bool)
  (width height : Z) :
  App.camera_step input s = (Ok changed, s1) ->
  World.surface_config s1 <> None ->
  FrameInput.next_image input = Some (width, height) ->
  height <> 0 ->
  textures_ok s1 ->
  let surface := Texture.make "surface" width height in
  let stale := App.textures_stale (World.output_texture s1) surface in
  let render := Texture.make "render_texture" width height in
  let fresh := Accumulator.needs_texture (World.accumulator s1) render in
  exists s' evs,
    App.main_loop_body input frame s
    = (Ok ((if changed then 0 else frame) + 1), s')
    /\ Device.log (World.device s') = Device.log (World.device s1) ++ evs
    /\ accumulate_resets evs = [changed || (frame =? 0)]
    /\ (stale = true ->
        World.output_texture s'
        = Some (Texture.make "output_texture" width height)
        /\ World.render_texture s' = Some render
        /\ World.accum_texture s'
           = Some (Texture.make "accum_texture" width height)
        /\ filter is_create_texture evs
           = [create_texture (Texture.make "output_texture" width height);
              create_texture render;
              create_texture (Texture.make "accum_texture" width height)]
             ++ (if fresh
                 then [create_texture (Texture.make "accumulator" width height)]
                 else []))
    /\ (stale = false ->
        World.output_texture s' = World.output_texture s1
        /\ World.render_texture s' = World.render_texture s1
        /\ World.accum_texture s' = World.accum_texture s1
        /\ filter is_create_texture evs
           = (if fresh
              then [create_texture (Texture.make "accumulator" width height)]
              else []))
    /\ (exists accumulator,
          World.accumulator s' = Some accumulator
          /\ Texture.width accumulator = width
          /\ Texture.height accumulator = height
          /\ (fresh = false -> World.accumulator s1 = Some accumulator)).
Proof.
  intros Hstep Hc Hn Hh Hok. cbv zeta.
  destruct (@rendered_turn _ _ input frame s s1 changed width height
              Hstep Hc Hn Hh Hok)
    as (s' & output & accumulator & Hbody & Hlog & Ho & Hr & Ha & Hacc
        & Hw & Hh' & Haw & Hah & Hstale & Hkept & Hfresh & Hold & Hok').
  exists s'. eexists.
  split; [exact Hbody|].
  split; [rewrite Hlog; reflexivity|].
  split.
  { pose proof (created_textures_submit_nothing (F:=F)
                  (App.textures_stale (World.output_texture s1)
                     (Texture.make "surface" width height))
                  (Accumulator.needs_texture (World.accumulator s1)
                     (Texture.make "render_texture" width height))
                  [Texture.make "output_texture" width height;
                   Texture.make "render_texture" width height;
                   Texture.make "accum_texture" width height]
                  [Texture.make "accumulator" width height]) as Hq.
    cbn [map] in Hq. rewrite app_assoc.
    rewrite (proj2 (@frame_events_observed _ _ _ _ _ _ _ _ Hq)).
    destruct changed; reflexivity. }
  split.
  { intros Es. rewrite Es in *. rewrite Ho, Hr, Ha, (Hstale eq_refl).
    repeat split.
    destruct (Accumulator.needs_texture _ _); reflexivity. }
  split.
  { intros Es. rewrite Es in *. rewrite Ho, Hr, Ha, (Hkept eq_refl).
    unfold textures_ok in Hok. rewrite (Hkept eq_refl) in Hok.
    destruct Hok as [Hrt Hat]. rewrite Hrt, Hat, Hw, Hh'.
    repeat split.
    destruct (Accumulator.needs_texture _ _); reflexivity. }
  exists accumulator. auto.
Qed.

(** C2 (as amended) at the turn that resizes the window after a first
    frame: the textures are reallocated at 1280x720 and the flag is
    false. *)
Lemma resize_reallocates_and_reset_follows_frame_counter_witness :
  exists (s' : World.t Q) (evs : list (Event Q)),
    App.main_loop_body QSpy.input_resized 1 QSpy.world1 = (Ok 2, s')
    /\ Device.log (World.device s')
       = Device.log
           (World.device (snd (App.camera_step QSpy.input_resized QSpy.world1)))
           ++ evs
    /\ World.output_texture s'
       = Some (Texture.make "output_texture" 1280 720)
    /\ accumulate_resets evs = [false].
Proof.
  pose (s1 := snd (App.camera_step QSpy.input_resized QSpy.world1)).
  assert (Hstep : App.camera_step QSpy.input_resized QSpy.world1
                  = (Ok false, s1)) by (vm_compute; reflexivity).
  assert (Hc : World.surface_config s1 <> None) by (vm_compute; discriminate).
  assert (Hh : 720 <> 0) by lia.
  assert (Hok : textures_ok s1) by (vm_compute; split; reflexivity).
  destruct (@resize_reallocates_and_reset_follows_frame_counter Q _
              QSpy.input_resized 1 QSpy.world1 s1 false 1280 720
              Hstep Hc eq_refl Hh Hok)
    as (s' & evs & Hbody & Hlog & Hreset & Hstale & _).
  exists s', evs. split; [exact Hbody|]. split; [exact Hlog|].
  split; [|exact Hreset].
  apply Hstale. vm_compute. reflexivity.
Defined.

(** C2 (as stated) fails: after a first frame at 1920x1080, a turn in
    which only the window is resized reallocates the three textures and
    the accumulation buffer at 1280x720, the camera controller reports no
    change, and Accumulate receives reset = false. *)
Lemma resize_alone_does_not_reset_accumulation :
  App.main_loop_body QSpy.input_first 0 QSpy.world0 = (Ok 1, QSpy.world1)
  /\ World.output_texture QSpy.world1
     = Some (Texture.make "output_texture" 1920 1080)
  /\ World.accumulator QSpy.world1
     = Some (Texture.make "accumulator" 1920 1080)
  /\ fst (App.camera_step QSpy.input_resized QSpy.world1) = Ok false
  /\ fst (App.main_loop_body QSpy.input_resized 1 QSpy.world1) = Ok 2
  /\ World.output_texture
       (snd (App.main_loop_body QSpy.input_resized 1 QSpy.world1))
     = Some (Texture.make "output_texture" 1280 720)
  /\ World.render_texture
       (snd (App.main_loop_body QSpy.input_resized 1 QSpy.world1))
     = Some (Texture.make "render_texture" 1280 720)
  /\ World.accum_texture
       (snd (App.main_loop_body QSpy.input_resized 1 QSpy.world1))
     = Some (Texture.make "accum_texture" 1280 720)
  /\ World.accumulator
       (snd (App.main_loop_body QSpy.input_resized 1 QSpy.world1))
     = Some (Texture.make "accumulator" 1280 720)
  /\ accumulate_resets
       (emitted_in (App.main_loop_body QSpy.input_resized 1) QSpy.world1)
     = [false].
Proof. repeat split; vm_compute; reflexivity. Qed.

(** C6.  The camera controller reports a change exactly when a move or a
    rotation delta is pending after the window events of the turn.  In a
    turn with a change the frame counter is set to 0: a rendered frame is
    traced with frame number 0, Accumulate receives reset = true, and the
    counter is 1 afterwards; a skipped turn leaves the counter at 0 and
    submits nothing.  In a turn without a change a rendered frame is traced
    with the current counter, which is one higher afterwards, and a skipped
    turn leaves the counter as it is. *)
Theorem camera_change_resets_frame_counter {F} `{Spy F}
  (input : FrameInput.t F) (frame : Z) (s s1 : World.t F) (changed : bool) :
  App.camera_step input s = (Ok changed, s1) ->
  (exists s0,
      App.process_events (FrameInput.events input) s = (Ok tt, s0)
      /\ changed
         = CameraController.moving (World.camera_controller s0)
           || CameraController.rotating (World.camera_controller s0))
  /\ (changed = true ->
      (World.surface_config s1 = None \/ FrameInput.next_image input = None ->
       App.main_loop_body input frame s = (Ok 0, s1))
      /\ forall width height,
          World.surface_config s1 <> None ->
          FrameInput.next_image input = Some (width, height) ->
          height <> 0 ->
          textures_ok s1 ->
          exists s' evs,
            App.main_loop_body input frame s = (Ok 1, s')
            /\ Device.log (World.device s')
               = Device.log (World.device s1) ++ evs
            /\ trace_frames evs = [0]
            /\ accumulate_resets evs = [true])
  /\ (changed = false ->
      (World.surface_config s1 = None \/ FrameInput.next_image input = None ->
       App.main_loop_body input frame s = (Ok frame, s1))
      /\ forall width height,
          World.surface_config s1 <> None ->
          FrameInput.next_image input = Some (width, height) ->
          height <> 0 ->
          textures_ok s1 ->
          exists s' evs,
            App.main_loop_body input frame s = (Ok (frame + 1), s')
            /\ Device.log (World.device s')
               = Device.log (World.device s1) ++ evs
            /\ trace_frames evs = [frame]
            /\ accumulate_resets evs = [frame =? 0]).
Proof.
  intros Hstep.
  destruct (@camera_step_run _ _ input s s1 changed Hstep)
    as (_ & s0 & E0 & _ & Hchanged).
  split; [eauto|].
  destruct (@main_loop_body_run _ _ input frame s s1 changed Hstep)
    as [Hskip _].
  assert (Hrender :
    forall width height,
      World.surface_config s1 <> None ->
      FrameInput.next_image input = Some (width, height) ->
      height <> 0 ->
      textures_ok s1 ->
      exists s' evs,
        App.main_loop_body input frame s
        = (Ok ((if changed then 0 else frame) + 1), s')
        /\ Device.log (World.device s') = Device.log (World.device s1) ++ evs
        /\ trace_frames evs = [if changed then 0 else frame]
        /\ accumulate_resets evs = [(if changed then 0 else frame) =? 0]).
  { intros width height Hc Hn Hh Hok.
    destruct (@rendered_turn _ _ input frame s s1 changed width height
                Hstep Hc Hn Hh Hok)
      as (s' & output & accumulator & Hbody & Hlog & _).
    exists s'. eexists. split; [exact Hbody|].
    split; [rewrite Hlog; reflexivity|].
    pose proof (created_textures_submit_nothing (F:=F)
                  (App.textures_stale (World.output_texture s1)
                     (Texture.make "surface" width height))
                  (Accumulator.needs_texture (World.accumulator s1)
                     (Texture.make "render_texture" width height))
                  [Texture.make "output_texture" width height;
                   Texture.make "render_texture" width height;
                   Texture.make "accum_texture" width height]
                  [Texture.make "accumulator" width height]) as Hq.
    cbn [map] in Hq. rewrite app_assoc.
    exact (@frame_events_observed _ _ _ _ _ _ _ _ Hq). }
  split; intros ->; (split; [exact Hskip | exact Hrender]).
Qed.

(** C6 at a turn in which the key [w] is pressed after a first frame: the
    frame is traced with frame number 0 and Accumulate is reset. *)
Lemma camera_change_resets_frame_counter_witness :
  exists (s' : World.t Q) (evs : list (Event Q)),
    App.main_loop_body QSpy.input_move 1 QSpy.world1 = (Ok 1, s')
    /\ Device.log (World.device s')
       = Device.log
           (World.device (snd (App.camera_step QSpy.input_move QSpy.world1)))
           ++ evs
    /\ trace_frames evs = [0]
    /\ accumulate_resets evs = [true].
Proof.
  pose (s1 := snd (App.camera_step QSpy.input_move QSpy.world1)).
  assert (Hstep : App.camera_step QSpy.input_move QSpy.world1 = (Ok true, s1))
    by (vm_compute; reflexivity).
  assert (Hc : World.surface_config s1 <> None) by (vm_compute; discriminate).
  assert (Hh : 1080 <> 0) by lia.
  assert (Hok : textures_ok s1) by (vm_compute; split; reflexivity).
  destruct (@camera_change_resets_frame_counter Q _ QSpy.input_move 1
              QSpy.world1 s1 true Hstep) as (_ & Htrue & _).
  destruct (Htrue eq_refl) as [_ Hrender].
  exact (Hrender 1920 1080 Hc eq_refl Hh Hok).
Defined.

(** C10.  Every call of [PathTracer.execute] on an output texture of width
    w and height h sets the width and height of the shared camera to w and
    h.  When h is not 0 it then replaces the camera by its recomputation
    before it records the trace dispatch, which binds the recomputed
    camera: the aspect ratio becomes w / h, and fwd, right, up, image_u,
    image_v and image_w are derived anew from position, target, up and
    fov; nothing else of the state changes. *)
Theorem path_tracer_execute_updates_camera {F} `{Spy F} (s : World.t F)
  (command_encoder : list (Command F)) (output : Texture.t) (frame : Z) :
  let w := Texture.width output in
  let h := Texture.height output in
  let c0 := World.camera s in
  let c1 := World.camera (snd (PathTracer.execute command_encoder output frame s)) in
  let half_fov := fmul (math_radians (Camera.fov c0)) (f_of_Q (1 # 2)) in
  Camera.width c1 = w
  /\ Camera.height c1 = h
  /\ (h <> 0 ->
      PathTracer.execute command_encoder output frame s
      = (Ok (command_encoder
               ++ [dispatch_rays output frame (Scene.bind (World.scene s) c1)
                                 (w, h, 1)]),
         World.set_camera s c1)
      /\ SceneBinding.camera (Scene.bind (World.scene s) c1) = Camera.bind c1
      /\ Camera.aspect_ratio c1 = fdiv (f_of_Z w) (f_of_Z h)
      /\ Camera.fwd c1
         = math_normalize (vsub (Camera.target c0) (Camera.position c0))
      /\ Camera.right c1
         = math_normalize (math_cross (Camera.fwd c1) (Camera.up c0))
      /\ Camera.up c1
         = math_normalize (math_cross (Camera.right c1) (Camera.fwd c1))
      /\ Camera.image_u c1
         = vscale (vscale (Camera.right c1) (math_tan half_fov))
                  (Camera.aspect_ratio c1)
      /\ Camera.image_v c1 = vscale (Camera.up c1) (math_tan half_fov)
      /\ Camera.image_w c1 = Camera.fwd c1
      /\ Camera.position c1 = Camera.position c0
      /\ Camera.target c1 = Camera.target c0
      /\ Camera.fov c1 = Camera.fov c0).
Proof.
  cbv zeta.
  assert (Hsize :
    Camera.width
      (World.camera (snd (PathTracer.execute command_encoder output frame s)))
    = Texture.width output
    /\ Camera.height
         (World.camera (snd (PathTracer.execute command_encoder output frame s)))
       = Texture.height output).
  { destruct s as [dev sc cfg cam ctl scn acc rt at_ ot].
    unfold PathTracer.execute, Camera.recompute. world_cbn.
    destruct (Texture.height output =? 0); world_cbn; split; reflexivity. }
  destruct Hsize as [Hw Hh]. split; [exact Hw|]. split; [exact Hh|].
  intros Hne. clear Hw Hh.
  rewrite path_tracer_execute_run by exact Hne.
  destruct s as [dev sc cfg cam ctl scn acc rt at_ ot].
  world_cbn. repeat split.
Qed.

(** C10 at the initial state: the default 100x100 camera becomes
    1920x1080 and the dispatch is recorded. *)
Lemma path_tracer_execute_updates_camera_witness :
  Camera.width (World.camera QSpy.world0) = 100
  /\ Camera.width
       (World.camera
          (snd (PathTracer.execute []
                  (Texture.make "render_texture" 1920 1080) 0 QSpy.world0)))
     = 1920
  /\ Camera.height
       (World.camera
          (snd (PathTracer.execute []
                  (Texture.make "render_texture" 1920 1080) 0 QSpy.world0)))
     = 1080
  /\ is_ok (fst (PathTracer.execute []
                   (Texture.make "render_texture" 1920 1080) 0 QSpy.world0))
     = true.
Proof.
  split; [reflexivity|].
  assert (Hh : Texture.height (Texture.make "render_texture" 1920 1080) <> 0)
    by (cbn; lia).
  destruct (@path_tracer_execute_updates_camera Q _ QSpy.world0 []
              (Texture.make "render_texture" 1920 1080) 0)
    as (Hw & Hh' & Hrest).
  split; [exact Hw|]. split; [exact Hh'|].
  destruct (Hrest Hh) as [E _]. rewrite E. reflexivity.
Defined.

(** The texture invariant assumed of the state after the head of a turn
    holds initially and is kept by every turn. *)
Lemma textures_ok_initially : textures_ok QSpy.world0.
Proof. exact I. Qed.

Lemma main_loop_body_keeps_textures_ok {F} `{Spy F} (input : FrameInput.t F)
  (frame : Z) (s s1 : World.t F) (changed : bool) :
  textures_ok s ->
  App.camera_step input s = (Ok changed, s1) ->
  (forall width height,
      FrameInput.next_image input = Some (width, height) -> height <> 0) ->
  textures_ok s1
  /\ textures_ok (snd (App.main_loop_body input frame s)).
Proof.
  intros Hok Hstep Hpos.
  destruct (@camera_step_run _ _ input s s1 changed Hstep) as (Hkept & _).
  assert (Hok1 : textures_ok s1)
    by (eapply frame_resources_kept_textures_ok; eassumption).
  split; [exact Hok1|].
  destruct (@main_loop_body_run _ _ input frame s s1 changed Hstep)
    as [Hskip _].
  destruct (World.surface_config s1) as [c|] eqn:Ec.
  - destruct (FrameInput.next_image input) as [[width height]|] eqn:En.
    + assert (Hc : World.surface_config s1 <> None) by congruence.
      destruct (@rendered_turn _ _ input frame s s1 changed width height
                  Hstep Hc En (Hpos _ _ eq_refl) Hok1)
        as (s' & output & accumulator & Hbody & Hrest).
      rewrite Hbody. cbn [snd]. repeat destruct Hrest as [_ Hrest].
      exact Hrest.
    + rewrite (Hskip (or_intror eq_refl)). exact Hok1.
  - rewrite Hskip by (left; congruence). exact Hok1.
Qed.

(** * Further properties of the code *)

(** ** Scene construction, outcome by outcome *)

Lemma join_packed_material {F} `{Spy F} (ds : list (Scene.MaterialDesc.t F)) :
  join_packed Scene.MaterialDesc.pack ds
  = Ok (concat (map (fun d =>
                       pack_f (float3.x (Scene.MaterialDesc.base_color d))
                       ++ pack_f (float3.y (Scene.MaterialDesc.base_color d))
                       ++ pack_f (float3.z (Scene.MaterialDesc.base_color d)))
                    ds)).
Proof.
  induction ds as [|d ds IH]; [reflexivity|].
  cbn [join_packed map concat]. rewrite IH. reflexivity.
Qed.

Lemma scene_init_run {F} `{Spy F} (stage : Stage.t F) (dev : Device.t F) :
  Scene.init stage dev = scene_init_outcome stage dev.
Proof.
  unfold scene_init_outcome, logged, bytes_buffer, vertex_buffer_of,
    index_buffer_of, transform_buffer_of, inverse_transpose_buffer_of,
    inverse_transposes_of, transforms_of, material_bytes, material_descs_of.
  cbv zeta.
  remember (Scene.init stage dev) as R eqn:ER.
  unfold Scene.init in ER.
  unfold bind at 1 in ER. unfold lift_result at 1 in ER.
  rewrite join_packed_material in ER.
  unfold bind at 1 in ER. step_device ER.
  destruct (Scene.prepare_mesh_descs (Stage.meshes stage))
    as [[vc ic] mds] eqn:Ep.
  destruct (prepare_mesh_descs_spec _ Ep) as (Hvc & Hic & Hlen & _).
  cbn [snd].
  unfold bind at 1 in ER. unfold lift_result at 1 in ER.
  destruct (Stage.meshes stage) as [|m0 ms] eqn:Emeshes.
  { cbn [map np_concatenate] in ER. exact ER. }
  assert (Hne : m0 :: ms <> []) by discriminate.
  revert ER Hne Hvc Hic Hlen. rewrite <- Emeshes. intros.
  rewrite !np_concatenate_map in ER by assumption.
  unfold bind at 1 in ER. unfold lift_result at 1 in ER.
  rewrite sum_vertex_counts in Hvc. rewrite sum_index_counts in Hic.
  unfold bind at 1 in ER. unfold Scene.assert_ at 1 in ER.
  rewrite <- Hvc, Z.eqb_refl in ER. unfold ret at 1 in ER.
  unfold bind at 1 in ER. unfold Scene.assert_ at 1 in ER.
  rewrite Hic, Z.div_mul, Z.eqb_refl in ER by lia. unfold ret at 1 in ER.
  unfold bind at 1 in ER. step_device ER.
  unfold bind at 1 in ER. unfold lift_result at 1 in ER.
  destruct (join_packed Scene.MeshDesc.pack mds) as [dbytes|e] eqn:Ed.
  2:{ rewrite ER, <- ?app_assoc. reflexivity. }
  unfold bind at 1 in ER. step_device ER.
  unfold lift_result at 1 in ER.
  destruct (join_packed Scene.InstanceDesc.pack _) as [ibytes|e] eqn:Ei.
  2:{ rewrite ER, <- ?app_assoc. reflexivity. }
  step_device ER.
  unfold lift_result at 1 in ER.
  destruct (Stage.transforms stage) as [|t0 ts] eqn:Etr.
  { cbn [map np_stack] in ER. rewrite ER, <- ?app_assoc. reflexivity. }
  assert (Hnt : t0 :: ts <> []) by discriminate.
  revert ER Hnt. rewrite <- Etr. intros.
  rewrite np_stack_map in ER by assumption.
  step_device ER.
  unfold lift_result at 1 in ER.
  rewrite np_stack_map in ER
    by (intros E; apply map_eq_nil in E; contradiction).
  step_device ER.
  unfold bind at 1 in ER. rewrite build_blases_run in ER.
  cbn [Device.log Device.next_handle] in ER.
  unfold bind at 1 in ER. rewrite build_tlas_run in ER.
  cbn [Device.log Device.next_handle] in ER. cbv zeta in ER.
  rewrite ER, Hlen. clear ER.
  rewrite <- ?app_assoc. cbn [app].
  destruct (snd (tlas_writes _ _ 0 _)).
  - cbn [ret]. rewrite <- ?app_assoc. cbn [app]. reflexivity.
  - reflexivity.
Qed.

Lemma join_packed_ok_iff {A} (pack : A -> result (list byte)) (ds : list A) :
  is_ok (join_packed pack ds) = true
  <-> Forall (fun d => is_ok (pack d) = true) ds.
Proof.
  induction ds as [|d ds IH]; cbn [join_packed].
  - split; [constructor | reflexivity].
  - destruct (pack d) eqn:Ed.
    + destruct (join_packed pack ds) eqn:Ej; cbn [is_ok] in *; split.
      * intros _. constructor; [rewrite Ed; reflexivity | apply IH; reflexivity].
      * reflexivity.
      * discriminate.
      * intros Hall. inversion Hall as [|? ? _ Hds]. apply IH in Hds.
        discriminate.
    + cbn [is_ok]. split; [discriminate|].
      intros Hall. inversion Hall as [|? ? Hd _]. rewrite Ed in Hd.
      discriminate.
Qed.

Lemma join_packed_raise {A} (pack : A -> result (list byte)) (ds : list A)
  (e : exn) :
  (forall d e', pack d = Raise e' -> e' = StructError) ->
  join_packed pack ds = Raise e -> e = StructError.
Proof.
  intros Hpack. induction ds as [|d ds IH]; cbn [join_packed]; [discriminate|].
  destruct (pack d) eqn:Ed.
  - destruct (join_packed pack ds); [discriminate|].
    intros [= <-]. apply IH. reflexivity.
  - intros [= <-]. eapply Hpack. eassumption.
Qed.

Lemma pack_I_ok_iff (v : Z) : is_ok (pack_I v) = true <-> fits_uint32 v.
Proof.
  unfold pack_I, fits_uint32.
  destruct ((0 <=? v) && (v <? 2 ^ 32)) eqn:E; cbn [is_ok].
  - apply andb_true_iff in E. destruct E as [E1 E2].
    apply Z.leb_le in E1. apply Z.ltb_lt in E2. split; [lia | reflexivity].
  - split; [discriminate|]. intros [H1 H2].
    apply Z.leb_le in H1. apply Z.ltb_lt in H2. rewrite H1, H2 in E.
    discriminate.
Qed.

Lemma pack_I_raise (v : Z) (e : exn) : pack_I v = Raise e -> e = StructError.
Proof. unfold pack_I. destruct (_ && _); congruence. Qed.

Lemma mesh_desc_pack_ok_iff (d : Scene.MeshDesc.t) :
  is_ok (Scene.MeshDesc.pack d) = true <-> mesh_desc_packable d.
Proof.
  unfold Scene.MeshDesc.pack, mesh_desc_packable.
  rewrite <- !pack_I_ok_iff.
  destruct (pack_I (Scene.MeshDesc.vertex_count d));
    destruct (pack_I (Scene.MeshDesc.index_count d));
    destruct (pack_I (Scene.MeshDesc.vertex_offset d));
    destruct (pack_I (Scene.MeshDesc.index_offset d));
    cbn [is_ok]; intuition discriminate.
Qed.

Lemma mesh_desc_pack_raise (d : Scene.MeshDesc.t) (e : exn) :
  Scene.MeshDesc.pack d = Raise e -> e = StructError.
Proof.
  unfold Scene.MeshDesc.pack.
  destruct (pack_I (Scene.MeshDesc.vertex_count d));
    destruct (pack_I (Scene.MeshDesc.index_count d));
    destruct (pack_I (Scene.MeshDesc.vertex_offset d));
    destruct (pack_I (Scene.MeshDesc.index_offset d)); congruence.
Qed.

Lemma instance_desc_pack_ok_iff (d : Scene.InstanceDesc.t) :
  is_ok (Scene.InstanceDesc.pack d) = true
  <-> fits_uint32 (Scene.InstanceDesc.mesh_id d)
      /\ fits_uint32 (Scene.InstanceDesc.material_id d)
      /\ fits_uint32 (Scene.InstanceDesc.transform_id d).
Proof.
  unfold Scene.InstanceDesc.pack. rewrite <- !pack_I_ok_iff.
  destruct (pack_I (Scene.InstanceDesc.mesh_id d));
    destruct (pack_I (Scene.InstanceDesc.material_id d));
    destruct (pack_I (Scene.InstanceDesc.transform_id d));
    cbn [is_ok]; intuition discriminate.
Qed.

Lemma instance_desc_pack_raise (d : Scene.InstanceDesc.t) (e : exn) :
  Scene.InstanceDesc.pack d = Raise e -> e = StructError.
Proof.
  unfold Scene.InstanceDesc.pack.
  destruct (pack_I (Scene.InstanceDesc.mesh_id d));
    destruct (pack_I (Scene.InstanceDesc.material_id d));
    destruct (pack_I (Scene.InstanceDesc.transform_id d)); congruence.
Qed.

Lemma py_index_ok_iff {A} (xs : list A) (i : Z) :
  0 <= i -> (is_ok (py_index xs i) = true <-> in_range (length xs) i).
Proof.
  intros Hi. split.
  - intros Hok. destruct (py_index xs i) as [a|] eqn:E; [|discriminate].
    apply (py_index_nonneg_ok _ Hi E).
  - intros Hr. destruct (py_index_ok _ Hr) as (a & -> & _). reflexivity.
Qed.

(** The loop of [build_tlas] completes exactly when both look-ups of every
    instance succeed. *)
Lemma tlas_writes_complete_iff {F} (transforms : list (float4x4.t F))
  (blases : list AccelerationStructure.t) (ds : list Scene.InstanceDesc.t) :
  forall start,
    snd (tlas_writes transforms blases start ds) = true
    <-> Forall (fun d =>
                  is_ok (py_index transforms (Scene.InstanceDesc.transform_id d))
                  = true
                  /\ is_ok (py_index blases (Scene.InstanceDesc.mesh_id d))
                     = true) ds.
Proof.
  induction ds as [|d ds IH]; intros start; cbn [tlas_writes].
  - split; [constructor | reflexivity].
  - specialize (IH (start + 1)).
    destruct (py_index transforms (Scene.InstanceDesc.transform_id d)) eqn:Et.
    + destruct (py_index blases (Scene.InstanceDesc.mesh_id d)) eqn:Eb.
      * destruct (tlas_writes transforms blases (start + 1) ds) as [ws c].
        cbn [snd] in *. split.
        -- intros Hc. constructor; [rewrite Et, Eb; split; reflexivity|].
           apply IH. exact Hc.
        -- intros Hall. inversion Hall as [|? ? _ Hds]. apply IH. exact Hds.
      * cbn [snd]. split; [discriminate|].
        intros Hall. inversion Hall as [|? ? [_ Hd] _]. rewrite Eb in Hd.
        discriminate.
    + cbn [snd]. split; [discriminate|].
      intros Hall. inversion Hall as [|? ? [Hd _] _]. rewrite Et in Hd.
      discriminate.
Qed.

(** X1.  Scene construction succeeds exactly when the stage has at least
    one mesh and one transform, every field of every mesh descriptor fits an
    unsigned 32-bit integer, and every instance has three ids that fit 32
    bits with a mesh id and a transform id inside their lists. *)
Theorem scene_init_succeeds_iff {F} `{Spy F} (stage : Stage.t F)
  (dev : Device.t F) :
  is_ok (fst (Scene.init stage dev)) = true
  <-> Stage.meshes stage <> []
      /\ Stage.transforms stage <> []
      /\ Forall mesh_desc_packable
                (snd (Scene.prepare_mesh_descs (Stage.meshes stage)))
      /\ Forall (instance_usable stage) (Stage.instances stage).
Proof.
  rewrite scene_init_run. unfold scene_init_outcome. cbv zeta.
  pose proof (join_packed_ok_iff Scene.MeshDesc.pack
                (snd (Scene.prepare_mesh_descs (Stage.meshes stage)))) as Hmd.
  pose proof (join_packed_ok_iff Scene.InstanceDesc.pack
                (Scene.prepare_instance_descs (Stage.instances stage))) as Hid.
  pose proof (prepare_mesh_descs_length (Stage.meshes stage)) as Hlen.
  assert (Hmdp :
    Forall (fun d => is_ok (Scene.MeshDesc.pack d) = true)
           (snd (Scene.prepare_mesh_descs (Stage.meshes stage)))
    <-> Forall mesh_desc_packable
               (snd (Scene.prepare_mesh_descs (Stage.meshes stage)))).
  { split; apply Forall_impl; intros d; apply mesh_desc_pack_ok_iff. }
  assert (Hidp :
    Forall (fun d => is_ok (Scene.InstanceDesc.pack d) = true)
           (Scene.prepare_instance_descs (Stage.instances stage))
    <-> Forall (fun inst => let '(a, b, c) := inst in
                            fits_uint32 a /\ fits_uint32 b /\ fits_uint32 c)
               (Stage.instances stage)).
  { unfold Scene.prepare_instance_descs. rewrite Forall_map.
    split; apply Forall_impl; intros [[a b] c];
      rewrite instance_desc_pack_ok_iff; cbn; tauto. }
  destruct (Stage.meshes stage) as [|m0 ms] eqn:Em.
  { cbn [fst is_ok]. split; [discriminate | intros [Hn _]; congruence]. }
  rewrite <- Em in *.
  destruct (join_packed Scene.MeshDesc.pack _) as [dbytes|e] eqn:Ed.
  2:{ cbn [fst is_ok] in *. split; [discriminate|].
      intros (_ & _ & Hfit & _). apply Hmdp, Hmd in Hfit. discriminate. }
  destruct (join_packed Scene.InstanceDesc.pack _) as [ibytes|e] eqn:Ei.
  2:{ cbn [fst is_ok] in *. split; [discriminate|].
      intros (_ & _ & _ & Hu).
      assert (Hfits : Forall (fun inst => let '(a, b, c) := inst in
                                fits_uint32 a /\ fits_uint32 b /\ fits_uint32 c)
                             (Stage.instances stage)).
      { eapply Forall_impl; [|exact Hu]. intros [[a b] c]. cbn. tauto. }
      apply Hidp, Hid in Hfits. discriminate. }
  destruct (Stage.transforms stage) as [|t0 ts] eqn:Et.
  { cbn [fst is_ok]. split; [discriminate | intros (_ & Hn & _); congruence]. }
  rewrite <- Et in *.
  assert (Hpacked :
    Forall (fun inst => let '(a, b, c) := inst in
                        fits_uint32 a /\ fits_uint32 b /\ fits_uint32 c)
           (Stage.instances stage))
    by (apply Hidp, Hid; reflexivity).
  assert (Hmfit : Forall mesh_desc_packable
                    (snd (Scene.prepare_mesh_descs (Stage.meshes stage))))
    by (apply Hmdp, Hmd; reflexivity).
  pose proof (tlas_writes_complete_iff (transforms_of stage)
                (blases_from (vertex_buffer_of stage) (index_buffer_of stage)
                   (Device.next_handle dev)
                   (snd (Scene.prepare_mesh_descs (Stage.meshes stage))))
                (Scene.prepare_instance_descs (Stage.instances stage)) 0) as Hw.
  unfold Scene.prepare_instance_descs in Hw at 2. rewrite Forall_map in Hw.
  assert (Husable :
    Forall (fun inst =>
              is_ok (py_index (transforms_of stage)
                       (Scene.InstanceDesc.transform_id
                          (let '(a, b, c) := inst in
                           Scene.InstanceDesc.make a b c))) = true
              /\ is_ok (py_index
                          (blases_from (vertex_buffer_of stage)
                             (index_buffer_of stage) (Device.next_handle dev)
                             (snd (Scene.prepare_mesh_descs (Stage.meshes stage))))
                          (Scene.InstanceDesc.mesh_id
                             (let '(a, b, c) := inst in
                              Scene.InstanceDesc.make a b c))) = true)
           (Stage.instances stage)
    <-> Forall (instance_usable stage) (Stage.instances stage)).
  { rewrite !Forall_forall. split; intros Hall inst Hin;
      specialize (Hall inst Hin);
      pose proof (proj1 (Forall_forall _ _) Hpacked inst Hin) as Hf;
      destruct inst as [[a b] c]; cbn in Hf |- *;
      destruct Hf as (Ha & Hb & Hc);
      cbn [Scene.InstanceDesc.transform_id Scene.InstanceDesc.mesh_id] in *;
      unfold fits_uint32 in Ha, Hb, Hc.
    - destruct Hall as [Ht' Hm'].
      apply py_index_ok_iff in Ht'; [|lia].
      apply py_index_ok_iff in Hm'; [|lia].
      unfold transforms_of in Ht'. rewrite length_map in Ht'.
      rewrite blases_from_length, Hlen in Hm'.
      unfold instance_usable, fits_uint32, in_range in *.
      repeat split; try lia.
    - unfold instance_usable in Hall. destruct Hall as (_ & _ & _ & Hm' & Ht').
      split; apply py_index_ok_iff; try lia.
      + unfold transforms_of. rewrite length_map. exact Ht'.
      + rewrite blases_from_length, Hlen. exact Hm'. }
  destruct (snd (tlas_writes _ _ 0 _)) eqn:Ec; cbn [fst is_ok].
  - split; [|reflexivity]. intros _.
    repeat split; try assumption; try congruence.
    apply Husable, Hw. reflexivity.
  - split; [discriminate|]. intros (_ & _ & _ & Hu).
    apply Husable, Hw in Hu. discriminate.
Qed.

(** X2.  Scene construction raises nothing but [ValueError] (an empty mesh
    or transform list), [StructError] (a value that does not fit a packed
    field) and [IndexError] (an instance id outside its list); in
    particular neither of its two assertions can fail. *)
Theorem scene_init_raises_only {F} `{Spy F} (stage : Stage.t F)
  (dev : Device.t F) (e : exn) :
  fst (Scene.init stage dev) = Raise e ->
  (e = ValueError
   /\ (Stage.meshes stage = [] \/ Stage.transforms stage = []))
  \/ (e = StructError /\ Stage.meshes stage <> [])
  \/ (e = IndexError
      /\ Stage.meshes stage <> [] /\ Stage.transforms stage <> []).
Proof.
  rewrite scene_init_run. unfold scene_init_outcome. cbv zeta.
  destruct (Stage.meshes stage) as [|m0 ms] eqn:Em.
  { cbn [fst]. intros [= <-]. left. split; [reflexivity | left; reflexivity]. }
  rewrite <- Em.
  assert (Hm : Stage.meshes stage <> []) by (rewrite Em; discriminate).
  destruct (join_packed Scene.MeshDesc.pack _) as [dbytes|e1] eqn:Ed.
  2:{ cbn [fst]. intros [= <-]. right. left. split; [|exact Hm].
      eapply join_packed_raise; [|exact Ed]. apply mesh_desc_pack_raise. }
  destruct (join_packed Scene.InstanceDesc.pack _) as [ibytes|e1] eqn:Ei.
  2:{ cbn [fst]. intros [= <-]. right. left. split; [|exact Hm].
      eapply join_packed_raise; [|exact Ei]. apply instance_desc_pack_raise. }
  destruct (Stage.transforms stage) as [|t0 ts] eqn:Et.
  { cbn [fst]. intros [= <-]. left. split; [reflexivity | right; reflexivity]. }
  destruct (snd (tlas_writes _ _ 0 _)); cbn [fst]; [discriminate|].
  intros [= <-]. right. right. repeat split; [exact Hm | discriminate].
Qed.

Lemma scene_init_raises_only_witness :
  fst (Scene.init QSpy.bad_mesh_stage QSpy.device0) = Raise IndexError
  /\ ((IndexError = ValueError
       /\ (Stage.meshes QSpy.bad_mesh_stage = []
           \/ Stage.transforms QSpy.bad_mesh_stage = []))
      \/ (IndexError = StructError /\ Stage.meshes QSpy.bad_mesh_stage <> [])
      \/ (IndexError = IndexError
          /\ Stage.meshes QSpy.bad_mesh_stage <> []
          /\ Stage.transforms QSpy.bad_mesh_stage <> [])).
Proof.
  split; [vm_compute; reflexivity|].
  apply (@scene_init_raises_only Q QSpy.spy QSpy.bad_mesh_stage QSpy.device0
           IndexError).
  vm_compute. reflexivity.
Defined.

Lemma create_buffers_no_builds {F} (evs : list (Event F)) :
  Forall (fun ev => is_create_buffer ev = true) evs ->
  submitted evs = [] /\ tlas_builds evs = [] /\ builds evs = [].
Proof.
  intros Hall. unfold tlas_builds, builds.
  rewrite (submitted_create_buffers Hall). repeat split.
Qed.

(** X3.  A scene construction that fails has submitted no top-level build.
    Unless the failure is an [IndexError] it has done nothing on the device
    but create buffers; an [IndexError] comes after the bottom-level build
    of every mesh has been submitted. *)
Theorem scene_init_failure_leaves_no_tlas {F} `{Spy F} (stage : Stage.t F)
  (dev : Device.t F) (e : exn) :
  fst (Scene.init stage dev) = Raise e ->
  exists evs,
    Device.log (snd (Scene.init stage dev)) = Device.log dev ++ evs
    /\ tlas_builds evs = []
    /\ (e <> IndexError ->
        Forall (fun ev => is_create_buffer ev = true) evs
        /\ Device.next_handle (snd (Scene.init stage dev))
           = Device.next_handle dev)
    /\ (e = IndexError ->
        length (builds evs) = length (Stage.meshes stage)).
Proof.
  rewrite scene_init_run. unfold scene_init_outcome, logged. cbv zeta.
  destruct (Stage.meshes stage) as [|m0 ms] eqn:Em.
  { cbn [fst snd Device.log]. intros [= <-]. eexists. split; [reflexivity|].
    split; [reflexivity|]. split; [|discriminate].
    intros _. split; [repeat constructor | reflexivity]. }
  rewrite <- Em.
  destruct (join_packed Scene.MeshDesc.pack _) as [dbytes|e1] eqn:Ed.
  2:{ cbn [fst snd Device.log]. intros [= <-].
      eexists. split; [reflexivity|]. split; [reflexivity|]. split.
      - intros _. split; [repeat constructor | reflexivity].
      - intros ->. apply join_packed_raise in Ed; [discriminate|].
        apply mesh_desc_pack_raise. }
  destruct (join_packed Scene.InstanceDesc.pack _) as [ibytes|e1] eqn:Ei.
  2:{ cbn [fst snd Device.log]. intros [= <-].
      eexists. split; [reflexivity|]. split; [reflexivity|]. split.
      - intros _. split; [repeat constructor | reflexivity].
      - intros ->. apply join_packed_raise in Ei; [discriminate|].
        apply instance_desc_pack_raise. }
  destruct (Stage.transforms stage) as [|t0 ts] eqn:Et.
  { cbn [fst snd Device.log]. intros [= <-].
    eexists. split; [reflexivity|]. split; [reflexivity|]. split.
    - intros _. split; [repeat constructor | reflexivity].
    - discriminate. }
  destruct (snd (tlas_writes _ _ 0 _)); cbn [fst snd Device.log];
    [discriminate|].
  intros [= <-]. eexists. split; [reflexivity|].
  pose proof (submitted_blases_events (vertex_buffer_of stage)
                (index_buffer_of stage)
                (snd (Scene.prepare_mesh_descs (Stage.meshes stage)))
                (Device.next_handle dev)) as [Hb1 Hb2].
  rewrite prepare_mesh_descs_length in Hb2.
  split; [|split; [intros Hne; congruence|intros _]].
  - rewrite !tlas_builds_app, Hb1. cbn [app].
    unfold tlas_builds. cbn [submitted]. rewrite submitted_write_events.
    reflexivity.
  - rewrite !builds_app, !length_app, Hb2.
    unfold builds. cbn [submitted]. rewrite submitted_write_events.
    cbn [concat filter length]. lia.
Qed.

Lemma scene_init_failure_leaves_no_tlas_witness :
  fst (Scene.init QSpy.bad_mesh_stage QSpy.device0) = Raise IndexError
  /\ exists evs : list (Event Q),
      Device.log (snd (Scene.init QSpy.bad_mesh_stage QSpy.device0))
      = Device.log QSpy.device0 ++ evs
      /\ tlas_builds evs = []
      /\ length (builds evs) = 2%nat.
Proof.
  split; [vm_compute; reflexivity|].
  destruct (@scene_init_failure_leaves_no_tlas Q QSpy.spy QSpy.bad_mesh_stage
              QSpy.device0 IndexError)
    as (evs & Hlog & Htlas & _ & Hidx); [vm_compute; reflexivity|].
  exists evs. repeat split; [exact Hlog | exact Htlas |].
  rewrite (Hidx eq_refl). reflexivity.
Defined.

Lemma join_packed_length {A} (pack : A -> result (list byte)) (n : nat)
  (ds : list A) :
  (forall d b, pack d = Ok b -> length b = n) ->
  forall bs, join_packed pack ds = Ok bs -> length bs = (n * length ds)%nat.
Proof.
  intros Hn. induction ds as [|d ds IH]; cbn [join_packed]; intros bs.
  - intros [= <-]. cbn. lia.
  - destruct (pack d) as [b|] eqn:Ed; [|discriminate].
    destruct (join_packed pack ds) as [bs'|]; [|discriminate].
    intros [= <-]. rewrite length_app, (Hn _ _ Ed), (IH _ eq_refl).
    cbn [length]. lia.
Qed.

Lemma pack_I_length (v : Z) (b : list byte) :
  pack_I v = Ok b -> length b = 4%nat.
Proof.
  unfold pack_I. destruct (_ && _); [|discriminate].
  intros [= <-]. reflexivity.
Qed.

Lemma mesh_desc_pack_length (d : Scene.MeshDesc.t) (b : list byte) :
  Scene.MeshDesc.pack d = Ok b -> length b = 16%nat.
Proof.
  unfold Scene.MeshDesc.pack.
  destruct (pack_I (Scene.MeshDesc.vertex_count d)) eqn:E1; [|discriminate].
  destruct (pack_I (Scene.MeshDesc.index_count d)) eqn:E2; [|discriminate].
  destruct (pack_I (Scene.MeshDesc.vertex_offset d)) eqn:E3; [|discriminate].
  destruct (pack_I (Scene.MeshDesc.index_offset d)) eqn:E4; [|discriminate].
  intros [= <-]. rewrite !length_app.
  rewrite (pack_I_length _ E1), (pack_I_length _ E2), (pack_I_length _ E3),
    (pack_I_length _ E4). reflexivity.
Qed.

Lemma instance_desc_pack_length (d : Scene.InstanceDesc.t) (b : list byte) :
  Scene.InstanceDesc.pack d = Ok b -> length b = 12%nat.
Proof.
  unfold Scene.InstanceDesc.pack.
  destruct (pack_I (Scene.InstanceDesc.mesh_id d)) eqn:E1; [|discriminate].
  destruct (pack_I (Scene.InstanceDesc.material_id d)) eqn:E2; [|discriminate].
  destruct (pack_I (Scene.InstanceDesc.transform_id d)) eqn:E3; [|discriminate].
  intros [= <-]. rewrite !length_app.
  rewrite (pack_I_length _ E1), (pack_I_length _ E2), (pack_I_length _ E3).
  reflexivity.
Qed.

(** X4.  In a scene that was built, the mesh-descriptor buffer holds 16
    bytes for every mesh of the stage and the instance-descriptor buffer 12
    bytes for every instance; the two transform buffers hold one matrix for
    every transform, the second the transposed inverse of the first, entry
    by entry; and there is one bottom-level structure for every mesh. *)
Theorem scene_descriptor_buffers {F} `{Spy F} (stage : Stage.t F)
  (dev dev' : Device.t F) (scene : Scene.t F) :
  Scene.init stage dev = (Ok scene, dev') ->
  exists mesh_bytes instance_bytes,
    Buffer.data (Scene.mesh_descs_buffer scene) = data_bytes mesh_bytes
    /\ length mesh_bytes = (16 * length (Stage.meshes stage))%nat
    /\ Buffer.data (Scene.instance_descs_buffer scene)
       = data_bytes instance_bytes
    /\ length instance_bytes = (12 * length (Stage.instances stage))%nat
    /\ Buffer.data (Scene.transform_buffer scene)
       = data_matrices (Scene.transforms scene)
    /\ Buffer.data (Scene.inverse_transpose_transforms_buffer scene)
       = data_matrices
           (map (fun t => math_transpose (math_inverse t))
                (Scene.transforms scene))
    /\ Scene.transforms scene
       = map (@Transform.matrix F) (Stage.transforms stage)
    /\ length (Scene.material_descs scene) = length (Stage.materials stage)
    /\ length (Scene.blases scene) = length (Stage.meshes stage).
Proof.
  rewrite scene_init_run. unfold scene_init_outcome. cbv zeta.
  destruct (Stage.meshes stage) as [|m0 ms] eqn:Em; [discriminate|].
  rewrite <- Em.
  destruct (join_packed Scene.MeshDesc.pack _) as [dbytes|e1] eqn:Ed;
    [|discriminate].
  destruct (join_packed Scene.InstanceDesc.pack _) as [ibytes|e1] eqn:Ei;
    [|discriminate].
  destruct (Stage.transforms stage) as [|t0 ts] eqn:Et; [discriminate|].
  rewrite <- Et.
  destruct (snd (tlas_writes _ _ 0 _)); [|discriminate].
  intros [= <- _]. cbn [Scene.mesh_descs_buffer Scene.instance_descs_buffer
                        Scene.transform_buffer Scene.transforms
                        Scene.inverse_transpose_transforms_buffer
                        Scene.material_descs Scene.blases].
  exists dbytes, ibytes.
  apply (@join_packed_length _ Scene.MeshDesc.pack 16 _
           mesh_desc_pack_length) in Ed.
  apply (@join_packed_length _ Scene.InstanceDesc.pack 12 _
           instance_desc_pack_length) in Ei.
  rewrite prepare_mesh_descs_length in Ed.
  unfold Scene.prepare_instance_descs in Ei. rewrite length_map in Ei.
  repeat split; try assumption.
  - unfold material_descs_of. apply length_map.
  - rewrite blases_from_length. apply prepare_mesh_descs_length.
Qed.

Lemma scene_descriptor_buffers_witness :
  exists (scene : Scene.t Q) (mesh_bytes instance_bytes : list byte),
    fst (Scene.init QSpy.quad_cube_stage QSpy.device0) = Ok scene
    /\ Buffer.data (Scene.mesh_descs_buffer scene) = data_bytes mesh_bytes
    /\ length mesh_bytes = 32%nat
    /\ Buffer.data (Scene.instance_descs_buffer scene)
       = data_bytes instance_bytes
    /\ length instance_bytes = 24%nat.
Proof.
  destruct (Scene.init QSpy.quad_cube_stage QSpy.device0) as [r dev'] eqn:E.
  destruct r as [scene|e]; [|vm_compute in E; discriminate].
  destruct (@scene_descriptor_buffers Q QSpy.spy QSpy.quad_cube_stage
              QSpy.device0 dev' scene E)
    as (mb & ib & H1 & H2 & H3 & H4 & _).
  exists scene, mb, ib. repeat split; assumption.
Defined.

(** X5.  When the meshes of a stage hold fewer than 2^32 vertices and fewer
    than 2^32 indices in total, every field of every mesh descriptor can be
    packed as an unsigned 32-bit integer. *)
Theorem mesh_descs_packable_below_totals {F} (meshes : list (Mesh.t F)) :
  sum_Z (map (@Mesh.vertex_count F) meshes) < 2 ^ 32 ->
  sum_Z (map (@Mesh.index_count F) meshes) < 2 ^ 32 ->
  Forall mesh_desc_packable (snd (Scene.prepare_mesh_descs meshes)).
Proof.
  intros Hv Hi.
  destruct (Scene.prepare_mesh_descs meshes) as [[vc ic] ds] eqn:E.
  destruct (prepare_mesh_descs_spec _ E) as (_ & _ & _ & Hnth).
  destruct (vertex_counts_nonneg meshes) as [Hvn Hin].
  cbn [snd]. apply Forall_forall. intros d Hd.
  apply In_nth_error in Hd. destruct Hd as [k Hk].
  destruct (Hnth _ _ Hk) as (mesh & Hm & E1 & E2 & E3 & E4).
  assert (Hkv : nth_error (map (@Mesh.vertex_count F) meshes) k
                = Some (Mesh.vertex_count mesh))
    by (rewrite nth_error_map, Hm; reflexivity).
  assert (Hki : nth_error (map (@Mesh.index_count F) meshes) k
                = Some (Mesh.index_count mesh))
    by (rewrite nth_error_map, Hm; reflexivity).
  destruct (sum_Z_prefix_le _ Hvn Hkv) as [Hv1 Hv2].
  destruct (sum_Z_prefix_le _ Hin Hki) as [Hi1 Hi2].
  rewrite firstn_map in Hv1, Hv2, Hi1, Hi2.
  assert (0 <= Mesh.vertex_count mesh)
    by (unfold Mesh.vertex_count; lia).
  assert (0 <= Mesh.index_count mesh)
    by (unfold Mesh.index_count, Mesh.triangle_count; lia).
  unfold mesh_desc_packable, fits_uint32. rewrite E1, E2, E3, E4.
  repeat split; lia.
Qed.

Lemma mesh_descs_packable_below_totals_witness :
  Forall mesh_desc_packable
         (snd (Scene.prepare_mesh_descs (Stage.meshes QSpy.quad_cube_stage))).
Proof.
  apply (@mesh_descs_packable_below_totals Q
           (Stage.meshes QSpy.quad_cube_stage));
    vm_compute; reflexivity.
Defined.

(** ** Scene construction and the ids of the instances *)

(** Where the loop of [build_tlas] stops: at the first instance one of
    whose two look-ups fails, having written the records before it. *)
Lemma tlas_writes_stops {F} (transforms : list (float4x4.t F))
  (blases : list AccelerationStructure.t) (ds : list Scene.InstanceDesc.t) :
  forall start,
    snd (tlas_writes transforms blases start ds) = false ->
    exists k d,
      nth_error ds k = Some d
      /\ length (fst (tlas_writes transforms blases start ds)) = k
      /\ ~ (is_ok (py_index transforms (Scene.InstanceDesc.transform_id d))
            = true
            /\ is_ok (py_index blases (Scene.InstanceDesc.mesh_id d)) = true)
      /\ Forall (fun d =>
                   is_ok (py_index transforms
                            (Scene.InstanceDesc.transform_id d)) = true
                   /\ is_ok (py_index blases (Scene.InstanceDesc.mesh_id d))
                      = true) (firstn k ds).
Proof.
  induction ds as [|d ds IH]; intros start; cbn [tlas_writes];
    [discriminate|].
  destruct (py_index transforms (Scene.InstanceDesc.transform_id d)) eqn:Et.
  - destruct (py_index blases (Scene.InstanceDesc.mesh_id d)) eqn:Eb.
    + specialize (IH (start + 1)).
      destruct (tlas_writes transforms blases (start + 1) ds) as [ws c].
      cbn [fst snd] in *. intros Hc.
      destruct (IH Hc) as (k & d' & Hk & Hlen & Hbad & Hbefore).
      exists (S k), d'. cbn [nth_error length firstn].
      split; [exact Hk|]. split; [congruence|]. split; [exact Hbad|].
      constructor; [rewrite Et, Eb; split; reflexivity | exact Hbefore].
    + intros _. exists 0%nat, d. cbn [nth_error fst length firstn].
      split; [reflexivity|]. split; [reflexivity|]. split; [|constructor].
      rewrite Eb. intros [_ Hb]. discriminate.
  - intros _. exists 0%nat, d. cbn [nth_error fst length firstn].
    split; [reflexivity|]. split; [reflexivity|]. split; [|constructor].
    rewrite Et. intros [Ht _]. discriminate.
Qed.

(** For ids that fit 32 bits, the two look-ups of [build_tlas] succeed
    exactly on an instance that names a mesh and a transform of the stage. *)
Lemma lookups_ok_iff_usable {F} `{Spy F} (stage : Stage.t F) (h : Z)
  (inst : Z * Z * Z) :
  ids_fit_uint32 inst ->
  let d := let '(a, b, c) := inst in Scene.InstanceDesc.make a b c in
  (is_ok (py_index (transforms_of stage) (Scene.InstanceDesc.transform_id d))
   = true
   /\ is_ok (py_index
               (blases_from (vertex_buffer_of stage) (index_buffer_of stage) h
                  (snd (Scene.prepare_mesh_descs (Stage.meshes stage))))
               (Scene.InstanceDesc.mesh_id d)) = true)
  <-> instance_usable stage inst.
Proof.
  destruct inst as [[a b] c]. intros (Ha & Hb & Hc). cbv zeta.
  cbn [Scene.InstanceDesc.transform_id Scene.InstanceDesc.mesh_id].
  unfold instance_usable.
  rewrite !py_index_ok_iff by (unfold fits_uint32 in *; lia).
  unfold transforms_of.
  rewrite length_map, blases_from_length, prepare_mesh_descs_length.
  tauto.
Qed.

Lemma ids_fit_iff_pack (instances : list (Z * Z * Z)) :
  Forall ids_fit_uint32 instances
  <-> is_ok (join_packed Scene.InstanceDesc.pack
               (Scene.prepare_instance_descs instances)) = true.
Proof.
  rewrite join_packed_ok_iff. unfold Scene.prepare_instance_descs.
  rewrite Forall_map.
  split; apply Forall_impl; intros [[a b] c];
    rewrite instance_desc_pack_ok_iff; cbn; tauto.
Qed.

Lemma mesh_descs_packable_iff_pack (ds : list Scene.MeshDesc.t) :
  Forall mesh_desc_packable ds
  <-> is_ok (join_packed Scene.MeshDesc.pack ds) = true.
Proof.
  rewrite join_packed_ok_iff.
  split; apply Forall_impl; intros d; apply mesh_desc_pack_ok_iff.
Qed.

Lemma firstn_members {A} (k : nat) (xs : list A) (x : A) :
  In x (firstn k xs) -> In x xs.
Proof.
  revert xs. induction k as [|k IH]; intros [|y xs]; cbn [firstn In];
    try contradiction.
  intros [->|Hin]; [left; reflexivity | right; apply IH, Hin].
Qed.

Lemma instance_writes_app {F} (l1 l2 : list (Event F)) :
  instance_writes (l1 ++ l2) = instance_writes l1 ++ instance_writes l2.
Proof. apply filter_app. Qed.

Lemma instance_writes_none {F} (evs : list (Event F)) :
  Forall (fun e => is_wait e = false /\ is_instance_write e = false) evs ->
  instance_writes evs = [].
Proof.
  induction 1 as [|e evs [_ He] _ IH]; [reflexivity|].
  unfold instance_writes in *. cbn [filter]. rewrite He. exact IH.
Qed.

Lemma instance_writes_write_events {F}
  (ws : list (Z * AccelerationStructureInstanceDesc.t F)) :
  length (instance_writes (write_events ws)) = length ws.
Proof.
  induction ws as [|w ws IH]; [reflexivity|].
  unfold instance_writes, write_events in *. cbn [map filter is_instance_write].
  cbn [length]. rewrite IH. reflexivity.
Qed.

(** C1 (as amended).  Scene construction fails whenever some instance has a
    mesh id or a transform id outside its array, or an id that does not fit
    an unsigned 32-bit field, and no top-level build is then submitted.
    There is no validation step; the failure is the first exception the
    construction meets.  Every failure other than [IndexError] (an empty
    mesh or transform list, a value that does not fit 32 bits when the
    descriptors are packed) comes before any acceleration-structure build
    and before any instance record is written, and an id that does not fit
    32 bits always fails in this way.  When nothing of this kind stops the
    construction (there is a mesh and a transform, every descriptor field
    and every id fits 32 bits), the failure is an [IndexError] raised when
    the record of the first instance with an id out of range is to be
    written: after the bottom-level build of every mesh has been submitted
    and after the records of the instances before it have been written. *)
Theorem scene_init_rejects_bad_instance_ids {F} `{Spy F} (stage : Stage.t F)
  (dev : Device.t F) (mesh_id material_id transform_id : Z) :
  In (mesh_id, material_id, transform_id) (Stage.instances stage) ->
  ~ in_range (length (Stage.meshes stage)) mesh_id
  \/ ~ in_range (length (Stage.transforms stage)) transform_id
  \/ ~ fits_uint32 material_id ->
  let log := Device.log dev in
  let log' := Device.log (snd (Scene.init stage dev)) in
  let mesh_descs := snd (Scene.prepare_mesh_descs (Stage.meshes stage)) in
  exists e,
    fst (Scene.init stage dev) = Raise e
    /\ tlas_builds log' = tlas_builds log
    /\ (~ fits_uint32 mesh_id \/ ~ fits_uint32 material_id
        \/ ~ fits_uint32 transform_id ->
        e <> IndexError /\ builds log' = builds log)
    /\ (e <> IndexError ->
        (e = ValueError \/ e = StructError)
        /\ builds log' = builds log
        /\ instance_writes log' = instance_writes log
        /\ (Stage.meshes stage = [] \/ Stage.transforms stage = []
            \/ ~ Forall mesh_desc_packable mesh_descs
            \/ ~ Forall ids_fit_uint32 (Stage.instances stage)))
    /\ (Stage.meshes stage <> [] -> Stage.transforms stage <> [] ->
        Forall mesh_desc_packable mesh_descs ->
        Forall ids_fit_uint32 (Stage.instances stage) ->
        e = IndexError
        /\ length (builds log')
           = (length (builds log) + length (Stage.meshes stage))%nat
        /\ exists k bad,
            nth_error (Stage.instances stage) k = Some bad
            /\ ~ instance_usable stage bad
            /\ Forall (instance_usable stage)
                      (firstn k (Stage.instances stage))
            /\ length (instance_writes log')
               = (length (instance_writes log) + k)%nat).
Proof.
  intros Hin Hbad. cbv zeta.
  pose proof (mesh_descs_packable_iff_pack
                (snd (Scene.prepare_mesh_descs (Stage.meshes stage)))) as Hmp.
  pose proof (ids_fit_iff_pack (Stage.instances stage)) as Hip.
  assert (Hunfit :
    ~ fits_uint32 mesh_id \/ ~ fits_uint32 material_id
    \/ ~ fits_uint32 transform_id ->
    ~ Forall ids_fit_uint32 (Stage.instances stage)).
  { intros Hn Hall.
    pose proof (proj1 (Forall_forall _ _) Hall _ Hin) as (Ha & Hb & Hc).
    tauto. }
  rewrite scene_init_run. unfold scene_init_outcome, logged. cbv zeta.
  destruct (Stage.meshes stage) as [|m0 ms] eqn:Em.
  { exists ValueError. cbn [fst snd Device.log].
    rewrite tlas_builds_app, builds_app, instance_writes_app.
    cbn. rewrite !app_nil_r.
    split; [reflexivity|]. split; [reflexivity|].
    split; [intros _; split; [discriminate | reflexivity]|].
    split; [|intros Hne; congruence].
    intros _. repeat split; auto. }
  rewrite <- Em in *.
  assert (Hm : Stage.meshes stage <> []) by (rewrite Em; discriminate).
  destruct (join_packed Scene.MeshDesc.pack _) as [dbytes|e1] eqn:Ed.
  2:{ assert (He1 : e1 = StructError)
        by (eapply join_packed_raise; [apply mesh_desc_pack_raise | exact Ed]).
      subst e1. exists StructError. cbn [fst snd Device.log].
      rewrite tlas_builds_app, builds_app, instance_writes_app.
      cbn. rewrite !app_nil_r.
      split; [reflexivity|]. split; [reflexivity|].
      split; [intros _; split; [discriminate | reflexivity]|].
      split.
      - intros _. repeat split; auto.
        right. right. left. intros Hall. apply Hmp in Hall. discriminate.
      - intros _ _ Hall _. apply Hmp in Hall. discriminate. }
  destruct (join_packed Scene.InstanceDesc.pack _) as [ibytes|e1] eqn:Ei.
  2:{ assert (He1 : e1 = StructError)
        by (eapply join_packed_raise;
            [apply instance_desc_pack_raise | exact Ei]).
      subst e1. exists StructError. cbn [fst snd Device.log].
      rewrite tlas_builds_app, builds_app, instance_writes_app.
      cbn. rewrite !app_nil_r.
      split; [reflexivity|]. split; [reflexivity|].
      split; [intros _; split; [discriminate | reflexivity]|].
      split.
      - intros _. repeat split; auto.
        right. right. right. intros Hall. apply Hip in Hall. discriminate.
      - intros _ _ _ Hall. apply Hip in Hall. discriminate. }
  assert (Hfit : Forall ids_fit_uint32 (Stage.instances stage))
    by (apply Hip; reflexivity).
  assert (Hpackable : Forall mesh_desc_packable
                        (snd (Scene.prepare_mesh_descs (Stage.meshes stage))))
    by (apply Hmp; reflexivity).
  destruct (Stage.transforms stage) as [|t0 ts] eqn:Et.
  { exists ValueError. cbn [fst snd Device.log].
    rewrite tlas_builds_app, builds_app, instance_writes_app.
    cbn. rewrite !app_nil_r.
    split; [reflexivity|]. split; [reflexivity|].
    split; [intros _; split; [discriminate | reflexivity]|].
    split; [|intros _ Hne; congruence].
    intros _. repeat split; auto. }
  rewrite <- Et in *.
  assert (Ht : Stage.transforms stage <> []) by (rewrite Et; discriminate).
  set (h := Device.next_handle dev).
  set (blases := blases_from (vertex_buffer_of stage) (index_buffer_of stage)
                   h (snd (Scene.prepare_mesh_descs (Stage.meshes stage)))).
  set (ids := Scene.prepare_instance_descs (Stage.instances stage)).
  assert (Hinc : snd (tlas_writes (transforms_of stage) blases 0 ids) = false).
  { destruct (snd (tlas_writes (transforms_of stage) blases 0 ids)) eqn:Ec;
      [|reflexivity].
    apply tlas_writes_complete_iff in Ec.
    unfold ids, Scene.prepare_instance_descs in Ec.
    rewrite Forall_map in Ec.
    pose proof (proj1 (Forall_forall _ _) Ec _ Hin) as Hlook.
    pose proof (proj1 (Forall_forall _ _) Hfit _ Hin) as Hf.
    apply (@lookups_ok_iff_usable _ _ stage h
             (mesh_id, material_id, transform_id) Hf) in Hlook.
    destruct Hlook as (_ & Hmat & _ & Hmr & Htr).
    destruct Hbad as [Hb|[Hb|Hb]]; contradiction. }
  rewrite Hinc. exists IndexError. cbn [fst snd Device.log].
  pose proof (submitted_blases_events (vertex_buffer_of stage)
                (index_buffer_of stage)
                (snd (Scene.prepare_mesh_descs (Stage.meshes stage))) h)
    as [Hb1 Hb2].
  rewrite prepare_mesh_descs_length in Hb2.
  split; [reflexivity|]. split.
  { rewrite !tlas_builds_app, Hb1. cbn [app].
    unfold tlas_builds at 2 3. cbn [submitted].
    rewrite submitted_write_events. cbn. rewrite app_nil_r. reflexivity. }
  split; [intros Hn; apply Hunfit in Hn; contradiction|].
  split; [intros Hne; congruence|].
  intros _ _ _ _. split; [reflexivity|]. split.
  { rewrite !builds_app, !length_app. fold h. rewrite Hb2.
    unfold builds. cbn [submitted]. rewrite submitted_write_events.
    cbn [concat filter length]. lia. }
  destruct (tlas_writes_stops _ _ _ 0 Hinc)
    as (k & d & Hk & Hlen & Hstop & Hbefore).
  unfold ids, Scene.prepare_instance_descs in Hk, Hbefore.
  rewrite nth_error_map in Hk.
  destruct (nth_error (Stage.instances stage) k) as [bad|] eqn:Ebad;
    [|discriminate].
  injection Hk as <-.
  exists k, bad. split; [exact Ebad|].
  assert (Hbadfit : ids_fit_uint32 bad).
  { apply (proj1 (Forall_forall _ _) Hfit). eapply nth_error_In. exact Ebad. }
  split.
  { intros Hu. apply Hstop.
    apply (@lookups_ok_iff_usable _ _ stage h bad Hbadfit). exact Hu. }
  split.
  { rewrite firstn_map, Forall_map in Hbefore.
    apply Forall_forall. intros inst Hinst.
    pose proof (proj1 (Forall_forall _ _) Hbefore _ Hinst) as Hl.
    assert (Hf : ids_fit_uint32 inst).
    { apply (proj1 (Forall_forall _ _) Hfit).
      eapply firstn_members. exact Hinst. }
    apply (@lookups_ok_iff_usable _ _ stage h inst Hf). exact Hl. }
  rewrite !instance_writes_app, !length_app. fold h.
  rewrite (instance_writes_none (blases_events_quiet _ _ _ h)).
  change (instance_writes
            (create_acceleration_structure_instance_list
               (Z.of_nat (length ids))
             :: write_events (fst (tlas_writes (transforms_of stage) blases 0
                                     ids))))
    with (instance_writes
            (write_events (fst (tlas_writes (transforms_of stage) blases 0
                                  ids)))).
  rewrite instance_writes_write_events, Hlen.
  unfold instance_writes at 2. cbn [filter is_instance_write length]. lia.
Qed.

(** The amended C1 at a concrete stage: mesh id 5 where there are two
    meshes; the construction raises [IndexError] after both bottom-level
    builds, having written the record of the first instance only. *)
Lemma scene_init_rejects_bad_instance_ids_witness :
  exists e,
    fst (Scene.init QSpy.bad_mesh_stage QSpy.device0) = Raise e
    /\ tlas_builds
         (Device.log (snd (Scene.init QSpy.bad_mesh_stage QSpy.device0)))
       = tlas_builds (Device.log QSpy.device0)
    /\ e = IndexError
    /\ length (builds
                 (Device.log
                    (snd (Scene.init QSpy.bad_mesh_stage QSpy.device0))))
       = 2%nat.
Proof.
  destruct (@scene_init_rejects_bad_instance_ids Q QSpy.spy
              QSpy.bad_mesh_stage QSpy.device0 5 0 0)
    as (e & He & Htlas & _ & _ & Hlate).
  - right. left. reflexivity.
  - left. unfold in_range. vm_compute. intros [_ Hlt]. discriminate Hlt.
  - exists e. split; [exact He|]. split; [exact Htlas|].
    destruct Hlate as (Hidx & Hbuilds & _).
    + vm_compute. discriminate.
    + vm_compute. discriminate.
    + replace (snd (Scene.prepare_mesh_descs
                      (Stage.meshes QSpy.bad_mesh_stage)))
        with [Scene.MeshDesc.make 4 6 0 0; Scene.MeshDesc.make 24 36 4 6]
        by (vm_compute; reflexivity).
      repeat (constructor;
              [unfold mesh_desc_packable, fits_uint32; cbn; lia|]).
      constructor.
    + repeat constructor; vm_compute; discriminate.
    + split; [exact Hidx | exact Hbuilds].
Defined.

(** C1 (as stated) fails: with material id 7 and a single material the
    construction succeeds and submits the top-level build; with mesh id 5
    and two meshes it fails only after both bottom-level builds have been
    submitted. *)
Lemma scene_init_accepts_out_of_range_material_id :
  In (1, 7, 0) (Stage.instances QSpy.bad_material_stage)
  /\ ~ in_range (length (Stage.materials QSpy.bad_material_stage)) 7
  /\ is_ok (fst (Scene.init QSpy.bad_material_stage QSpy.device0)) = true
  /\ length (tlas_builds
               (Device.log
                  (snd (Scene.init QSpy.bad_material_stage QSpy.device0))))
     = 1%nat
  /\ In (5, 0, 0) (Stage.instances QSpy.bad_mesh_stage)
  /\ ~ in_range (length (Stage.meshes QSpy.bad_mesh_stage)) 5
  /\ fst (Scene.init QSpy.bad_mesh_stage QSpy.device0) = Raise IndexError
  /\ length (builds
               (Device.log (snd (Scene.init QSpy.bad_mesh_stage QSpy.device0))))
     = 2%nat.
Proof.
  repeat split; try (vm_compute; tauto).
  - unfold in_range. vm_compute. intros [_ Hlt]. discriminate Hlt.
  - unfold in_range. vm_compute. intros [_ Hlt]. discriminate Hlt.
Qed.

(** ** The stage interface *)

Lemma py_index_snoc_last {A} (xs : list A) (x : A) :
  py_index (xs ++ [x]) (Z.of_nat (length xs)) = Ok x.
Proof.
  assert (Hr : in_range (length (xs ++ [x])) (Z.of_nat (length xs)))
    by (unfold in_range; rewrite length_app; cbn [length]; lia).
  destruct (py_index_ok _ Hr) as (a & -> & Ha).
  rewrite Nat2Z.id, nth_error_app2, Nat.sub_diag in Ha by lia.
  cbn in Ha. congruence.
Qed.

Lemma py_index_snoc_stable {A} (xs : list A) (x a : A) (i : Z) :
  0 <= i -> py_index xs i = Ok a -> py_index (xs ++ [x]) i = Ok a.
Proof.
  intros Hi Ha. destruct (py_index_nonneg_ok _ Hi Ha) as [Hr Hn].
  assert (Hr' : in_range (length (xs ++ [x])) i)
    by (unfold in_range in *; rewrite length_app; cbn [length]; lia).
  destruct (py_index_ok _ Hr') as (a' & -> & Ha').
  rewrite nth_error_app1 in Ha' by (unfold in_range in Hr; lia).
  congruence.
Qed.

(** X6.  The id that [add_material], [add_mesh], [add_transform] and
    [add_instance] return is the position of the entry just added, which is
    the last; the entries at the non-negative ids handed out before stay
    where they were, and the other three lists are not touched. *)
Theorem stage_add_returns_position {F} (stage : Stage.t F) :
  (forall material,
      let '(id, stage') := Stage.add_material stage material in
      py_index (Stage.materials stage') id = Ok material
      /\ id = Z.of_nat (length (Stage.materials stage))
      /\ length (Stage.materials stage')
         = S (length (Stage.materials stage))
      /\ (forall i x, 0 <= i -> py_index (Stage.materials stage) i = Ok x ->
                      py_index (Stage.materials stage') i = Ok x)
      /\ Stage.meshes stage' = Stage.meshes stage
      /\ Stage.transforms stage' = Stage.transforms stage
      /\ Stage.instances stage' = Stage.instances stage)
  /\ (forall mesh,
      let '(id, stage') := Stage.add_mesh stage mesh in
      py_index (Stage.meshes stage') id = Ok mesh
      /\ id = Z.of_nat (length (Stage.meshes stage))
      /\ length (Stage.meshes stage') = S (length (Stage.meshes stage))
      /\ (forall i x, 0 <= i -> py_index (Stage.meshes stage) i = Ok x ->
                      py_index (Stage.meshes stage') i = Ok x)
      /\ Stage.materials stage' = Stage.materials stage
      /\ Stage.transforms stage' = Stage.transforms stage
      /\ Stage.instances stage' = Stage.instances stage)
  /\ (forall transform,
      let '(id, stage') := Stage.add_transform stage transform in
      py_index (Stage.transforms stage') id = Ok transform
      /\ id = Z.of_nat (length (Stage.transforms stage))
      /\ length (Stage.transforms stage')
         = S (length (Stage.transforms stage))
      /\ (forall i x, 0 <= i -> py_index (Stage.transforms stage) i = Ok x ->
                      py_index (Stage.transforms stage') i = Ok x)
      /\ Stage.materials stage' = Stage.materials stage
      /\ Stage.meshes stage' = Stage.meshes stage
      /\ Stage.instances stage' = Stage.instances stage)
  /\ (forall mesh_id material_id transform_id,
      let '(id, stage') :=
        Stage.add_instance stage mesh_id material_id transform_id in
      py_index (Stage.instances stage') id
      = Ok (mesh_id, material_id, transform_id)
      /\ id = Z.of_nat (length (Stage.instances stage))
      /\ length (Stage.instances stage')
         = S (length (Stage.instances stage))
      /\ (forall i x, 0 <= i -> py_index (Stage.instances stage) i = Ok x ->
                      py_index (Stage.instances stage') i = Ok x)
      /\ Stage.materials stage' = Stage.materials stage
      /\ Stage.meshes stage' = Stage.meshes stage
      /\ Stage.transforms stage' = Stage.transforms stage).
Proof.
  repeat split;
    cbn [Stage.materials Stage.meshes Stage.transforms Stage.instances];
    try apply py_index_snoc_last;
    try (rewrite length_app; cbn [length]; lia);
    intros i x0 Hi Hx; apply py_index_snoc_stable; assumption.
Qed.

Lemma in_range_weaken (n m : nat) (id : Z) :
  (n <= m)%nat -> in_range n id -> in_range m id.
Proof. unfold in_range. lia. Qed.

Lemma instance_usable_weaken {F} (stage stage' : Stage.t F)
  (inst : Z * Z * Z) :
  (length (Stage.meshes stage) <= length (Stage.meshes stage'))%nat ->
  (length (Stage.transforms stage) <= length (Stage.transforms stage'))%nat ->
  instance_usable stage inst -> instance_usable stage' inst.
Proof.
  intros Hm Ht. destruct inst as [[a b] c]. unfold instance_usable.
  intros (Ha & Hb & Hc & Hma & Htc).
  repeat split; try assumption; try apply Ha; try apply Hb; try apply Hc;
    eapply in_range_weaken; eassumption.
Qed.

(** X7.  Growing a stage keeps its instances usable: when every instance
    names a mesh and a transform of the stage by ids that fit 32 bits, this
    is still so after another material, mesh or transform has been added,
    and after an instance has been added whose ids fit 32 bits and whose
    mesh and transform ids are in range. *)
Theorem stage_add_keeps_instances_usable {F} (stage : Stage.t F) :
  Forall (instance_usable stage) (Stage.instances stage) ->
  (forall material,
      let stage' := snd (Stage.add_material stage material) in
      Forall (instance_usable stage') (Stage.instances stage'))
  /\ (forall mesh,
      let stage' := snd (Stage.add_mesh stage mesh) in
      Forall (instance_usable stage') (Stage.instances stage'))
  /\ (forall transform,
      let stage' := snd (Stage.add_transform stage transform) in
      Forall (instance_usable stage') (Stage.instances stage'))
  /\ (forall mesh_id material_id transform_id,
      in_range (length (Stage.meshes stage)) mesh_id ->
      in_range (length (Stage.transforms stage)) transform_id ->
      fits_uint32 mesh_id -> fits_uint32 material_id ->
      fits_uint32 transform_id ->
      let stage' :=
        snd (Stage.add_instance stage mesh_id material_id transform_id) in
      Forall (instance_usable stage') (Stage.instances stage')).
Proof.
  intros Hall. repeat split; intros; subst stage';
    cbn [snd Stage.add_material Stage.add_mesh Stage.add_transform
         Stage.add_instance Stage.instances].
  - eapply Forall_impl; [|exact Hall]. intros inst.
    apply instance_usable_weaken; cbn [Stage.meshes Stage.transforms]; lia.
  - eapply Forall_impl; [|exact Hall]. intros inst.
    apply instance_usable_weaken; cbn [Stage.meshes Stage.transforms];
      rewrite ?length_app; lia.
  - eapply Forall_impl; [|exact Hall]. intros inst.
    apply instance_usable_weaken; cbn [Stage.meshes Stage.transforms];
      rewrite ?length_app; lia.
  - apply Forall_app. split.
    + eapply Forall_impl; [|exact Hall]. intros inst.
      apply instance_usable_weaken; cbn [Stage.meshes Stage.transforms]; lia.
    + constructor; [|constructor].
      unfold instance_usable. cbn [Stage.meshes Stage.transforms].
      repeat split; try apply H; try apply H0; try apply H1; try apply H2;
        try apply H3.
Qed.

Lemma stage_add_keeps_instances_usable_witness :
  Forall (instance_usable QSpy.quad_cube_stage)
         (Stage.instances QSpy.quad_cube_stage)
  /\ Forall
       (instance_usable (snd (Stage.add_instance QSpy.quad_cube_stage 1 0 0)))
       (Stage.instances (snd (Stage.add_instance QSpy.quad_cube_stage 1 0 0))).
Proof.
  assert (Hq : Forall (instance_usable QSpy.quad_cube_stage)
                      (Stage.instances QSpy.quad_cube_stage)).
  { repeat constructor; vm_compute; try discriminate; reflexivity. }
  split; [exact Hq|].
  destruct (@stage_add_keeps_instances_usable Q QSpy.quad_cube_stage Hq)
    as (_ & _ & _ & Hadd).
  apply Hadd; unfold in_range, fits_uint32; vm_compute;
    split; try discriminate; reflexivity.
Defined.

(** ** What the frame loop leaves alone *)

Section Respects.
Context {S : Type} (K : S -> S -> Prop).
Hypothesis K_refl : forall s, K s s.
Hypothesis K_trans : forall s1 s2 s3, K s1 s2 -> K s2 s3 -> K s1 s3.

Lemma respects_ret {A} (Q : A -> Prop) (a : A) : Q a -> respects K Q (ret a).
Proof.
  intros Ha s. split; [apply K_refl|]. cbn [ret fst]. intros a' [= <-].
  exact Ha.
Qed.

Lemma respects_get : respects K (fun _ : S => True) get.
Proof. intros s. split; [apply K_refl | trivial]. Qed.

Lemma respects_lift_result {A} (r : result A) :
  respects K (fun _ : A => True) (lift_result r).
Proof. intros s. split; [apply K_refl | trivial]. Qed.

Lemma respects_raise {A} (Q : A -> Prop) (e : exn) : respects K Q (raise e).
Proof. intros s. split; [apply K_refl | discriminate]. Qed.

Lemma respects_modify (f : S -> S) :
  (forall s, K s (f s)) -> respects K (fun _ : unit => True) (modify f).
Proof. intros Hf s. split; [apply Hf | trivial]. Qed.

Lemma respects_bind {A B} (Q : A -> Prop) (R : B -> Prop) (m : M S A)
  (k : A -> M S B) :
  respects K Q m -> (forall a, Q a -> respects K R (k a)) ->
  respects K R (bind m k).
Proof.
  intros Hm Hk s. unfold bind. destruct (Hm s) as [HK HQ].
  destruct (m s) as [[a|e] s']; cbn [fst snd] in *.
  - destruct (Hk a (HQ a eq_refl) s') as [HK' HR].
    split; [eapply K_trans; eassumption | exact HR].
  - split; [exact HK | discriminate].
Qed.

Lemma respects_weaken {A} (Q Q' : A -> Prop) (m : M S A) :
  (forall a, Q a -> Q' a) -> respects K Q m -> respects K Q' m.
Proof.
  intros HQ Hm s. destruct (Hm s) as [HK Hr]. split; [exact HK|].
  intros a Ha. apply HQ, Hr, Ha.
Qed.

Lemma respects_for_each {A B} (xs : list A) (body : B -> A -> M S B) :
  (forall acc x, respects K (fun _ : B => True) (body acc x)) ->
  forall acc, respects K (fun _ : B => True) (for_each xs body acc).
Proof.
  intros Hbody. induction xs as [|x xs IH]; intros acc; cbn [for_each].
  - apply respects_ret. exact I.
  - eapply respects_bind; [apply Hbody | intros acc' _; apply IH].
Qed.
End Respects.

Lemma scene_kept_refl {F} (s : World.t F) : scene_kept s s.
Proof.
  repeat split. exists []. rewrite app_nil_r. split; reflexivity.
Qed.

Lemma scene_kept_same {F} (s s' : World.t F) :
  World.scene s' = World.scene s -> World.device s' = World.device s ->
  scene_kept s s'.
Proof.
  intros Hs Hd. unfold scene_kept. rewrite Hs, Hd. repeat split.
  exists []. rewrite app_nil_r. split; reflexivity.
Qed.

Lemma scene_kept_trans {F} (s1 s2 s3 : World.t F) :
  scene_kept s1 s2 -> scene_kept s2 s3 -> scene_kept s1 s3.
Proof.
  intros (Hs & Hh & evs & Hl & Hq) (Hs' & Hh' & evs' & Hl' & Hq').
  split; [congruence|]. split; [congruence|].
  exists (evs ++ evs'). rewrite Hl', Hl, app_assoc, forallb_app, Hq, Hq'.
  split; reflexivity.
Qed.

Lemma scene_kept_emit {F} (e : Event F) :
  is_frame_event e = true ->
  respects scene_kept (fun _ : unit => True) (World.on_device (Device.emit e)).
Proof.
  intros He s. split; [|trivial]. destruct s. world_cbn.
  cbn [Device.log Device.next_handle]. repeat split.
  exists [e]. cbn [forallb]. rewrite He. split; reflexivity.
Qed.

Lemma scene_kept_create_texture {F} (label : string) (width height : Z) :
  respects (S:=World.t F) scene_kept (fun _ : Texture.t => True)
    (World.on_device (Device.create_texture label width height)).
Proof.
  intros s. split; [|trivial]. destruct s. world_cbn.
  cbn [Device.log Device.next_handle]. repeat split.
  eexists. split; reflexivity.
Qed.

Lemma scene_kept_the {F A} (field : World.t F -> option A) :
  respects scene_kept (fun _ : A => True) (World.the field).
Proof.
  intros s. split; [|trivial]. unfold World.the, bind, get.
  destruct (field s); apply scene_kept_refl.
Qed.

Lemma scene_kept_on_controller {F A}
  (m : M (Camera.t F * CameraController.t F) A) :
  respects scene_kept (fun _ : A => True) (World.on_controller m).
Proof.
  intros s. split; [|trivial]. unfold World.on_controller.
  destruct (m (World.camera s, World.camera_controller s)) as [r st].
  destruct s. apply scene_kept_same; reflexivity.
Qed.

Lemma no_build_snoc {F} (commands : list (Command F)) (c : Command F) :
  no_build commands -> is_build c = false -> no_build (commands ++ [c]).
Proof.
  unfold no_build. intros Hc Hb. rewrite existsb_app, Hc. cbn. rewrite Hb.
  reflexivity.
Qed.

Ltac kept_bind :=
  eapply (@respects_bind _ _ (@scene_kept_trans _)).

Ltac kept_modify :=
  apply respects_modify; intros []; apply scene_kept_same; reflexivity.

Lemma scene_kept_path_tracer {F} `{Spy F} (command_encoder : list (Command F))
  (output : Texture.t) (frame : Z) :
  no_build command_encoder ->
  respects scene_kept no_build
    (PathTracer.execute command_encoder output frame).
Proof.
  intros Hn. unfold PathTracer.execute.
  kept_bind; [kept_modify | intros _ _].
  kept_bind; [apply (@respects_get _ _ (@scene_kept_refl F)) | intros s _].
  kept_bind; [apply (@respects_lift_result _ _ (@scene_kept_refl F)) | intros c _].
  kept_bind; [kept_modify | intros _ _].
  kept_bind; [apply (@respects_get _ _ (@scene_kept_refl F)) | intros s' _].
  cbn [USE_RAYTRACING_PIPELINE].
  apply (@respects_ret _ _ (@scene_kept_refl F)).
  apply no_build_snoc; [exact Hn | reflexivity].
Qed.

Lemma scene_kept_accumulator {F} (command_encoder : list (Command F))
  (input output : Texture.t) (reset : bool) :
  no_build command_encoder ->
  respects scene_kept no_build
    (Accumulator.execute command_encoder input output reset).
Proof.
  intros Hn. unfold Accumulator.execute.
  kept_bind; [apply (@respects_get _ _ (@scene_kept_refl F)) | intros s _].
  kept_bind.
  { instantiate (1 := fun _ => True).
    destruct (Accumulator.needs_texture _ _).
    - kept_bind; [apply scene_kept_create_texture | intros t _]. kept_modify.
    - apply (@respects_ret _ _ (@scene_kept_refl F)). exact I. }
  intros _ _.
  kept_bind; [apply scene_kept_the | intros a _].
  apply (@respects_ret _ _ (@scene_kept_refl F)).
  apply no_build_snoc; [exact Hn | reflexivity].
Qed.

Lemma scene_kept_tone_mapper {F} (command_encoder : list (Command F))
  (input output : Texture.t) :
  no_build command_encoder ->
  respects (S:=World.t F) scene_kept no_build
    (ToneMapper.execute command_encoder input output).
Proof.
  intros Hn. unfold ToneMapper.execute.
  apply (@respects_ret _ _ (@scene_kept_refl F)).
  apply no_build_snoc; [exact Hn | reflexivity].
Qed.

Lemma scene_kept_reallocate {F} (surface_texture : Texture.t) :
  respects (S:=World.t F) scene_kept (fun _ : unit => True)
    (App.reallocate_textures surface_texture).
Proof.
  unfold App.reallocate_textures.
  kept_bind; [apply scene_kept_create_texture | intros t1 _].
  kept_bind; [kept_modify | intros _ _].
  kept_bind; [apply scene_kept_create_texture | intros t2 _].
  kept_bind; [kept_modify | intros _ _].
  kept_bind; [apply scene_kept_create_texture | intros t3 _].
  kept_modify.
Qed.

Lemma scene_kept_render_frame {F} `{Spy F} (surface_texture : Texture.t)
  (frame : Z) :
  respects scene_kept (fun _ : unit => True)
    (App.render_frame surface_texture frame).
Proof.
  unfold App.render_frame.
  kept_bind; [apply (@respects_get _ _ (@scene_kept_refl F)) | intros s _].
  kept_bind.
  { instantiate (1 := fun _ => True).
    destruct (App.textures_stale _ _).
    - apply scene_kept_reallocate.
    - apply (@respects_ret _ _ (@scene_kept_refl F)). exact I. }
  intros _ _.
  kept_bind; [apply scene_kept_the | intros rt _].
  kept_bind; [apply scene_kept_path_tracer; reflexivity | intros e1 He1].
  kept_bind; [apply scene_kept_the | intros rt' _].
  kept_bind; [apply scene_kept_the | intros at_ _].
  kept_bind; [apply scene_kept_accumulator; exact He1 | intros e2 He2].
  kept_bind; [apply scene_kept_the | intros at' _].
  kept_bind; [apply scene_kept_the | intros ot _].
  kept_bind; [apply scene_kept_tone_mapper; exact He2 | intros e3 He3].
  kept_bind; [apply scene_kept_the | intros ot' _].
  kept_bind.
  { apply scene_kept_emit. cbn [is_frame_event].
    pose proof (@no_build_snoc F e3 (blit surface_texture ot') He3 eq_refl)
      as Hn.
    unfold no_build in Hn. rewrite Hn. reflexivity. }
  intros _ _. apply scene_kept_emit. reflexivity.
Qed.

Lemma scene_kept_on_keyboard_event {F} `{Spy F} (event : KeyboardEvent.t) :
  respects (S:=World.t F) scene_kept (fun _ : unit => True)
    (App.on_keyboard_event event).
Proof.
  unfold App.on_keyboard_event.
  kept_bind; [|intros _ _; kept_modify].
  instantiate (1 := fun _ => True).
  destruct (KeyboardEvent.is_key_press event);
    [|apply (@respects_ret _ _ (@scene_kept_refl F)); exact I].
  destruct (KeyboardEvent.key event);
    try (apply (@respects_ret _ _ (@scene_kept_refl F)); exact I).
  - kept_bind; [apply scene_kept_emit; reflexivity | intros _ _].
    kept_modify.
  - kept_bind; [apply (@respects_get _ _ (@scene_kept_refl F)) | intros s _].
    destruct (World.output_texture s).
    + apply scene_kept_emit. reflexivity.
    + apply (@respects_ret _ _ (@scene_kept_refl F)). exact I.
  - kept_bind; [apply (@respects_get _ _ (@scene_kept_refl F)) | intros s _].
    destruct (World.output_texture s).
    + apply scene_kept_emit. reflexivity.
    + apply (@respects_ret _ _ (@scene_kept_refl F)). exact I.
Qed.

Lemma scene_kept_on_resize {F} (width height : Z) :
  respects (S:=World.t F) scene_kept (fun _ : unit => True)
    (App.on_resize width height).
Proof.
  unfold App.on_resize.
  kept_bind; [apply scene_kept_emit; reflexivity | intros _ _].
  destruct ((0 <? width) && (0 <? height)).
  - kept_bind; [apply scene_kept_emit; reflexivity | intros _ _]. kept_modify.
  - kept_bind; [apply scene_kept_emit; reflexivity | intros _ _]. kept_modify.
Qed.

Lemma scene_kept_process_events {F} `{Spy F} (events : list (WindowEvent F)) :
  respects scene_kept (fun _ : unit => True) (App.process_events events).
Proof.
  unfold App.process_events.
  apply (@respects_for_each _ _ (@scene_kept_refl F) (@scene_kept_trans F)).
  intros _ [e|e|w h].
  - apply scene_kept_on_keyboard_event.
  - unfold App.on_mouse_event. kept_modify.
  - apply scene_kept_on_resize.
Qed.

Lemma scene_kept_main_loop_body {F} `{Spy F} (input : FrameInput.t F)
  (frame : Z) :
  respects scene_kept (fun _ : Z => True) (App.main_loop_body input frame).
Proof.
  unfold App.main_loop_body, App.camera_step.
  kept_bind.
  { kept_bind; [apply scene_kept_process_events | intros _ _].
    apply scene_kept_on_controller. }
  intros changed _.
  kept_bind; [apply (@respects_get _ _ (@scene_kept_refl F)) | intros s _].
  destruct (World.surface_config s);
    [|apply (@respects_ret _ _ (@scene_kept_refl F)); exact I].
  destruct (FrameInput.next_image input) as [[w h]|];
    [|apply (@respects_ret _ _ (@scene_kept_refl F)); exact I].
  kept_bind; [apply scene_kept_render_frame | intros _ _].
  apply (@respects_ret _ _ (@scene_kept_refl F)). exact I.
Qed.

Lemma scene_kept_main_loop_from {F} `{Spy F} (inputs : list (FrameInput.t F)) :
  forall frame,
    respects scene_kept (fun _ : Z => True) (App.main_loop_from inputs frame).
Proof.
  induction inputs as [|input inputs IH]; intros frame;
    cbn [App.main_loop_from].
  - apply (@respects_ret _ _ (@scene_kept_refl F)). exact I.
  - kept_bind; [apply (@respects_get _ _ (@scene_kept_refl F)) | intros s _].
    destruct (World.should_close s).
    + kept_bind; [apply scene_kept_emit; reflexivity | intros _ _].
      apply (@respects_ret _ _ (@scene_kept_refl F)). exact I.
    + kept_bind; [apply scene_kept_main_loop_body | intros frame' _].
      apply IH.
Qed.

Lemma frame_events_no_builds {F} (evs : list (Event F)) :
  forallb is_frame_event evs = true ->
  builds evs = []
  /\ Forall (fun e => is_create_buffer e = false
                      /\ is_instance_write e = false) evs.
Proof.
  induction evs as [|e evs IH]; [split; [reflexivity | constructor]|].
  cbn [forallb]. intros Hq. apply andb_true_iff in Hq. destruct Hq as [He Hq].
  destruct (IH Hq) as [IH1 IH2].
  split.
  - unfold builds in *. destruct e; cbn [submitted concat]; try exact IH1.
    rewrite filter_app, IH1, app_nil_r.
    cbn [is_frame_event] in He. apply negb_true_iff in He.
    clear - He. induction commands as [|c cs IHc]; [reflexivity|].
    cbn [existsb] in He. apply orb_false_iff in He. destruct He as [Hc Hcs].
    cbn [filter]. rewrite Hc. apply IHc, Hcs.
  - constructor; [|exact IH2]. destruct e; try discriminate; split; reflexivity.
Qed.

(** X8.  However long the main loop runs, whatever the window delivers and
    whether a turn returns or raises, the loop keeps the scene it was given
    and allocates no acceleration-structure handle; the device sees no
    buffer creation, no instance-record write and no acceleration-structure
    build from it. *)
Theorem main_loop_leaves_scene_alone {F} `{Spy F}
  (inputs : list (FrameInput.t F)) (frame : Z) (s : World.t F) :
  let s' := snd (App.main_loop_from inputs frame s) in
  World.scene s' = World.scene s
  /\ Device.next_handle (World.device s') = Device.next_handle (World.device s)
  /\ exists evs,
      Device.log (World.device s') = Device.log (World.device s) ++ evs
      /\ builds evs = []
      /\ Forall (fun e => is_create_buffer e = false
                          /\ is_instance_write e = false) evs.
Proof.
  cbv zeta.
  destruct (scene_kept_main_loop_from inputs frame s)
    as [(Hs & Hh & evs & Hl & Hq) _].
  split; [exact Hs|]. split; [exact Hh|].
  exists evs. split; [exact Hl|]. apply frame_events_no_builds, Hq.
Qed.

(** ** Runs of the main loop *)

Lemma on_keyboard_event_keeps {F} `{Spy F} (event : KeyboardEvent.t)
  (s : World.t F) :
  World.camera (snd (App.on_keyboard_event event s)) = World.camera s
  /\ World.surface_config (snd (App.on_keyboard_event event s))
     = World.surface_config s
  /\ (World.should_close s = true ->
      World.should_close (snd (App.on_keyboard_event event s)) = true).
Proof.
  destruct s as [[log nh] sc cfg cam ctl scn acc rt at_ ot].
  destruct event as [ty key].
  unfold App.on_keyboard_event, KeyboardEvent.is_key_press.
  cbn [KeyboardEvent.type KeyboardEvent.key].
  destruct ty; destruct key; try destruct ot as [o|];
    world_cbn; cbn [snd]; world_cbn; repeat split; auto.
Qed.

Lemma on_mouse_event_keeps {F} `{Spy F} (event : MouseEvent.t F)
  (s : World.t F) :
  World.camera (snd (App.on_mouse_event event s)) = World.camera s
  /\ World.surface_config (snd (App.on_mouse_event event s))
     = World.surface_config s
  /\ World.should_close (snd (App.on_mouse_event event s))
     = World.should_close s.
Proof.
  destruct s as [[log nh] sc cfg cam ctl scn acc rt at_ ot].
  unfold App.on_mouse_event. world_cbn. cbn [snd]. world_cbn.
  repeat split.
Qed.

Lemma on_resize_keeps {F} (width height : Z) (s : World.t F) :
  World.camera (snd (App.on_resize width height s)) = World.camera s
  /\ World.camera_controller (snd (App.on_resize width height s))
     = World.camera_controller s
  /\ World.should_close (snd (App.on_resize width height s))
     = World.should_close s
  /\ World.surface_config (snd (App.on_resize width height s))
     = (if (0 <? width) && (0 <? height) then Some (width, height) else None).
Proof.
  destruct s as [[log nh] sc cfg cam ctl scn acc rt at_ ot].
  unfold App.on_resize. world_cbn.
  destruct ((0 <? width) && (0 <? height)); world_cbn; cbn [snd]; world_cbn;
    repeat split.
Qed.

Lemma process_events_step {F} `{Spy F} (ev : WindowEvent F)
  (events : list (WindowEvent F)) (s : World.t F) :
  App.process_events (ev :: events) s
  = App.process_events events
      (snd (match ev with
            | keyboard_event e => App.on_keyboard_event e
            | mouse_event e => App.on_mouse_event e
            | resize_event w h => App.on_resize w h
            end s)).
Proof.
  unfold App.process_events. cbn [for_each]. unfold bind at 1.
  destruct ev as [e|e|w h].
  - destruct (on_keyboard_event_run e s) as (s1 & -> & _). reflexivity.
  - destruct (on_mouse_event_run e s) as (s1 & -> & _). reflexivity.
  - destruct (on_resize_run w h s) as (s1 & -> & _). reflexivity.
Qed.

Lemma process_events_nil {F} `{Spy F} (s : World.t F) :
  App.process_events [] s = (Ok tt, s).
Proof. reflexivity. Qed.

Lemma process_events_keeps_camera {F} `{Spy F} (events : list (WindowEvent F)) :
  forall s : World.t F,
    World.camera (snd (App.process_events events s)) = World.camera s.
Proof.
  induction events as [|ev events IH]; intros s; [reflexivity|].
  rewrite process_events_step, IH.
  destruct ev as [e|e|w h].
  - apply on_keyboard_event_keeps.
  - apply on_mouse_event_keeps.
  - apply on_resize_keeps.
Qed.

(** [update] returns when the camera has a height; it keeps the size of the
    camera, and changes nothing when no move and no rotation is pending. *)
Lemma controller_update_ok {F} `{Spy F} (dt : F) (cam : Camera.t F)
  (ctl : CameraController.t F) :
  Camera.height cam <> 0 ->
  let changed := CameraController.moving ctl || CameraController.rotating ctl in
  exists cam' ctl',
    CameraController.update dt (cam, ctl) = (Ok changed, (cam', ctl'))
    /\ Camera.height cam' = Camera.height cam
    /\ Camera.width cam' = Camera.width cam
    /\ (changed = false -> cam' = cam /\ ctl' = ctl).
Proof.
  intros Hh. apply Z.eqb_neq in Hh.
  cbv zeta. unfold CameraController.update, Camera.recompute.
  unfold bind, get, modify, ret, lift_result.
  cbn [fst snd Camera.height Camera.set_pose].
  destruct (CameraController.moving ctl);
    destruct (CameraController.rotating ctl);
    cbn [fst snd Camera.height Camera.set_pose orb];
    rewrite ?Hh; do 2 eexists; (split; [reflexivity|]);
    repeat split; try discriminate.
Qed.

Lemma camera_step_ok {F} `{Spy F} (input : FrameInput.t F) (s : World.t F) :
  Camera.height (World.camera s) <> 0 ->
  exists changed s1,
    App.camera_step input s = (Ok changed, s1)
    /\ Camera.height (World.camera s1) = Camera.height (World.camera s).
Proof.
  intros Hh. unfold App.camera_step. unfold bind at 1.
  destruct (process_events_run (FrameInput.events input) s) as (s0 & E0 & _).
  pose proof (process_events_keeps_camera (FrameInput.events input) s) as Hc.
  rewrite E0 in Hc |- *. cbn [snd] in Hc.
  destruct s0 as [dev sc cfg cam ctl scn acc rt at_ ot].
  cbn [World.camera] in Hc. subst cam.
  unfold World.on_controller. cbn [World.camera World.camera_controller].
  destruct (@controller_update_ok _ _ (FrameInput.dt input) (World.camera s)
              ctl Hh)
    as (cam' & ctl' & E & Hh' & _).
  rewrite E. do 2 eexists. split; [reflexivity|]. cbn. exact Hh'.
Qed.

Lemma main_loop_body_ok {F} `{Spy F} (input : FrameInput.t F) (frame : Z)
  (s : World.t F) :
  loop_ready s ->
  (forall width height,
      FrameInput.next_image input = Some (width, height) -> height <> 0) ->
  exists frame' s',
    App.main_loop_body input frame s = (Ok frame', s') /\ loop_ready s'.
Proof.
  intros [Hok Hh] Himg.
  destruct (@camera_step_ok _ _ input s Hh) as (changed & s1 & Hstep & Hh1).
  destruct (@main_loop_body_keeps_textures_ok _ _ input frame s s1 changed
              Hok Hstep Himg)
    as [Hok1 Hok'].
  destruct (@main_loop_body_run _ _ input frame s s1 changed Hstep)
    as [Hskip Hrender].
  destruct (World.surface_config s1) as [cfg|] eqn:Ecfg.
  - destruct (FrameInput.next_image input) as [[w h]|] eqn:Eimg.
    + specialize (Hrender w h ltac:(discriminate) eq_refl).
      pose proof (Himg w h eq_refl) as Hne.
      rewrite (@render_frame_run _ _ s1 (Texture.make "surface" w h)
                 (if changed then 0 else frame) Hok1 Hne) in Hrender.
      rewrite Hrender in Hok' |- *. do 2 eexists. split; [reflexivity|].
      split; [exact Hok'|]. cbn. exact Hne.
    + rewrite (Hskip (or_intror eq_refl)) in Hok' |- *.
      do 2 eexists. split; [reflexivity|]. split; [exact Hok1 | congruence].
  - rewrite (Hskip (or_introl eq_refl)) in Hok' |- *.
    do 2 eexists. split; [reflexivity|]. split; [exact Hok1 | congruence].
Qed.

(** From a state in which the loop can render, it runs through any number
    of turns whose images have a height. *)
Lemma main_loop_from_ok {F} `{Spy F} (inputs : list (FrameInput.t F)) :
  images_have_height inputs ->
  forall (frame : Z) (s : World.t F),
    loop_ready s ->
    exists frame' s',
      App.main_loop_from inputs frame s = (Ok frame', s') /\ loop_ready s'.
Proof.
  induction 1 as [|input inputs Himg _ IH]; intros frame s Hready;
    cbn [App.main_loop_from].
  - exists frame, s. split; [reflexivity | exact Hready].
  - unfold bind at 1, get at 1.
    destruct (World.should_close s).
    + destruct s as [[log nh] sc cfg cam ctl scn acc rt at_ ot].
      world_cbn. do 2 eexists. split; [reflexivity|]. exact Hready.
    + unfold bind at 1.
      destruct (@main_loop_body_ok _ _ input frame s Hready Himg)
        as (f1 & s1 & E1 & R1).
      rewrite E1. apply IH. exact R1.
Qed.

(** X9.  Started with consistent textures (or none yet) and a camera of
    non-zero height, and given only surface images of non-zero height, the
    main loop never raises: no texture is used before it exists and no
    aspect ratio divides by zero, for any window events, over any number of
    turns. *)
Theorem main_loop_never_raises {F} `{Spy F} (inputs : list (FrameInput.t F)) :
  images_have_height inputs ->
  forall (frame : Z) (s : World.t F),
    loop_ready s ->
    exists frame' s',
      App.main_loop_from inputs frame s = (Ok frame', s') /\ loop_ready s'.
Proof. exact (@main_loop_from_ok F _ inputs). Qed.

Lemma main_loop_never_raises_witness :
  exists (frame' : Z) (s' : World.t Q),
    App.main_loop_from
      [QSpy.input_first; QSpy.input_resized; QSpy.input_move_minimised;
       QSpy.input_move] 0 QSpy.world0
    = (Ok frame', s')
    /\ loop_ready s'.
Proof.
  apply (@main_loop_never_raises Q QSpy.spy
           [QSpy.input_first; QSpy.input_resized; QSpy.input_move_minimised;
            QSpy.input_move]).
  - repeat constructor; intros w h; cbn; intros [= <- <-]; discriminate.
  - split; [exact I | cbn; discriminate].
Defined.

Lemma frames_from_succ (frame : Z) (n : nat) :
  frames_from frame (S n) = frame :: frames_from (frame + 1) n.
Proof.
  unfold frames_from. cbn [seq map]. rewrite Z.add_0_r. f_equal.
  rewrite <- seq_shift, map_map. apply map_ext. intros k. lia.
Qed.

Lemma trace_frames_app {F} (l1 l2 : list (Event F)) :
  trace_frames (l1 ++ l2) = trace_frames l1 ++ trace_frames l2.
Proof.
  unfold trace_frames. rewrite submitted_app, concat_app, flat_map_app.
  reflexivity.
Qed.

Lemma accumulate_resets_app {F} (l1 l2 : list (Event F)) :
  accumulate_resets (l1 ++ l2) = accumulate_resets l1 ++ accumulate_resets l2.
Proof.
  unfold accumulate_resets, resets_of.
  rewrite submitted_app, concat_app, flat_map_app. reflexivity.
Qed.

(** With no event and nothing pending, the head of a turn changes nothing. *)
Lemma camera_step_idle {F} `{Spy F} (input : FrameInput.t F) (s : World.t F) :
  FrameInput.events input = [] ->
  idle (World.camera_controller s) ->
  Camera.height (World.camera s) <> 0 ->
  App.camera_step input s = (Ok false, s).
Proof.
  intros Hev Hidle Hh. unfold App.camera_step. rewrite Hev.
  unfold bind at 1. rewrite process_events_nil.
  destruct s as [dev sc cfg cam ctl scn acc rt at_ ot].
  unfold World.on_controller. cbn [World.camera World.camera_controller] in *.
  destruct (@controller_update_ok _ _ (FrameInput.dt input) cam ctl Hh)
    as (cam' & ctl' & E & _ & _ & Hsame).
  unfold idle in Hidle. rewrite Hidle in E, Hsame.
  destruct (Hsame eq_refl) as [-> ->]. rewrite E. reflexivity.
Qed.

Lemma still_turn {F} `{Spy F} (input : FrameInput.t F) (frame : Z)
  (s : World.t F) :
  still_ready s -> quiet_input input ->
  exists s' evs,
    App.main_loop_body input frame s = (Ok (frame + 1), s')
    /\ Device.log (World.device s') = Device.log (World.device s) ++ evs
    /\ trace_frames evs = [frame]
    /\ accumulate_resets evs = [frame =? 0]
    /\ still_ready s'.
Proof.
  intros (Hsc & Hcfg & Hidle & Hok & Hh) (Hev & w & h & Himg & Hne).
  pose proof (@camera_step_idle _ _ input s Hev Hidle Hh) as Hstep.
  destruct (@main_loop_body_run _ _ input frame s s false Hstep)
    as [_ Hrender].
  specialize (Hrender w h Hcfg Himg). cbv zeta in Hrender.
  rewrite (@render_frame_run _ _ s (Texture.make "surface" w h) frame Hok Hne)
    in Hrender.
  rewrite Hrender. do 2 eexists. split; [reflexivity|].
  cbn [World.device Device.log]. split; [reflexivity|].
  rewrite app_assoc.
  split; [|split].
  - apply frame_events_observed.
    destruct (App.textures_stale _ _); destruct (Accumulator.needs_texture _ _);
      reflexivity.
  - apply frame_events_observed.
    destruct (App.textures_stale _ _); destruct (Accumulator.needs_texture _ _);
      reflexivity.
  - unfold still_ready, loop_ready.
    cbn [World.should_close World.surface_config World.camera_controller
         World.camera].
    split; [exact Hsc|]. split; [exact Hcfg|]. split; [exact Hidle|].
    split; [|exact Hne].
    pose proof (@main_loop_body_keeps_textures_ok _ _ input frame s s false
                  Hok Hstep) as Hk.
    rewrite Hrender in Hk. apply Hk.
    intros w' h' E. rewrite Himg in E. injection E as <- <-. exact Hne.
Qed.

(** X10.  While nothing moves the camera, the frames of a run are numbered
    consecutively from the running frame number, one per turn, and the
    accumulator is reset by the frame numbered 0 and by no other: with no
    window events, an idle controller and a configured surface, [n] turns
    render the frames [frame, frame + 1, ..., frame + n - 1] and leave the
    counter at [frame + n]. *)
Theorem still_camera_numbers_frames {F} `{Spy F}
  (inputs : list (FrameInput.t F)) :
  Forall quiet_input inputs ->
  forall (frame : Z) (s : World.t F),
    still_ready s ->
    exists s' evs,
      App.main_loop_from inputs frame s
      = (Ok (frame + Z.of_nat (length inputs)), s')
      /\ Device.log (World.device s') = Device.log (World.device s) ++ evs
      /\ trace_frames evs = frames_from frame (length inputs)
      /\ accumulate_resets evs
         = map (fun f => f =? 0) (frames_from frame (length inputs))
      /\ still_ready s'.
Proof.
  induction 1 as [|input inputs Hq _ IH]; intros frame s Hready.
  - exists s, []. cbn [App.main_loop_from length]. rewrite Z.add_0_r, app_nil_r.
    repeat split; try reflexivity; apply Hready.
  - cbn [App.main_loop_from]. unfold bind at 1, get at 1.
    destruct Hready as (Hsc & Hrest). rewrite Hsc.
    unfold bind at 1.
    destruct (@still_turn _ _ input frame s (conj Hsc Hrest) Hq)
      as (s1 & evs1 & E1 & L1 & T1 & A1 & R1).
    rewrite E1.
    destruct (IH (frame + 1) s1 R1) as (s' & evs & E & L & T & A & R).
    exists s', (evs1 ++ evs). rewrite E.
    split; [f_equal; f_equal; cbn [length]; lia|].
    split; [rewrite L, L1, app_assoc; reflexivity|].
    cbn [length]. rewrite frames_from_succ, trace_frames_app,
      accumulate_resets_app, T1, A1, T, A.
    split; [reflexivity|]. split; [reflexivity | exact R].
Qed.

Lemma still_camera_numbers_frames_witness :
  exists (s' : World.t Q) (evs : list (Event Q)),
    App.main_loop_from [QSpy.input_first; QSpy.input_first; QSpy.input_first]
                       0 QSpy.world0
    = (Ok 3, s')
    /\ Device.log (World.device s') = Device.log (World.device QSpy.world0) ++ evs
    /\ trace_frames evs = [0; 1; 2]
    /\ accumulate_resets evs = [true; false; false].
Proof.
  destruct (@still_camera_numbers_frames Q QSpy.spy
              [QSpy.input_first; QSpy.input_first; QSpy.input_first])
    with (frame := 0) (s := QSpy.world0)
    as (s' & evs & E & L & T & A & _).
  - assert (Hq : quiet_input QSpy.input_first).
    { split; [reflexivity|].
      exists 1920, 1080. split; [reflexivity | discriminate]. }
    do 3 (constructor; [exact Hq|]). constructor.
  - split; [reflexivity|]. split; [discriminate|]. split; [reflexivity|].
    split; [exact I | discriminate].
  - exists s', evs. repeat split; assumption.
Defined.

(** ** The window: closing, resizing *)

Lemma window_kept_refl {F} (s : World.t F) : window_kept s s.
Proof. repeat split. Qed.

Lemma window_kept_trans {F} (s1 s2 s3 : World.t F) :
  window_kept s1 s2 -> window_kept s2 s3 -> window_kept s1 s3.
Proof.
  intros (A1 & A2 & A3) (B1 & B2 & B3). repeat split; congruence.
Qed.

Lemma window_kept_on_device {F A} (m : M (Device.t F) A) :
  respects window_kept (fun _ : A => True) (World.on_device m).
Proof.
  intros s. split; [|trivial]. unfold World.on_device.
  destruct (m (World.device s)) as [r dev]. destruct s. repeat split.
Qed.

Lemma window_kept_the {F A} (field : World.t F -> option A) :
  respects window_kept (fun _ : A => True) (World.the field).
Proof.
  intros s. split; [|trivial]. unfold World.the, bind, get.
  destruct (field s); apply window_kept_refl.
Qed.

Ltac window_bind :=
  eapply (@respects_bind _ _ (@window_kept_trans _)).

Ltac window_modify :=
  apply respects_modify; intros []; repeat split.

Ltac window_ret :=
  apply (@respects_ret _ _ (@window_kept_refl _)); exact I.

Lemma window_kept_render_frame {F} `{Spy F} (surface_texture : Texture.t)
  (frame : Z) :
  respects window_kept (fun _ : unit => True)
    (App.render_frame surface_texture frame).
Proof.
  unfold App.render_frame, App.reallocate_textures, PathTracer.execute,
    Accumulator.execute, ToneMapper.execute.
  window_bind; [apply (@respects_get _ _ (@window_kept_refl F)) | intros s _].
  window_bind.
  { instantiate (1 := fun _ => True).
    destruct (App.textures_stale _ _); [|window_ret].
    window_bind; [apply window_kept_on_device | intros t1 _].
    window_bind; [window_modify | intros _ _].
    window_bind; [apply window_kept_on_device | intros t2 _].
    window_bind; [window_modify | intros _ _].
    window_bind; [apply window_kept_on_device | intros t3 _].
    window_modify. }
  intros _ _.
  window_bind; [apply window_kept_the | intros rt _].
  window_bind.
  { instantiate (1 := fun _ => True).
    window_bind; [window_modify | intros _ _].
    window_bind; [apply (@respects_get _ _ (@window_kept_refl F)) | intros s1 _].
    window_bind; [apply (@respects_lift_result _ _ (@window_kept_refl F))
                 | intros c _].
    window_bind; [window_modify | intros _ _].
    window_bind; [apply (@respects_get _ _ (@window_kept_refl F)) | intros s2 _].
    cbn [USE_RAYTRACING_PIPELINE]. window_ret. }
  intros e1 _.
  window_bind; [apply window_kept_the | intros rt' _].
  window_bind; [apply window_kept_the | intros at_ _].
  window_bind.
  { instantiate (1 := fun _ => True).
    window_bind; [apply (@respects_get _ _ (@window_kept_refl F)) | intros s1 _].
    window_bind.
    { instantiate (1 := fun _ => True).
      destruct (Accumulator.needs_texture _ _); [|window_ret].
      window_bind; [apply window_kept_on_device | intros t _]. window_modify. }
    intros _ _.
    window_bind; [apply window_kept_the | intros a _]. window_ret. }
  intros e2 _.
  window_bind; [apply window_kept_the | intros at' _].
  window_bind; [apply window_kept_the | intros ot _].
  window_bind; [instantiate (1 := fun _ => True); window_ret | intros e3 _].
  window_bind; [apply window_kept_the | intros ot' _].
  window_bind; [apply window_kept_on_device | intros _ _].
  apply window_kept_on_device.
Qed.

Lemma on_controller_keeps {F A}
  (m : M (Camera.t F * CameraController.t F) A) (s : World.t F) :
  World.should_close (snd (World.on_controller m s)) = World.should_close s
  /\ World.surface_config (snd (World.on_controller m s))
     = World.surface_config s
  /\ World.device (snd (World.on_controller m s)) = World.device s
  /\ World.output_texture (snd (World.on_controller m s))
     = World.output_texture s.
Proof.
  unfold World.on_controller.
  destruct (m (World.camera s, World.camera_controller s)) as [r st].
  destruct s. repeat split.
Qed.

(** One turn of the loop, by cases. *)
Lemma main_loop_body_cases {F} `{Spy F} (input : FrameInput.t F) (frame : Z)
  (s : World.t F) :
  App.main_loop_body input frame s
  = match App.camera_step input s with
    | (Raise e, s1) => (Raise e, s1)
    | (Ok changed, s1) =>
        let frame' := if changed then 0 else frame in
        match World.surface_config s1, FrameInput.next_image input with
        | Some _, Some (width, height) =>
            match App.render_frame (Texture.make "surface" width height)
                                   frame' s1 with
            | (Ok _, s') => (Ok (frame' + 1), s')
            | (Raise e, s') => (Raise e, s')
            end
        | _, _ => (Ok frame', s1)
        end
    end.
Proof.
  unfold App.main_loop_body. unfold bind at 1.
  destruct (App.camera_step input s) as [[changed|e] s1]; [|reflexivity].
  unfold bind at 1, get at 1. cbv zeta.
  destruct (World.surface_config s1); [|reflexivity].
  destruct (FrameInput.next_image input) as [[w h]|]; [|reflexivity].
  unfold bind at 1.
  destruct (App.render_frame _ _ s1) as [[[]|e] s']; reflexivity.
Qed.

(** The state a turn leaves is the state its head leaves, unless a frame is
    rendered on it. *)
Lemma main_loop_body_state {F} `{Spy F} (input : FrameInput.t F) (frame : Z)
  (s : World.t F) :
  let s1 := snd (App.camera_step input s) in
  World.should_close (snd (App.main_loop_body input frame s))
  = World.should_close s1
  /\ World.surface_config (snd (App.main_loop_body input frame s))
     = World.surface_config s1
  /\ (World.surface_config s1 = None ->
      App.main_loop_body input frame s
      = (match fst (App.camera_step input s) with
         | Ok changed => Ok (if changed then 0 else frame)
         | Raise e => Raise e
         end, s1)).
Proof.
  cbv zeta. rewrite main_loop_body_cases.
  destruct (App.camera_step input s) as [[changed|e] s1]; cbn [fst snd];
    [|repeat split].
  destruct (World.surface_config s1) as [cfg|] eqn:Ecfg;
    [|cbn [fst snd]; repeat split; assumption].
  destruct (FrameInput.next_image input) as [[w h]|];
    [|cbn [fst snd]; split; [reflexivity|];
      split; [assumption | discriminate]].
  destruct (window_kept_render_frame (Texture.make "surface" w h)
              (if changed then 0 else frame) s1) as [(K1 & K2 & _) _].
  destruct (App.render_frame _ _ s1) as [[[]|e] s']; cbn [fst snd] in *;
    (split; [exact K1|]); (split; [congruence | discriminate]).
Qed.

Lemma on_keyboard_escape_closes {F} `{Spy F} (s : World.t F) :
  World.should_close
    (snd (App.on_keyboard_event
            (KeyboardEvent.make KeyboardEventType.key_press KeyCode.escape) s))
  = true.
Proof. destruct s as [[log nh] sc cfg cam ctl scn acc rt at_ ot]. reflexivity. Qed.

Lemma process_events_keeps_closing {F} `{Spy F}
  (events : list (WindowEvent F)) :
  forall s : World.t F,
    World.should_close s = true ->
    World.should_close (snd (App.process_events events s)) = true.
Proof.
  induction events as [|ev events IH]; intros s Hs; [exact Hs|].
  rewrite process_events_step. apply IH.
  destruct ev as [e|e|w h].
  - apply on_keyboard_event_keeps, Hs.
  - destruct (on_mouse_event_keeps e s) as (_ & _ & ->). exact Hs.
  - destruct (on_resize_keeps w h s) as (_ & _ & -> & _). exact Hs.
Qed.

Lemma process_events_escape {F} `{Spy F} (events : list (WindowEvent F)) :
  forall s : World.t F,
    In escape_pressed events ->
    World.should_close (snd (App.process_events events s)) = true.
Proof.
  induction events as [|ev events IH]; intros s Hin; [contradiction|].
  rewrite process_events_step. destruct Hin as [->|Hin].
  - apply process_events_keeps_closing. apply on_keyboard_escape_closes.
  - apply IH, Hin.
Qed.

Lemma camera_step_closes {F} `{Spy F} (input : FrameInput.t F)
  (s : World.t F) :
  World.should_close (snd (App.camera_step input s))
  = World.should_close (snd (App.process_events (FrameInput.events input) s))
  /\ World.surface_config (snd (App.camera_step input s))
     = World.surface_config
         (snd (App.process_events (FrameInput.events input) s))
  /\ World.device (snd (App.camera_step input s))
     = World.device (snd (App.process_events (FrameInput.events input) s))
  /\ World.output_texture (snd (App.camera_step input s))
     = World.output_texture
         (snd (App.process_events (FrameInput.events input) s)).
Proof.
  unfold App.camera_step. unfold bind.
  destruct (process_events_run (FrameInput.events input) s) as (s0 & -> & _).
  cbn [snd]. apply on_controller_keeps.
Qed.

(** X11.  Pressing Escape ends the loop, but not the turn: the turn in
    which the key press arrives runs to its end, frame included, and the
    next test of the loop condition leaves the loop, which then waits for
    the device once and returns. *)
Theorem escape_ends_the_loop {F} `{Spy F} (input input' : FrameInput.t F)
  (inputs : list (FrameInput.t F)) (frame frame1 : Z) (s s1 : World.t F) :
  World.should_close s = false ->
  In escape_pressed (FrameInput.events input) ->
  App.main_loop_body input frame s = (Ok frame1, s1) ->
  World.should_close s1 = true
  /\ App.main_loop_from (input :: input' :: inputs) frame s
     = (Ok frame1, waited s1).
Proof.
  intros Hopen Hesc Hbody.
  assert (Hclosed : World.should_close s1 = true).
  { destruct (main_loop_body_state input frame s) as (Hc & _).
    rewrite Hbody in Hc. cbn [snd] in Hc. rewrite Hc.
    destruct (camera_step_closes input s) as (-> & _).
    apply process_events_escape, Hesc. }
  split; [exact Hclosed|].
  cbn [App.main_loop_from]. unfold bind at 1, get at 1. rewrite Hopen.
  unfold bind at 1. rewrite Hbody.
  unfold bind at 1, get at 1. rewrite Hclosed.
  destruct s1 as [[log nh] sc cfg cam ctl scn acc rt at_ ot]. reflexivity.
Qed.

Lemma escape_ends_the_loop_witness :
  exists s1 : World.t Q,
    App.main_loop_body
      (FrameInput.make (1 # 60)%Q [escape_pressed] (Some (1920, 1080)))
      0 QSpy.world0
    = (Ok 1, s1)
    /\ World.should_close s1 = true
    /\ App.main_loop_from
         [FrameInput.make (1 # 60)%Q [escape_pressed] (Some (1920, 1080));
          QSpy.input_first; QSpy.input_first] 0 QSpy.world0
       = (Ok 1, waited s1).
Proof.
  eexists. split; [vm_compute; reflexivity|].
  apply (@escape_ends_the_loop Q QSpy.spy
           (FrameInput.make (1 # 60)%Q [escape_pressed] (Some (1920, 1080)))
           QSpy.input_first [QSpy.input_first] 0 1 QSpy.world0).
  - reflexivity.
  - left. reflexivity.
  - vm_compute. reflexivity.
Defined.

Lemma process_events_app {F} `{Spy F} (evs1 evs2 : list (WindowEvent F)) :
  forall s : World.t F,
    App.process_events (evs1 ++ evs2) s
    = App.process_events evs2 (snd (App.process_events evs1 s)).
Proof.
  induction evs1 as [|ev evs1 IH]; intros s; [reflexivity|].
  cbn [app]. rewrite !process_events_step. apply IH.
Qed.

Lemma process_events_keeps_surface {F} `{Spy F}
  (events : list (WindowEvent F)) :
  forallb (fun ev => negb (is_resize ev)) events = true ->
  forall s : World.t F,
    World.surface_config (snd (App.process_events events s))
    = World.surface_config s.
Proof.
  induction events as [|ev events IH]; intros Hno s; [reflexivity|].
  cbn [forallb] in Hno. apply andb_true_iff in Hno. destruct Hno as [Hev Hno].
  rewrite process_events_step, (IH Hno).
  destruct ev as [e|e|w h]; [| |discriminate].
  - apply on_keyboard_event_keeps.
  - apply on_mouse_event_keeps.
Qed.

Lemma handler_window_calls {F} `{Spy F} (ev : WindowEvent F) (s : World.t F) :
  let s' := snd (match ev with
                 | keyboard_event e => App.on_keyboard_event e
                 | mouse_event e => App.on_mouse_event e
                 | resize_event w h => App.on_resize w h
                 end s) in
  exists evs,
    Device.log (World.device s') = Device.log (World.device s) ++ evs
    /\ forallb is_window_call evs = true.
Proof.
  destruct s as [[log nh] sc cfg cam ctl scn acc rt at_ ot].
  destruct ev as [[ty key]|e|w h]; cbv zeta.
  - unfold App.on_keyboard_event, KeyboardEvent.is_key_press.
    cbn [KeyboardEvent.type KeyboardEvent.key].
    destruct ty; destruct key; try destruct ot as [o|];
      world_cbn; cbn [snd]; world_cbn;
      first [ exists []; rewrite app_nil_r; split; reflexivity
            | eexists; split; reflexivity ].
  - unfold App.on_mouse_event. world_cbn. cbn [snd]. world_cbn.
    exists []. rewrite app_nil_r. split; reflexivity.
  - unfold App.on_resize. world_cbn.
    destruct ((0 <? w) && (0 <? h)); world_cbn; cbn [snd]; world_cbn;
      eexists; (split; [rewrite <- app_assoc; reflexivity | reflexivity]).
Qed.

Lemma process_events_window_calls {F} `{Spy F}
  (events : list (WindowEvent F)) :
  forall s : World.t F,
    exists evs,
      Device.log (World.device (snd (App.process_events events s)))
      = Device.log (World.device s) ++ evs
      /\ forallb is_window_call evs = true.
Proof.
  induction events as [|ev events IH]; intros s.
  - exists []. rewrite app_nil_r. split; reflexivity.
  - rewrite process_events_step.
    destruct (handler_window_calls ev s) as (evs1 & L1 & W1).
    cbv zeta in L1.
    destruct (IH (snd (match ev with
                       | keyboard_event e => App.on_keyboard_event e
                       | mouse_event e => App.on_mouse_event e
                       | resize_event w h => App.on_resize w h
                       end s))) as (evs2 & L2 & W2).
    exists (evs1 ++ evs2).
    rewrite L2, L1, app_assoc, forallb_app, W1, W2. split; reflexivity.
Qed.

Lemma process_events_keeps_textures {F} `{Spy F}
  (events : list (WindowEvent F)) (s : World.t F) :
  World.output_texture (snd (App.process_events events s))
  = World.output_texture s.
Proof.
  destruct (process_events_run events s) as (s' & -> & K). apply K.
Qed.

(** X12.  The surface configuration a turn works with is the one asked for
    by the last resize event it received: a size when both numbers are
    positive, none otherwise.  In the second case (the window is
    minimised) the turn renders nothing: it ends where its head ends, the
    device has seen calls on the window and the surface only, and the
    textures are as they were. *)
Theorem last_resize_decides_rendering {F} `{Spy F} (input : FrameInput.t F)
  (frame : Z) (s : World.t F) (before after : list (WindowEvent F))
  (width height : Z) :
  FrameInput.events input = before ++ resize_event width height :: after ->
  forallb (fun ev => negb (is_resize ev)) after = true ->
  let s' := snd (App.main_loop_body input frame s) in
  World.surface_config s'
  = (if (0 <? width) && (0 <? height) then Some (width, height) else None)
  /\ ((0 <? width) && (0 <? height) = false ->
      App.main_loop_body input frame s
      = (match fst (App.camera_step input s) with
         | Ok changed => Ok (if changed then 0 else frame)
         | Raise e => Raise e
         end, snd (App.camera_step input s))
      /\ World.output_texture s' = World.output_texture s
      /\ exists evs,
          Device.log (World.device s') = Device.log (World.device s) ++ evs
          /\ forallb is_window_call evs = true).
Proof.
  intros Hev Hafter. cbv zeta.
  destruct (main_loop_body_state input frame s) as (_ & Hcfg & Hskip).
  destruct (camera_step_closes input s) as (_ & Hcfg1 & Hdev1 & Hout1).
  assert (Hsurface :
    World.surface_config (snd (App.camera_step input s))
    = (if (0 <? width) && (0 <? height) then Some (width, height) else None)).
  { rewrite Hcfg1, Hev, process_events_app, process_events_step.
    rewrite (@process_events_keeps_surface _ _ after Hafter).
    apply on_resize_keeps. }
  split; [rewrite Hcfg; exact Hsurface|].
  intros Hneg. rewrite Hneg in Hsurface.
  rewrite (Hskip Hsurface). cbn [snd]. split; [reflexivity|].
  split.
  - rewrite Hout1. apply process_events_keeps_textures.
  - rewrite Hdev1. apply process_events_window_calls.
Qed.

Lemma last_resize_decides_rendering_witness :
  World.surface_config
    (snd (App.main_loop_body QSpy.input_move_minimised 1 QSpy.world1))
  = None
  /\ App.main_loop_body QSpy.input_move_minimised 1 QSpy.world1
     = (Ok 0, snd (App.camera_step QSpy.input_move_minimised QSpy.world1))
  /\ World.output_texture
       (snd (App.main_loop_body QSpy.input_move_minimised 1 QSpy.world1))
     = World.output_texture QSpy.world1.
Proof.
  destruct (@last_resize_decides_rendering Q QSpy.spy
              QSpy.input_move_minimised 1 QSpy.world1 []
              [keyboard_event
                 (KeyboardEvent.make KeyboardEventType.key_press KeyCode.w)]
              0 0 eq_refl eq_refl) as [Hcfg Hmin].
  destruct (Hmin eq_refl) as (Hbody & Hout & _).
  split; [exact Hcfg|]. split; [|exact Hout].
  rewrite Hbody. f_equal.
Defined.

(** X13.  Textures are allocated for a size, not for a frame: when a frame
    has been rendered at some size and the next rendered frame has the same
    size, the second turn creates no texture; it submits its four commands
    on the textures the first turn left and presents. *)
Theorem textures_reused_at_same_size {F} `{Spy F}
  (input1 input2 : FrameInput.t F) (frame1 frame2 : Z) (s s1 s2 : World.t F)
  (changed1 changed2 : bool) (width height : Z) :
  App.camera_step input1 s = (Ok changed1, s1) ->
  World.surface_config s1 <> None ->
  FrameInput.next_image input1 = Some (width, height) ->
  height <> 0 ->
  textures_ok s1 ->
  let s' := snd (App.main_loop_body input1 frame1 s) in
  App.camera_step input2 s' = (Ok changed2, s2) ->
  World.surface_config s2 <> None ->
  FrameInput.next_image input2 = Some (width, height) ->
  let frame2' := if changed2 then 0 else frame2 in
  exists s'' output accumulator,
    App.main_loop_body input2 frame2 s' = (Ok (frame2' + 1), s'')
    /\ Device.log (World.device s'')
       = Device.log (World.device s2)
           ++ [submit_command_buffer
                 (frame_commands s2 (Texture.make "surface" width height)
                                 output accumulator frame2');
               surface_present]
    /\ World.output_texture s' = Some output
    /\ World.accumulator s' = Some accumulator
    /\ World.output_texture s'' = World.output_texture s'
    /\ World.render_texture s'' = World.render_texture s'
    /\ World.accum_texture s'' = World.accum_texture s'
    /\ World.accumulator s'' = World.accumulator s'.
Proof.
  intros Hstep1 Hcfg1 Himg1 Hne Hok1. cbv zeta. intros Hstep2 Hcfg2 Himg2.
  destruct (@rendered_turn _ _ input1 frame1 s s1 changed1 width height
              Hstep1 Hcfg1 Himg1 Hne Hok1)
    as (s' & o & a & Hbody1 & _ & Ho & Hr & Ha & Hacc & Hw & Hh & Haw & Hah
        & _ & _ & _ & _ & Hok').
  rewrite Hbody1 in Hstep2 |- *. cbn [snd] in Hstep2 |- *.
  destruct (@camera_step_run _ _ input2 s' s2 changed2 Hstep2)
    as ((K1 & K2 & K3 & K4 & _) & _).
  assert (Hok2 : textures_ok s2).
  { unfold textures_ok in *. rewrite K1, K2, K3. exact Hok'. }
  destruct (@rendered_turn _ _ input2 frame2 s' s2 changed2 width height
              Hstep2 Hcfg2 Himg2 Hne Hok2)
    as (s'' & o2 & a2 & Hbody2 & Hlog & Ho2 & Hr2 & Ha2 & Hacc2 & _ & _ & _
        & _ & _ & Hkeep & _ & Hfresh & _).
  assert (Hstale :
    App.textures_stale (World.output_texture s2)
                       (Texture.make "surface" width height) = false).
  { rewrite K1, Ho. unfold App.textures_stale. cbn [Texture.width Texture.height].
    rewrite Hw, Hh, !Z.eqb_refl. reflexivity. }
  assert (Hnofresh :
    Accumulator.needs_texture (World.accumulator s2)
      (Texture.make "render_texture" width height) = false).
  { rewrite K4, Hacc. unfold Accumulator.needs_texture.
    cbn [Texture.width Texture.height]. rewrite Haw, Hah, !Z.eqb_refl.
    reflexivity. }
  rewrite Hstale, Hnofresh in Hlog. cbn [app] in Hlog.
  specialize (Hkeep Hstale). specialize (Hfresh Hnofresh).
  rewrite K1, Ho in Hkeep. injection Hkeep as <-.
  rewrite K4, Hacc in Hfresh. injection Hfresh as <-.
  exists s'', o, a. rewrite Hbody2.
  repeat split; try assumption; congruence.
Qed.

Lemma textures_reused_at_same_size_witness :
  exists (s'' : World.t Q) (output accumulator : Texture.t),
    App.main_loop_body QSpy.input_first 1 QSpy.world1 = (Ok 2, s'')
    /\ Device.log (World.device s'')
       = Device.log (World.device QSpy.world1)
           ++ [submit_command_buffer
                 (frame_commands QSpy.world1 (Texture.make "surface" 1920 1080)
                                 output accumulator 1);
               surface_present]
    /\ World.output_texture s'' = World.output_texture QSpy.world1.
Proof.
  destruct (@textures_reused_at_same_size Q QSpy.spy QSpy.input_first
              QSpy.input_first 0 1 QSpy.world0 QSpy.world0 QSpy.world1
              false false 1920 1080)
    as (s'' & o & a & Hbody & Hlog & _ & _ & Hout & _);
    try (vm_compute; reflexivity); try discriminate; try exact I.
  exists s'', o, a.
  change (snd (App.main_loop_body QSpy.input_first 0 QSpy.world0))
    with QSpy.world1 in Hbody, Hout.
  repeat split; assumption.
Defined.

(** ** The camera controller *)

Lemma keycode_eqb_eq (k1 k2 : KeyCode.t) :
  KeyCode.eqb k1 k2 = true <-> k1 = k2.
Proof. destruct k1, k2; cbn; split; congruence. Qed.

Lemma keycode_eqb_refl (k : KeyCode.t) : KeyCode.eqb k k = true.
Proof. destruct k; reflexivity. Qed.

Lemma lookup_assign_same {A} (k : KeyCode.t) (v : A)
  (kvs : list (KeyCode.t * A)) :
  CameraController.lookup k (CameraController.assign k v kvs) = Some v.
Proof.
  induction kvs as [|[k' v'] kvs IH]; cbn [CameraController.assign].
  - cbn. rewrite keycode_eqb_refl. reflexivity.
  - destruct (KeyCode.eqb k k') eqn:E; cbn [CameraController.lookup];
      rewrite E; [reflexivity | exact IH].
Qed.

Lemma lookup_assign_other {A} (k k0 : KeyCode.t) (v : A)
  (kvs : list (KeyCode.t * A)) :
  k0 <> k ->
  CameraController.lookup k0 (CameraController.assign k v kvs)
  = CameraController.lookup k0 kvs.
Proof.
  intros Hne. induction kvs as [|[k' v'] kvs IH]; cbn [CameraController.assign].
  - cbn. destruct (KeyCode.eqb k0 k) eqn:E; [|reflexivity].
    apply keycode_eqb_eq in E. contradiction.
  - destruct (KeyCode.eqb k k') eqn:E; cbn [CameraController.lookup].
    + apply keycode_eqb_eq in E. subst k'.
      destruct (KeyCode.eqb k0 k) eqn:E0; [|reflexivity].
      apply keycode_eqb_eq in E0. contradiction.
    + rewrite IH. reflexivity.
Qed.

Lemma assign_keeps_keys {A} (k : KeyCode.t) (v : A)
  (kvs : list (KeyCode.t * A)) :
  In k (map fst kvs) ->
  map fst (CameraController.assign k v kvs) = map fst kvs.
Proof.
  induction kvs as [|[k' v'] kvs IH]; [contradiction|].
  cbn [map fst In CameraController.assign]. intros Hin.
  destruct (KeyCode.eqb k k') eqn:E; [reflexivity|].
  cbn [map fst]. f_equal. apply IH. destruct Hin as [->|Hin]; [|exact Hin].
  rewrite keycode_eqb_refl in E. discriminate.
Qed.

Lemma move_key_in_table (k : KeyCode.t) :
  is_move_key k = true -> In k (map fst CameraController.MOVE_KEYS).
Proof. destruct k; cbn; intros Hk; try discriminate; tauto. Qed.

Lemma assign_restores {A} (k : KeyCode.t) (v v' : A)
  (kvs : list (KeyCode.t * A)) :
  CameraController.lookup k kvs = Some v ->
  CameraController.assign k v (CameraController.assign k v' kvs) = kvs.
Proof.
  induction kvs as [|[k0 v0] kvs IH]; [discriminate|].
  cbn [CameraController.lookup CameraController.assign].
  destruct (KeyCode.eqb k k0) eqn:E; cbn [CameraController.assign]; rewrite E.
  - intros [= ->]. reflexivity.
  - intros Hl. rewrite (IH Hl). reflexivity.
Qed.

(** X14.  A keyboard event changes at most one entry of the key table: a
    press or release of a move key sets that key's entry to whether it was
    a press, and every other entry, the order of the table and its keys
    stay as they were, so that the table always has exactly the keys of
    [MOVE_KEYS] and the look-up [MOVE_KEYS[key]] cannot fail; a press or
    release of left shift sets [shift_down]; the movement vector is the sum
    over the keys held; the mouse state is not touched. *)
Theorem keyboard_event_sets_one_key {F} `{Spy F} (ctl : CameraController.t F)
  (event : KeyboardEvent.t) :
  tracks_move_keys ctl ->
  let ctl' := CameraController.on_keyboard_event ctl event in
  let down := KeyboardEvent.is_key_press event in
  let edge := down || KeyboardEvent.is_key_release event in
  let key := KeyboardEvent.key event in
  tracks_move_keys ctl'
  /\ (forall k,
        CameraController.lookup k (CameraController.key_state ctl')
        = if edge && is_move_key key && KeyCode.eqb k key
          then Some down
          else CameraController.lookup k (CameraController.key_state ctl))
  /\ CameraController.shift_down ctl'
     = (if edge && KeyCode.eqb key KeyCode.left_shift
        then down else CameraController.shift_down ctl)
  /\ CameraController.move_delta ctl'
     = CameraController.sum_move_keys (CameraController.key_state ctl')
  /\ (forall k state,
        In (k, state) (CameraController.key_state ctl') ->
        is_move_key k = true)
  /\ CameraController.mouse_down ctl' = CameraController.mouse_down ctl
  /\ CameraController.mouse_pos ctl' = CameraController.mouse_pos ctl
  /\ CameraController.rotate_delta ctl' = CameraController.rotate_delta ctl.
Proof.
  intros Htracks. cbv zeta. unfold tracks_move_keys in *.
  unfold CameraController.on_keyboard_event.
  cbn [CameraController.key_state CameraController.shift_down
       CameraController.move_delta CameraController.mouse_down
       CameraController.mouse_pos CameraController.rotate_delta].
  fold (is_move_key (KeyboardEvent.key event)).
  set (edge := KeyboardEvent.is_key_press event
               || KeyboardEvent.is_key_release event).
  assert (Hkeys :
    map fst (if edge && is_move_key (KeyboardEvent.key event)
             then CameraController.assign (KeyboardEvent.key event)
                    (KeyboardEvent.is_key_press event)
                    (CameraController.key_state ctl)
             else CameraController.key_state ctl)
    = map fst CameraController.MOVE_KEYS).
  { destruct (edge && is_move_key (KeyboardEvent.key event)) eqn:E;
      [|exact Htracks].
    apply andb_true_iff in E. destruct E as [_ E].
    rewrite assign_keeps_keys; [exact Htracks|].
    rewrite Htracks. apply move_key_in_table, E. }
  split; [exact Hkeys|]. split; [|split; [|split; [reflexivity|split]]].
  - intros k.
    destruct (edge && is_move_key (KeyboardEvent.key event)) eqn:E;
      cbn [andb]; [|reflexivity].
    destruct (KeyCode.eqb k (KeyboardEvent.key event)) eqn:Ek.
    + apply keycode_eqb_eq in Ek. subst k. apply lookup_assign_same.
    + apply lookup_assign_other. intros ->.
      rewrite keycode_eqb_refl in Ek. discriminate.
  - destruct edge; cbn [andb]; [|reflexivity].
    destruct (is_move_key (KeyboardEvent.key event)) eqn:Em; cbn [negb andb];
      [|reflexivity].
    destruct (KeyCode.eqb (KeyboardEvent.key event) KeyCode.left_shift) eqn:Es;
      [|reflexivity].
    apply keycode_eqb_eq in Es. rewrite Es in Em. discriminate.
  - intros k state Hin.
    apply (in_map fst) in Hin. rewrite Hkeys in Hin. cbn [fst] in Hin.
    cbn in Hin. decompose [or] Hin; subst; try reflexivity; contradiction.
  - repeat split.
Qed.

Lemma keyboard_event_sets_one_key_witness :
  tracks_move_keys
    (CameraController.on_keyboard_event (@CameraController.init Q QSpy.spy)
       (key_press KeyCode.w))
  /\ CameraController.lookup KeyCode.w
       (CameraController.key_state
          (CameraController.on_keyboard_event
             (@CameraController.init Q QSpy.spy) (key_press KeyCode.w)))
     = Some true
  /\ CameraController.lookup KeyCode.a
       (CameraController.key_state
          (CameraController.on_keyboard_event
             (@CameraController.init Q QSpy.spy) (key_press KeyCode.w)))
     = Some false.
Proof.
  destruct (@keyboard_event_sets_one_key Q QSpy.spy
              (@CameraController.init Q QSpy.spy) (key_press KeyCode.w)
              eq_refl) as (Ht & Hl & _).
  split; [exact Ht|]. split; [exact (Hl KeyCode.w) | exact (Hl KeyCode.a)].
Defined.

(** X15.  Pressing and releasing a move key that was up puts the
    controller back where it was, provided its movement vector was the one
    of its key table (as it is after any keyboard event). *)
Theorem key_press_release_restores {F} `{Spy F} (ctl : CameraController.t F)
  (k : KeyCode.t) :
  is_move_key k = true ->
  CameraController.lookup k (CameraController.key_state ctl) = Some false ->
  CameraController.move_delta ctl
  = CameraController.sum_move_keys (CameraController.key_state ctl) ->
  CameraController.on_keyboard_event
    (CameraController.on_keyboard_event ctl (key_press k)) (key_release k)
  = ctl.
Proof.
  intros Hk Hup Hdelta. unfold is_move_key in Hk.
  unfold CameraController.on_keyboard_event, key_press, key_release,
    KeyboardEvent.is_key_press, KeyboardEvent.is_key_release.
  cbn [KeyboardEvent.type KeyboardEvent.key orb andb
       CameraController.key_state CameraController.shift_down
       CameraController.move_delta CameraController.mouse_down
       CameraController.mouse_pos CameraController.rotate_delta
       CameraController.move_speed CameraController.rotate_speed].
  destruct (CameraController.lookup k CameraController.MOVE_KEYS);
    [|discriminate].
  cbn [negb andb]. rewrite (@assign_restores _ k false true _ Hup), <- Hdelta.
  destruct ctl. reflexivity.
Qed.

Lemma key_press_release_restores_witness :
  CameraController.on_keyboard_event
    (CameraController.on_keyboard_event (@CameraController.init Q QSpy.spy)
       (key_press KeyCode.d)) (key_release KeyCode.d)
  = @CameraController.init Q QSpy.spy.
Proof.
  apply (@key_press_release_restores Q QSpy.spy
           (@CameraController.init Q QSpy.spy) KeyCode.d);
    reflexivity.
Defined.

(** X16.  [update] uses up a pending rotation and keeps a pending movement:
    afterwards [rotate_delta] is zero if there was a rotation, and the key
    table, the shift and mouse state, the movement vector and the speeds
    are as before.  It never changes the size or the field of view of the
    camera, and leaves the camera alone when nothing is pending.  It raises
    exactly when something is pending and the camera has height 0, and by
    then the new position and target have been assigned. *)
Theorem controller_update_footprint {F} `{Spy F} (dt : F) (cam : Camera.t F)
  (ctl : CameraController.t F) :
  let r := fst (CameraController.update dt (cam, ctl)) in
  let cam' := fst (snd (CameraController.update dt (cam, ctl))) in
  let ctl' := snd (snd (CameraController.update dt (cam, ctl))) in
  let changed := CameraController.moving ctl || CameraController.rotating ctl in
  let position' :=
    if CameraController.moving ctl
    then CameraController.moved_position cam ctl dt
    else Camera.position cam in
  let fwd' :=
    if CameraController.rotating ctl
    then CameraController.rotated_fwd cam ctl
    else Camera.fwd cam in
  r = (if changed && (Camera.height cam =? 0)
       then Raise ZeroDivisionError else Ok changed)
  /\ ctl' = (if CameraController.rotating ctl
             then CameraController.set_rotate_delta ctl float2_zero
             else ctl)
  /\ CameraController.move_delta ctl' = CameraController.move_delta ctl
  /\ CameraController.key_state ctl' = CameraController.key_state ctl
  /\ Camera.width cam' = Camera.width cam
  /\ Camera.height cam' = Camera.height cam
  /\ Camera.fov cam' = Camera.fov cam
  /\ (changed = false -> cam' = cam)
  /\ (changed = true ->
      Camera.position cam' = position'
      /\ Camera.target cam' = vadd position' fwd').
Proof.
  cbv zeta. unfold CameraController.update, Camera.recompute.
  unfold bind, get, modify, ret, lift_result.
  cbn [fst snd Camera.height Camera.set_pose].
  destruct (CameraController.moving ctl);
    destruct (CameraController.rotating ctl);
    cbn [fst snd Camera.height Camera.set_pose orb andb];
    try destruct (Camera.height cam =? 0);
    cbn [fst snd]; repeat split; try discriminate; try reflexivity.
Qed.

(** X17.  The accumulator pass never fails and keeps one texture of the
    size of its input: a call leaves a texture of the input's size, and a
    further call on an input of that size creates nothing, changes nothing
    in the application state, and dispatches on the same texture. *)
Theorem accumulator_texture_is_reused {F} (s : World.t F)
  (command_encoder : list (Command F)) (input output : Texture.t)
  (reset : bool) :
  let w := Texture.width input in
  let h := Texture.height input in
  exists accumulator s',
    Accumulator.execute command_encoder input output reset s
    = (Ok (command_encoder
             ++ [dispatch_accumulator (w, h, 1) input output accumulator
                                      reset]),
       s')
    /\ World.accumulator s' = Some accumulator
    /\ Texture.width accumulator = w
    /\ Texture.height accumulator = h
    /\ forall (command_encoder2 : list (Command F))
              (input2 output2 : Texture.t) (reset2 : bool),
        Texture.width input2 = w -> Texture.height input2 = h ->
        Accumulator.execute command_encoder2 input2 output2 reset2 s'
        = (Ok (command_encoder2
                 ++ [dispatch_accumulator (w, h, 1) input2 output2
                                          accumulator reset2]),
           s').
Proof.
  cbv zeta. rewrite accumulator_execute_run. cbv zeta.
  destruct (Accumulator.needs_texture (World.accumulator s) input) eqn:En.
  - do 2 eexists. split; [reflexivity|].
    cbn [World.accumulator World.set_accumulator Texture.width Texture.height].
    split; [reflexivity|]. split; [reflexivity|]. split; [reflexivity|].
    intros enc2 input2 output2 reset2 Hw Hh.
    rewrite accumulator_execute_run. cbv zeta.
    cbn [World.accumulator World.set_accumulator].
    unfold Accumulator.needs_texture at 1 2 3.
    cbn [Texture.width Texture.height].
    rewrite Hw, Hh, !Z.eqb_refl. reflexivity.
  - unfold Accumulator.needs_texture in En.
    destruct (World.accumulator s) as [a|] eqn:Ea; [|discriminate].
    apply orb_false_iff in En. destruct En as [Ew Eh].
    apply negb_false_iff, Z.eqb_eq in Ew.
    apply negb_false_iff, Z.eqb_eq in Eh.
    exists a, s. split; [reflexivity|]. split; [exact Ea|].
    split; [exact Ew|]. split; [exact Eh|].
    intros enc2 input2 output2 reset2 Hw Hh.
    rewrite accumulator_execute_run. cbv zeta. rewrite Ea.
    unfold Accumulator.needs_texture.
    rewrite Hw, Hh, Ew, Eh, !Z.eqb_refl. reflexivity.
Qed.

(** X18.  A pending rotation does not add up over mouse events: every mouse
    event overwrites it.  After two motions in a row the rotation is the
    step from the first position to the second when the left button is
    held and zero otherwise, whatever was pending before and wherever the
    mouse was; the keys are not touched. *)
Theorem mouse_rotation_is_last_motion {F} `{Spy F} (ctl : CameraController.t F)
  (p1 p2 : float2.t F) (event : MouseEvent.t F) (pending : float2.t F) :
  let ctl2 :=
    CameraController.on_mouse_event
      (CameraController.on_mouse_event ctl (mouse_move p1)) (mouse_move p2) in
  CameraController.rotate_delta ctl2
  = (if CameraController.mouse_down ctl
     then float2_sub p2 p1 else float2_zero)
  /\ CameraController.mouse_pos ctl2 = p2
  /\ CameraController.mouse_down ctl2 = CameraController.mouse_down ctl
  /\ CameraController.key_state ctl2 = CameraController.key_state ctl
  /\ CameraController.move_delta ctl2 = CameraController.move_delta ctl
  /\ CameraController.on_mouse_event
       (CameraController.set_rotate_delta ctl pending) event
     = CameraController.on_mouse_event ctl event
  /\ (MouseEvent.is_move event = false ->
      CameraController.rotate_delta (CameraController.on_mouse_event ctl event)
      = float2_zero).
Proof.
  cbv zeta. unfold CameraController.on_mouse_event, mouse_move.
  cbn [MouseEvent.is_move MouseEvent.is_button_down MouseEvent.is_button_up
       MouseEvent.is_left MouseEvent.type MouseEvent.button MouseEvent.pos
       andb CameraController.mouse_down CameraController.mouse_pos
       CameraController.rotate_delta CameraController.key_state
       CameraController.move_delta CameraController.set_rotate_delta
       CameraController.shift_down CameraController.move_speed
       CameraController.rotate_speed].
  repeat split.
  intros Hmove.
  unfold MouseEvent.is_move in *.
  destruct (MouseEvent.type event); try discriminate; reflexivity.
Qed.

(** ** From construction to the loop *)

(** [App.__init__] configures the surface, then builds the scene; it fails
    exactly when the scene construction does. *)
Lemma app_init_run {F} `{Spy F} (camera : Camera.t F) (stage : Stage.t F)
  (dev : Device.t F) :
  App.init camera stage dev
  = match Scene.init stage (logged dev [surface_configure 1920 1080]) with
    | (Ok scene, dev') =>
        (Ok (World.make dev' false (Some (1920, 1080)) camera
                        CameraController.init scene None None None None),
         dev')
    | (Raise e, dev') => (Raise e, dev')
    end.
Proof.
  unfold App.init. unfold bind at 1. cbn [Device.emit modify].
  unfold bind at 1. unfold logged.
  destruct (Scene.init stage _) as [[scene|e] dev']; reflexivity.
Qed.

(** X19.  An application that was constructed runs: when [App.__init__]
    returns for a stage and a camera of non-zero height (the default
    camera has height 100), the main loop started on its result never
    raises as long as the surface hands out images of non-zero height, and
    it renders with the scene that the construction built, on a device
    that sees no further build. *)
Theorem constructed_app_runs {F} `{Spy F} (camera : Camera.t F)
  (stage : Stage.t F) (dev dev' : Device.t F) (app : World.t F)
  (inputs : list (FrameInput.t F)) :
  App.init camera stage dev = (Ok app, dev') ->
  Camera.height camera <> 0 ->
  images_have_height inputs ->
  World.device app = dev'
  /\ fst (Scene.init stage (logged dev [surface_configure 1920 1080]))
     = Ok (World.scene app)
  /\ World.surface_config app = Some (1920, 1080)
  /\ World.should_close app = false
  /\ exists frame' s' evs,
      App.main_loop inputs app = (Ok frame', s')
      /\ World.scene s' = World.scene app
      /\ Device.log (World.device s') = Device.log dev' ++ evs
      /\ builds evs = [].
Proof.
  rewrite app_init_run. intros Hinit Hh Himg.
  destruct (Scene.init stage _) as [[scene|e] dev1]; [|discriminate].
  injection Hinit as <- <-.
  cbn [World.device World.scene World.surface_config World.should_close fst].
  repeat (split; [reflexivity|]).
  set (app := World.make dev1 false (Some (1920, 1080)) camera
                CameraController.init scene None None None None).
  assert (Hready : loop_ready app) by (split; [exact I | exact Hh]).
  destruct (@main_loop_from_ok _ _ inputs Himg 0 app Hready)
    as (frame' & s' & Hrun & _).
  destruct (scene_kept_main_loop_from inputs 0 app)
    as [(Hs & _ & evs & Hl & Hq) _].
  unfold App.main_loop. rewrite Hrun in Hs, Hl |- *. cbn [snd] in Hs, Hl.
  exists frame', s', evs. split; [reflexivity|]. split; [exact Hs|].
  split; [exact Hl|]. apply frame_events_no_builds, Hq.
Qed.

Lemma constructed_app_runs_witness :
  World.surface_config QSpy.world0 = Some (1920, 1080)
  /\ exists (frame' : Z) (s' : World.t Q) (evs : list (Event Q)),
      App.main_loop [QSpy.input_first; QSpy.input_move] QSpy.world0
      = (Ok frame', s')
      /\ World.scene s' = World.scene QSpy.world0
      /\ builds evs = [].
Proof.
  destruct (@constructed_app_runs Q QSpy.spy Camera.init QSpy.quad_cube_stage
              QSpy.device0 (World.device QSpy.world0) QSpy.world0
              [QSpy.input_first; QSpy.input_move])
    as (_ & _ & Hcfg & _ & frame' & s' & evs & Hrun & Hs & _ & Hb).
  - exact world0_is_initial.
  - cbn. discriminate.
  - repeat constructor; intros w h; cbn; intros [= <- <-]; discriminate.
  - split; [exact Hcfg|]. exists frame', s', evs.
    split; [exact Hrun|]. split; [exact Hs | exact Hb].
Defined.

(** ** The frame, pass by pass *)

(** X20.  A rendered frame is one command buffer of four commands, each
    reading what the one before wrote: the trace writes the render texture,
    the accumulation reads it and writes the accumulation texture, the tone
    mapping reads that and writes the output texture, and the blit copies
    the output texture to the surface image.  All four textures and the
    three dispatches have the size of the surface image, the trace is bound
    to the scene the application was given and to the camera as the turn
    leaves it, whose size is that of the image; the frame is presented
    after the submission, and nothing but textures is created before it. *)
Theorem rendered_frame_is_wired {F} `{Spy F} (input : FrameInput.t F)
  (frame : Z) (s s1 : World.t F) (changed : bool) (width height : Z) :
  App.camera_step input s = (Ok changed, s1) ->
  World.surface_config s1 <> None ->
  FrameInput.next_image input = Some (width, height) ->
  height <> 0 ->
  textures_ok s1 ->
  let frame' := if changed then 0 else frame in
  let surface := Texture.make "surface" width height in
  exists s' created render accum output accumulator,
    App.main_loop_body input frame s = (Ok (frame' + 1), s')
    /\ Device.log (World.device s')
       = Device.log (World.device s1) ++ created
           ++ [submit_command_buffer
                 [dispatch_rays render frame'
                    (Scene.bind (World.scene s) (World.camera s'))
                    (width, height, 1);
                  dispatch_accumulator (width, height, 1) render accum
                    accumulator (frame' =? 0);
                  dispatch_tone_mapper (width, height, 1) accum output;
                  blit surface output];
               surface_present]
    /\ Forall (fun e => is_create_texture e = true) created
    /\ Forall (has_size width height) [render; accum; output; accumulator]
    /\ World.render_texture s' = Some render
    /\ World.accum_texture s' = Some accum
    /\ World.output_texture s' = Some output
    /\ World.accumulator s' = Some accumulator
    /\ Camera.width (World.camera s') = width
    /\ Camera.height (World.camera s') = height.
Proof.
  intros Hstep Hcfg Himg Hne Hok. cbv zeta.
  destruct (@rendered_turn _ _ input frame s s1 changed width height
              Hstep Hcfg Himg Hne Hok)
    as (s' & o & a & Hbody & Hlog & Ho & Hr & Ha & Hacc & Hw & Hh & Haw & Hah
        & _).
  destruct (@camera_step_run _ _ input s s1 changed Hstep)
    as ((_ & _ & _ & _ & Hscene & _) & _).
  assert (Hcam : World.camera s'
                 = traced_camera (World.camera s1) width height).
  { destruct (@main_loop_body_run _ _ input frame s s1 changed Hstep)
      as [_ Hrender].
    specialize (Hrender width height Hcfg Himg). cbv zeta in Hrender.
    rewrite (@render_frame_run _ _ s1 (Texture.make "surface" width height)
               (if changed then 0 else frame) Hok Hne) in Hrender.
    rewrite Hbody in Hrender. injection Hrender as ->. reflexivity. }
  exists s',
    ((if App.textures_stale (World.output_texture s1)
            (Texture.make "surface" width height)
      then [create_texture (Texture.make "output_texture" width height);
            create_texture (Texture.make "render_texture" width height);
            create_texture (Texture.make "accum_texture" width height)]
      else [])
     ++ (if Accumulator.needs_texture (World.accumulator s1)
              (Texture.make "render_texture" width height)
         then [create_texture (Texture.make "accumulator" width height)]
         else [])),
    (Texture.make "render_texture" width height),
    (Texture.make "accum_texture" width height), o, a.
  split; [exact Hbody|]. split.
  { rewrite Hlog, <- app_assoc. unfold frame_commands.
    cbn [Texture.width Texture.height]. rewrite Hcam, Hscene. reflexivity. }
  split.
  { destruct (App.textures_stale _ _); destruct (Accumulator.needs_texture _ _);
      repeat constructor. }
  split; [repeat constructor; assumption|].
  split; [exact Hr|]. split; [exact Ha|]. split; [exact Ho|].
  split; [exact Hacc|]. rewrite Hcam. split; reflexivity.
Qed.

Lemma rendered_frame_is_wired_witness :
  exists (s' : World.t Q) (created : list (Event Q))
         (render accum output accumulator : Texture.t),
    App.main_loop_body QSpy.input_first 0 QSpy.world0 = (Ok 1, s')
    /\ Device.log (World.device s')
       = Device.log (World.device QSpy.world0) ++ created
           ++ [submit_command_buffer
                 [dispatch_rays render 0
                    (Scene.bind (World.scene QSpy.world0) (World.camera s'))
                    (1920, 1080, 1);
                  dispatch_accumulator (1920, 1080, 1) render accum
                    accumulator true;
                  dispatch_tone_mapper (1920, 1080, 1) accum output;
                  blit (Texture.make "surface" 1920 1080) output];
               surface_present]
    /\ Forall (has_size 1920 1080) [render; accum; output; accumulator].
Proof.
  destruct (@rendered_frame_is_wired Q QSpy.spy QSpy.input_first 0
              QSpy.world0 QSpy.world0 false 1920 1080)
    as (s' & created & render & accum & output & accumulator
        & Hbody & Hlog & _ & Hsizes & _);
    try (vm_compute; reflexivity); try discriminate; try exact I.
  exists s', created, render, accum, output, accumulator.
  split; [exact Hbody|]. split; [exact Hlog | exact Hsizes].
Defined.

Lemma close_calls_app {F} (l1 l2 : list (Event F)) :
  close_calls (l1 ++ l2) = (close_calls l1 + close_calls l2)%nat.
Proof. unfold close_calls. rewrite filter_app, length_app. reflexivity. Qed.

Lemma no_close_call_refl {F} (s : World.t F) : no_close_call s s.
Proof. exists []. rewrite app_nil_r. split; reflexivity. Qed.

Lemma no_close_call_trans {F} (s1 s2 s3 : World.t F) :
  no_close_call s1 s2 -> no_close_call s2 s3 -> no_close_call s1 s3.
Proof.
  intros (evs & Hl & Hc) (evs' & Hl' & Hc'). exists (evs ++ evs').
  rewrite Hl', Hl, app_assoc, close_calls_app, Hc, Hc'. split; reflexivity.
Qed.

Lemma no_close_call_same_device {F} (s s' : World.t F) :
  World.device s' = World.device s -> no_close_call s s'.
Proof.
  intros Hd. exists []. rewrite Hd, app_nil_r. split; reflexivity.
Qed.

Lemma no_close_call_emit {F} (e : Event F) :
  is_window_close e = false ->
  respects no_close_call (fun _ : unit => True)
    (World.on_device (Device.emit e)).
Proof.
  intros He s. split; [|trivial]. destruct s. world_cbn.
  cbn [Device.log]. exists [e]. split; [reflexivity|].
  unfold close_calls. cbn [filter]. rewrite He. reflexivity.
Qed.

Lemma no_close_call_create_texture {F} (label : string) (width height : Z) :
  respects (S:=World.t F) no_close_call (fun _ : Texture.t => True)
    (World.on_device (Device.create_texture label width height)).
Proof.
  intros s. split; [|trivial]. destruct s. world_cbn.
  cbn [Device.log]. eexists. split; reflexivity.
Qed.

Lemma no_close_call_the {F A} (field : World.t F -> option A) :
  respects no_close_call (fun _ : A => True) (World.the field).
Proof.
  intros s. split; [|trivial]. unfold World.the, bind, get.
  destruct (field s); apply no_close_call_refl.
Qed.

Ltac quiet_bind :=
  eapply (@respects_bind _ _ (@no_close_call_trans _)).

Ltac quiet_modify :=
  apply respects_modify; intros []; apply no_close_call_same_device;
  reflexivity.

Ltac quiet_ret :=
  apply (@respects_ret _ _ (@no_close_call_refl _)); exact I.

Ltac quiet_get :=
  apply (@respects_get _ _ (@no_close_call_refl _)).

Lemma no_close_call_render_frame {F} `{Spy F} (surface_texture : Texture.t)
  (frame : Z) :
  respects no_close_call (fun _ : unit => True)
    (App.render_frame surface_texture frame).
Proof.
  unfold App.render_frame, App.reallocate_textures, PathTracer.execute,
    Accumulator.execute, ToneMapper.execute, Device.submit_command_buffer.
  quiet_bind; [quiet_get | intros s _].
  quiet_bind.
  { instantiate (1 := fun _ => True).
    destruct (App.textures_stale _ _); [|quiet_ret].
    quiet_bind; [apply no_close_call_create_texture | intros t1 _].
    quiet_bind; [quiet_modify | intros _ _].
    quiet_bind; [apply no_close_call_create_texture | intros t2 _].
    quiet_bind; [quiet_modify | intros _ _].
    quiet_bind; [apply no_close_call_create_texture | intros t3 _].
    quiet_modify. }
  intros _ _.
  quiet_bind; [apply no_close_call_the | intros rt _].
  quiet_bind.
  { instantiate (1 := fun _ => True).
    quiet_bind; [quiet_modify | intros _ _].
    quiet_bind; [quiet_get | intros s1 _].
    quiet_bind; [apply (@respects_lift_result _ _ (@no_close_call_refl F))
                | intros c _].
    quiet_bind; [quiet_modify | intros _ _].
    quiet_bind; [quiet_get | intros s2 _].
    cbn [USE_RAYTRACING_PIPELINE]. quiet_ret. }
  intros e1 _.
  quiet_bind; [apply no_close_call_the | intros rt' _].
  quiet_bind; [apply no_close_call_the | intros at_ _].
  quiet_bind.
  { instantiate (1 := fun _ => True).
    quiet_bind; [quiet_get | intros s1 _].
    quiet_bind.
    { instantiate (1 := fun _ => True).
      destruct (Accumulator.needs_texture _ _); [|quiet_ret].
      quiet_bind; [apply no_close_call_create_texture | intros t _].
      quiet_modify. }
    intros _ _.
    quiet_bind; [apply no_close_call_the | intros a _]. quiet_ret. }
  intros e2 _.
  quiet_bind; [apply no_close_call_the | intros at' _].
  quiet_bind; [apply no_close_call_the | intros ot _].
  quiet_bind; [instantiate (1 := fun _ => True); quiet_ret | intros e3 _].
  quiet_bind; [apply no_close_call_the | intros ot' _].
  quiet_bind; [apply no_close_call_emit; reflexivity | intros _ _].
  apply no_close_call_emit. reflexivity.
Qed.

Lemma handler_close_calls {F} `{Spy F} (ev : WindowEvent F) (s : World.t F) :
  let s' := snd (match ev with
                 | keyboard_event e => App.on_keyboard_event e
                 | mouse_event e => App.on_mouse_event e
                 | resize_event w h => App.on_resize w h
                 end s) in
  exists evs,
    Device.log (World.device s') = Device.log (World.device s) ++ evs
    /\ close_calls evs = (if is_escape_press ev then 1 else 0)%nat.
Proof.
  destruct s as [[log nh] sc cfg cam ctl scn acc rt at_ ot].
  destruct ev as [[ty key]|e|w h]; cbv zeta.
  - unfold App.on_keyboard_event, is_escape_press, KeyboardEvent.is_key_press.
    cbn [KeyboardEvent.type KeyboardEvent.key].
    destruct ty; destruct key; try destruct ot as [o|];
      world_cbn; cbn [snd KeyCode.eqb andb]; world_cbn;
      first [ exists []; rewrite app_nil_r; split; reflexivity
            | eexists; split; reflexivity ].
  - unfold App.on_mouse_event. world_cbn. cbn [snd]. world_cbn.
    exists []. rewrite app_nil_r. split; reflexivity.
  - unfold App.on_resize. world_cbn.
    destruct ((0 <? w) && (0 <? h)); world_cbn; cbn [snd]; world_cbn;
      eexists; (split; [rewrite <- app_assoc; reflexivity | reflexivity]).
Qed.

Lemma process_events_close_calls {F} `{Spy F}
  (events : list (WindowEvent F)) :
  forall s : World.t F,
    exists evs,
      Device.log (World.device (snd (App.process_events events s)))
      = Device.log (World.device s) ++ evs
      /\ close_calls evs = length (filter is_escape_press events).
Proof.
  induction events as [|ev events IH]; intros s.
  - exists []. rewrite app_nil_r. split; reflexivity.
  - rewrite process_events_step.
    destruct (handler_close_calls ev s) as (evs1 & L1 & C1).
    cbv zeta in L1.
    destruct (IH (snd (match ev with
                       | keyboard_event e => App.on_keyboard_event e
                       | mouse_event e => App.on_mouse_event e
                       | resize_event w h => App.on_resize w h
                       end s))) as (evs2 & L2 & C2).
    exists (evs1 ++ evs2).
    rewrite L2, L1, app_assoc, close_calls_app, C1, C2. split; [reflexivity|].
    cbn [filter]. destruct (is_escape_press ev); reflexivity.
Qed.

(** X21.  The example itself asks the window to close for an Escape key
    press and for nothing else: in a turn of the loop, whether it returns
    or raises, [window.close()] is called once for every Escape key press
    that the turn delivers and not otherwise.  Releasing Escape, any other
    key, the mouse, a resize, rendering: none of them calls it. *)
Theorem close_requested_only_on_escape {F} `{Spy F} (input : FrameInput.t F)
  (frame : Z) (s : World.t F) :
  exists evs,
    Device.log (World.device (snd (App.main_loop_body input frame s)))
    = Device.log (World.device s) ++ evs
    /\ close_calls evs
       = length (filter is_escape_press (FrameInput.events input)).
Proof.
  destruct (process_events_close_calls (FrameInput.events input) s)
    as (evs & Hlog & Hcalls).
  destruct (camera_step_closes input s) as (_ & _ & Hdev & _).
  rewrite <- Hdev in Hlog.
  rewrite main_loop_body_cases.
  destruct (App.camera_step input s) as [[changed|e] s1]; cbn [snd] in *;
    [|exists evs; split; assumption].
  destruct (World.surface_config s1);
    [|cbn [snd]; exists evs; split; assumption].
  destruct (FrameInput.next_image input) as [[w h]|];
    [|cbn [snd]; exists evs; split; assumption].
  destruct (no_close_call_render_frame (Texture.make "surface" w h)
              (if changed then 0 else frame) s1) as [(evs' & Hlog' & Hnone) _].
  exists (evs ++ evs').
  destruct (App.render_frame _ _ s1) as [[[]|e] s']; cbn [snd] in *;
    rewrite Hlog', Hlog, app_assoc, close_calls_app, Hcalls, Hnone;
    split; [reflexivity | lia | reflexivity | lia].
Qed.

(** ** The two meshes of the demo *)

(** X22.  For every size, the quad is 4 vertices and 2 triangles and the
    cube 24 vertices and 12 triangles, every index of a triangle names a
    vertex of its own mesh, and scaling leaves the normals and the texture
    coordinates as written. *)
Theorem demo_meshes_well_formed {F} `{Spy F} (quad_size : float2.t F)
  (cube_size : float3.t F) :
  let quad := Mesh.create_quad quad_size in
  let cube := Mesh.create_cube cube_size in
  Mesh.vertex_count quad = 4 /\ Mesh.index_count quad = 6
  /\ mesh_well_formed quad
  /\ Mesh.vertex_count cube = 24 /\ Mesh.index_count cube = 36
  /\ mesh_well_formed cube
  /\ map (fun v => (nx v, ny v, nz v, tu v, tv v)) (Mesh.vertices quad)
     = map (fun v => (nx v, ny v, nz v, tu v, tv v))
           (Mesh.vertices (Mesh.create_quad (float2.make (f_of_Z 1) (f_of_Z 1))))
  /\ map (fun v => (nx v, ny v, nz v, tu v, tv v)) (Mesh.vertices cube)
     = map (fun v => (nx v, ny v, nz v, tu v, tv v))
           (Mesh.vertices
              (Mesh.create_cube (float3_of_Z 1 1 1))).
Proof.
  cbv zeta. unfold mesh_well_formed.
  change (Mesh.vertex_count (Mesh.create_quad quad_size)) with 4.
  change (Mesh.vertex_count (Mesh.create_cube cube_size)) with 24.
  split; [reflexivity|]. split; [reflexivity|]. split.
  { cbn [Mesh.create_quad Mesh.indices].
    repeat (constructor; [unfold triangle_in_range; lia|]). constructor. }
  split; [reflexivity|]. split; [reflexivity|]. split.
  { cbn [Mesh.create_cube Mesh.indices].
    repeat (constructor; [unfold triangle_in_range; lia|]). constructor. }
  split; reflexivity.
Qed.
